(** * aiida-jutools: process classification and supervised submission

    A shallow embedding of [aiida_jutools/util_process.py]:
    [query_processes], [ProcessClassifier] (classification by process
    state and [count]) and [SubmissionSupervisor.blocking_submit], with
    the properties the specification states about them.

    Further functions of the package follow with properties read off
    their code: the validators of process states and exit statuses,
    [ProcessClassifier.classify_by_type] and
    [find_partially_excepted_processes] of the same module,
    [check_if_kkr_calc_converged] of [aiida_jutools/util_kkr.py], and the
    calcfunction of [aiida_jutools/process_functions/itemize_list.py].

    The AiiDA database is an explicit [Store]; printing, sleeping, queries,
    submissions and deletions are recorded in a chronological trace, and
    Python exceptions are a result of their own that keeps the state
    reached when they were raised. *)

From Stdlib Require Import ZArith Lia Ascii String.
From stdpp Require Import gmap strings list fin_maps pretty.

Local Open Scope Z_scope.

(** ** Process states (plumpy's [ProcessState], imported as [_PS]) *)

Inductive ProcessState :=
  CREATED | RUNNING | WAITING | FINISHED | EXCEPTED | KILLED.

#[global] Instance ProcessState_eq_dec : EqDecision ProcessState.
Proof. solve_decision. Defined.

(** [ps.value]: the string stored in the node attribute [process_state]. *)
Definition value (ps : ProcessState) : string :=
  match ps with
  | CREATED => "created"
  | RUNNING => "running"
  | WAITING => "waiting"
  | FINISHED => "finished"
  | EXCEPTED => "excepted"
  | KILLED => "killed"
  end.

(** [list(_PS)], in the order the enumeration declares its members. *)
Definition list_PS : list ProcessState :=
  [CREATED; RUNNING; WAITING; FINISHED; EXCEPTED; KILLED].

(** The inner function [states_subset] of [get_process_states]. *)
Definition states_subset (terminated : option bool) : list ProcessState :=
  match terminated with
  | None => list_PS
  | Some true => [FINISHED; EXCEPTED; KILLED]
  | Some false => [CREATED; WAITING; RUNNING]
  end.

(** [get_process_states(terminated, as_string=True, with_legend=False)]. *)
Definition get_process_states (terminated : option bool) : list string :=
  value <$> states_subset terminated.

(** ** Process records and the store *)

(** The attributes of a [ProcessNode] this module reads. Times are seconds. *)
Record ProcessNode := {
  pk : Z;
  uuid : Z;
  label : string;
  description : string;
  process_label : string;
  process_state : ProcessState;
  exit_status : option Z;
  mtime : Z
}.

#[global] Instance ProcessNode_eq_dec : EqDecision ProcessNode.
Proof. solve_decision. Defined.

(** [node.is_terminated]: finished, excepted or killed. *)
Definition is_terminated (n : ProcessNode) : bool :=
  match process_state n with
  | FINISHED | EXCEPTED | KILLED => true
  | _ => false
  end.

(** [node.is_finished_ok]: finished with exit status 0. *)
Definition is_finished_ok (n : ProcessNode) : bool :=
  bool_decide (process_state n = FINISHED) && bool_decide (exit_status n = Some 0).

(** A handle on a stored group; queries and updates go through its label. *)
Record Group := { group_label : string }.

(** The database: the process nodes in row order, the groups as a map from
    their label to the primary keys of their members, and the sequence
    that numbers new nodes. *)
Record Store := {
  nodes : list ProcessNode;
  groups : gmap string (gset Z);
  pk_seq : Z
}.

(** What lies outside the program: the store, the wall clock (seconds) and
    the timestamp and random suffix the next temporary group labels will
    be made of. *)
Record World := {
  store : Store;
  clock : Z;
  entropy : list (string * string)
}.

Definition set_store (st : Store) (w : World) : World :=
  {| store := st; clock := clock w; entropy := entropy w |}.

Definition set_groups (gs : gmap string (gset Z)) (st : Store) : Store :=
  {| nodes := nodes st; groups := gs; pk_seq := pk_seq st |}.

(** ** [query_processes]

    The filters [blocking_submit] and [ProcessClassifier] pass: [label],
    [process_label], [process_states], [exit_statuses], [failed] and
    [group]; [paused], [node_types] and [timedelta] stay at their defaults
    in every call of this module. Python truthiness decides whether a
    filter applies, so an empty label or an empty list filters nothing. *)

Definition label_filter (lbl : option string) (n : ProcessNode) : bool :=
  match lbl with
  | None | Some "" => true
  | Some l => bool_decide (label n = l)
  end.

Definition process_label_filter (plabel : option string) (n : ProcessNode) : bool :=
  match plabel with
  | None => true
  | Some l => bool_decide (process_label n = l)
  end.

Definition truthy {A} (l : option (list A)) : bool :=
  match l with
  | None | Some [] => false
  | Some _ => true
  end.

(** The state and exit-status filters: [failed] overrides both; a non-empty
    [exit_statuses] forces the state to ['finished'] and tests membership. *)
Definition state_filter (process_states : option (list string))
    (exit_statuses : option (list Z)) (failed : bool) (n : ProcessNode) : bool :=
  let process_states :=
    if truthy exit_statuses then Some ["finished"%string] else process_states in
  if failed then
    bool_decide (process_state n = FINISHED)
    && match exit_status n with Some e => bool_decide (0 < e) | None => false end
  else
    match process_states with
    | None | Some [] => true
    | Some sts => bool_decide (value (process_state n) ∈ sts)
    end
    && match exit_statuses with
       | None | Some [] => true
       | Some ess =>
           match exit_status n with
           | Some e => bool_decide (e ∈ ess)
           | None => false
           end
       end.

(** The join with the group of the given label; without a group the whole
    store is searched, and a label no stored group bears matches nothing. *)
Definition group_filter (group : option Group) (st : Store) (n : ProcessNode) : bool :=
  match group with
  | None => true
  | Some g =>
      match groups st !! group_label g with
      | Some members => bool_decide (pk n ∈ members)
      | None => false
      end
  end.

(** [query_processes(...).all(flat=True)] evaluated on a store. *)
Definition query_processes (lbl plabel : option string)
    (process_states : option (list string)) (exit_statuses : option (list Z))
    (failed : bool) (group : option Group) (st : Store) : list ProcessNode :=
  List.filter
    (fun n => state_filter process_states exit_statuses failed n
              && process_label_filter plabel n
              && label_filter lbl n
              && group_filter group st n)
    (nodes st).

(** ** Effects: exceptions, trace and state *)

Inductive Exn :=
  | ValueError | TypeError | IndexError | IOError | AttributeError
  | NotExistent | ModificationNotAllowed.

(** What a call prints, by kind of message and with the values it formats. *)
Inductive Msg :=
  | WarnDeleteIfStallingUnsupported
  | InfoFoundTemporaryGroups
  | InfoMultipleResults (wc_label : string) (n : nat) (pks : list Z)
  | LoadedFinishedOk (wc_label : string)
  | LoadedTerminated (wc_label : string) (st : ProcessState)
      (es : option Z) (retry : bool)
  | IsNotTerminated (wc_label : string)
  | StagingSubmit (wc_label : string) (resubmit : bool)
      (restart_pk : option Z) (metadata_differ : bool)
  | InfoStalling (wc_pk : Z) (wc_label : string) (max_min : Z) (dry : bool)
  | TrySubmit (waited n_top n_all wait_after : Z)
  | Submitted (wc_label : string) (new_pk : Z)
  | DryRunWouldSubmit (wc_label : string)
  | WarnTimedOut (wc_label : string) (waited : Z).

(** A builder: the metadata, the process class name, and the failed node it
    restarts from when it comes from [get_builder_restart]. *)
Record ProcessBuilder := {
  metadata_label : string;
  metadata_description : string;
  _process_class : string;
  restart_of : option Z
}.

Inductive Event :=
  | EPrint (m : Msg)
  | ESleep (seconds : Z)
  | EQueryAll
  | EQueryCount
  | EQuotaCheck
  | ESubmit (b : ProcessBuilder) (new_pk : Z)
  | EAddNodes (g : string) (pks : list Z)
  | EDeleteNodes (pks : list Z)
  | ECreateGroup (g : string)
  | EDeleteGroup (g : string).

(** The outcome of a call: a value, a raised exception, or the bound on
    loop iterations exhausted. *)
Inductive Res (A : Type) :=
  | Ret (a : A)
  | Raise (e : Exn)
  | OutOfFuel.
Arguments Ret {A} a.
Arguments Raise {A} e.
Arguments OutOfFuel {A}.

(** The state a method runs in: its object, the world, and the trace. *)
Record Sys (X : Type) := {
  self : X;
  world : World;
  trace : list Event
}.
Arguments self {X} _.
Arguments world {X} _.
Arguments trace {X} _.

Definition M (X A : Type) : Type := Sys X -> Res A * Sys X.

Definition ret {X A} (a : A) : M X A := fun s => (Ret a, s).

Definition raise {X A} (e : Exn) : M X A := fun s => (Raise e, s).

Definition out_of_fuel {X A} : M X A := fun s => (OutOfFuel, s).

Definition bind {X A B} (m : M X A) (k : A -> M X B) : M X B :=
  fun s =>
    match m s with
    | (Ret a, s') => k a s'
    | (Raise e, s') => (Raise e, s')
    | (OutOfFuel, s') => (OutOfFuel, s')
    end.

Notation "'let*' x ':=' c 'in' k" := (bind c (fun x => k))
  (at level 10, x pattern, c at level 100, k at level 200).

Definition get_self {X} : M X X := fun s => (Ret (self s), s).

Definition put_self {X} (x : X) : M X unit :=
  fun s => (Ret tt, {| self := x; world := world s; trace := trace s |}).

Definition get_world {X} : M X World := fun s => (Ret (world s), s).

Definition put_world {X} (w : World) : M X unit :=
  fun s => (Ret tt, {| self := self s; world := w; trace := trace s |}).

Definition emit {X} (e : Event) : M X unit :=
  fun s => (Ret tt, {| self := self s; world := world s; trace := trace s ++ [e] |}).

Definition print {X} (m : Msg) : M X unit := emit (EPrint m).

(** A [for] loop whose body has effects. *)
Fixpoint for_each {X A} (l : list A) (body : A -> M X unit) : M X unit :=
  match l with
  | [] => ret tt
  | a :: l' => let* _ := body a in for_each l' body
  end.

(** A list comprehension [[x for x in l if keep(x)]] whose test has effects. *)
Fixpoint filter_m {X A} (keep : A -> M X bool) (l : list A) : M X (list A) :=
  match l with
  | [] => ret []
  | a :: l' =>
      let* b := keep a in
      let* r := filter_m keep l' in
      ret (if b then a :: r else r)
  end.

(** ** Operations of the engine and the database *)

(** [qb.all(flat=True)] and [qb.count()] on the current store. *)
Definition query_all {X} (q : Store -> list ProcessNode) : M X (list ProcessNode) :=
  let* _ := emit EQueryAll in
  let* w := get_world in
  ret (q (store w)).

Definition query_count {X} (q : Store -> list ProcessNode) : M X Z :=
  let* _ := emit EQueryCount in
  let* w := get_world in
  ret (Z.of_nat (length (q (store w)))).

(** [load_node(pk)]. *)
Definition load_node {X} (k : Z) : M X ProcessNode :=
  let* w := get_world in
  match List.find (fun n => bool_decide (pk n = k)) (nodes (store w)) with
  | Some n => ret n
  | None => raise NotExistent
  end.

Definition is_stored (st : Store) (n : ProcessNode) : bool :=
  bool_decide (pk n ∈ pk <$> nodes st).

(** [group.add_nodes(ns)]: the group must be stored and so must every node;
    membership is a set, a node already in the group is not added again. *)
Definition add_nodes {X} (g : Group) (ns : list ProcessNode) : M X unit :=
  let* w := get_world in
  match groups (store w) !! group_label g with
  | None => raise ModificationNotAllowed
  | Some members =>
      if forallb (is_stored (store w)) ns then
        let* _ := emit (EAddNodes (group_label g) (pk <$> ns)) in
        put_world
          (set_store
             (set_groups
                (<[group_label g := members ∪ list_to_set (pk <$> ns)]> (groups (store w)))
                (store w))
             w)
      else raise ValueError
  end.

(** [delete_nodes(pks=[k], dry_run=False, force=True)]: the node leaves the
    store and every group (descendants are not part of this model). *)
Definition delete_nodes {X} (k : Z) : M X unit :=
  let* _ := emit (EDeleteNodes [k]) in
  let* w := get_world in
  put_world
    (set_store
       {| nodes := List.filter (fun n => negb (bool_decide (pk n = k))) (nodes (store w));
          groups := (fun members => members ∖ {[k]}) <$> groups (store w);
          pk_seq := pk_seq (store w) |}
       w).

(** Modelled from the spec: [util_group.delete_groups] is not among the
    sources; the group operations of the specification give "delete (with
    an option to refuse deleting non-empty groups)", and deleting a group
    leaves its member nodes in the store. *)
Definition delete_groups {X} (group_labels : list string)
    (skip_nonempty_groups : bool) : M X unit :=
  for_each group_labels (fun l =>
    let* w := get_world in
    match groups (store w) !! l with
    | None => ret tt
    | Some members =>
        if skip_nonempty_groups && negb (bool_decide (members = ∅)) then ret tt
        else
          let* _ := emit (EDeleteGroup l) in
          put_world (set_store (set_groups (delete l (groups (store w))) (store w)) w)
    end).

(** ** [ProcessClassifier] *)

(** A value of the dictionary [classified_by_state]: the processes of a
    state, or for ['finished'] a dictionary from exit status to processes. *)
Inductive Bucket :=
  | Processes (l : list ProcessNode)
  | ByExitStatus (m : gmap (option Z) (list ProcessNode)).

Record ProcessClassifier := {
  _unclassified_processes : list ProcessNode;
  classified_by_state : gmap string Bucket
}.

Definition _TMP_GROUP_LABEL_PREFIX : string := "process_classification".

(** The SQL [LIKE] of the group query: [%] matches any run of characters
    and [_] any single one. *)
Fixpoint suffixes (s : string) : list string :=
  s :: match s with
       | EmptyString => []
       | String _ s' => suffixes s'
       end.

Fixpoint sql_like (pat s : string) : bool :=
  match pat with
  | EmptyString => match s with EmptyString => true | String _ _ => false end
  | String c pat' =>
      if Ascii.eqb c "%"%char then existsb (sql_like pat') (suffixes s)
      else
        match s with
        | EmptyString => false
        | String d s' => (Ascii.eqb c "_"%char || Ascii.eqb c d) && sql_like pat' s'
        end
  end.

(** The labels of the stored groups the constructor's query returns. *)
Definition temporary_groups (st : Store) : list string :=
  List.filter (sql_like (_TMP_GROUP_LABEL_PREFIX ++ "%"))
    (fst <$> map_to_list (groups st)).

(** [ProcessClassifier.__init__]: leftover temporary groups of earlier
    instances are deleted. *)
Definition ProcessClassifier_init (processes : list ProcessNode) : M unit ProcessClassifier :=
  let* w := get_world in
  let tmp := temporary_groups (store w) in
  let* _ :=
    match tmp with
    | [] => ret tt
    | _ :: _ =>
        let* _ := print InfoFoundTemporaryGroups in
        delete_groups tmp false
    end in
  ret {| _unclassified_processes := processes; classified_by_state := ∅ |}.

(** ["_".join([prefix, timestamp, random_string])]. *)
Definition tmp_group_label (stamp : string * string) : string :=
  _TMP_GROUP_LABEL_PREFIX ++ "_" ++ fst stamp ++ "_" ++ snd stamp.

(** The [while exists_already] loop of [_group_for_classification]: labels
    are drawn until one is borne by no stored group, which is then created.
    The draws still to come are the world's [entropy]. *)
Fixpoint fresh_group (draws : list (string * string)) : M ProcessClassifier Group :=
  match draws with
  | [] => out_of_fuel
  | stamp :: draws' =>
      let* w := get_world in
      let* _ := put_world {| store := store w; clock := clock w; entropy := draws' |} in
      let lbl := tmp_group_label stamp in
      match groups (store w) !! lbl with
      | Some _ => fresh_group draws'
      | None =>
          let* _ := emit (ECreateGroup lbl) in
          let* _ := put_world
            {| store := set_groups (<[lbl := ∅]> (groups (store w))) (store w);
               clock := clock w; entropy := draws' |} in
          ret {| group_label := lbl |}
      end
  end.

Definition _group_for_classification : M ProcessClassifier Group :=
  let* w := get_world in
  let* tmp_classification_group := fresh_group (entropy w) in
  let* c := get_self in
  let* _ := add_nodes tmp_classification_group (_unclassified_processes c) in
  ret tmp_classification_group.

(** [states.pop(states.index(x))]: the first occurrence is removed. *)
Fixpoint pop_value (x : string) (states : list string) : list string :=
  match states with
  | [] => []
  | s :: states' => if bool_decide (s = x) then states' else s :: pop_value x states'
  end.

Definition set_classified (d : gmap string Bucket) : M ProcessClassifier unit :=
  let* c := get_self in
  put_self {| _unclassified_processes := _unclassified_processes c;
              classified_by_state := d |}.

(** One turn of the loop over the finished processes. *)
Definition add_by_exit_status (m : gmap (option Z) (list ProcessNode))
    (process : ProcessNode) : gmap (option Z) (list ProcessNode) :=
  let es := exit_status process in
  let m :=
    match m !! es with
    | Some (_ :: _) => m
    | _ => <[es := []]> m
    end in
  alter (fun l => l ++ [process]) es m.

Definition classify_by_state : M ProcessClassifier unit :=
  let* tmp_classification_group := _group_for_classification in
  let _get_processes state :=
    query_all (query_processes None None (Some [state]) None false
                 (Some tmp_classification_group)) in
  let* _ := set_classified ∅ in
  let states := get_process_states None in
  let finished := value FINISHED in
  let states := pop_value finished states in
  let* _ :=
    for_each states (fun state =>
      let* processes_of_state := _get_processes state in
      let* c := get_self in
      set_classified (<[state := Processes processes_of_state]> (classified_by_state c))) in
  let* c := get_self in
  let* _ := set_classified (<[finished := ByExitStatus ∅]> (classified_by_state c)) in
  let* finished_processes := _get_processes finished in
  let* c := get_self in
  let* _ :=
    set_classified
      (<[finished := ByExitStatus (fold_left add_by_exit_status finished_processes ∅)]>
         (classified_by_state c)) in
  delete_groups [group_label tmp_classification_group] false.

(** [len] of a dictionary value, as [count] takes it for states other than
    ['finished']. *)
Definition len (b : Bucket) : nat :=
  match b with
  | Processes l => length l
  | ByExitStatus m => size m
  end.

(** [sum([len(v) for v in d.values()])]. *)
Definition sum_len (m : gmap (option Z) (list ProcessNode)) : nat :=
  sum_list (length <$> (snd <$> map_to_list m)).

Fixpoint count_loop (d : gmap string Bucket) (states : list string) (total : nat) : Exn + nat :=
  match states with
  | [] => inr total
  | process_state :: states' =>
      if negb (bool_decide (process_state = value FINISHED)) then
        count_loop d states' (total + from_option len 0 (d !! process_state))%nat
      else
        match d !! process_state with
        | None | Some (Processes []) => count_loop d states' total
        | Some (ByExitStatus m) => count_loop d states' (total + sum_len m)%nat
        | Some (Processes (_ :: _)) => inl AttributeError
        end
  end.

(** [count(process_states)]: [None] and the empty list count all states. *)
Definition count (c : ProcessClassifier) (process_states : option (list string)) : Exn + nat :=
  let _process_states :=
    match process_states with
    | None | Some [] => get_process_states None
    | Some sts => sts
    end in
  count_loop (classified_by_state c) _process_states 0%nat.

(** Running a constructor body on the object under construction, and a
    method on an object, from a caller that holds the world. *)
Definition construct {X} (x0 : X) (body : M X unit) : M unit X :=
  fun s =>
    match body {| self := x0; world := world s; trace := trace s |} with
    | (Ret _, s') => (Ret (self s'), {| self := tt; world := world s'; trace := trace s' |})
    | (Raise e, s') => (Raise e, {| self := tt; world := world s'; trace := trace s' |})
    | (OutOfFuel, s') => (OutOfFuel, {| self := tt; world := world s'; trace := trace s' |})
    end.

(** ** [SubmissionSupervisor] *)

Record SubmissionSupervisorSettings := {
  dry_run : bool;
  max_top_processes_running : Z;
  max_all_processes_running : Z;
  wait_for_submit : Z;
  max_wait_for_submit : Z;
  wait_after_submit : Z;
  resubmit_failed : bool;
  resubmit_failed_as_restart : bool;
  delete_if_stalling : bool;
  delete_if_stalling_dry_run : bool;
  max_wait_for_stalling : Z
}.

(** The defaults of the dataclass. *)
Definition default_settings : SubmissionSupervisorSettings := {|
  dry_run := false;
  max_top_processes_running := 10;
  max_all_processes_running := 100;
  wait_for_submit := 5;
  max_wait_for_submit := 120;
  wait_after_submit := 2;
  resubmit_failed := true;
  resubmit_failed_as_restart := true;
  delete_if_stalling := false;
  delete_if_stalling_dry_run := false;
  max_wait_for_stalling := 240
|}.

(** Modelled from the spec: [util_computer.QuotaQuerier] is not among the
    sources; the specification gives its interface as
    [is_min_free_space_left() -> bool], "exposing a configured minimum and
    the target remote location". The answer depends on the world. *)
Record QuotaQuerier := {
  min_free_space : Z;
  is_min_free_space_left : World -> bool
}.

Record SubmissionSupervisor := {
  settings : SubmissionSupervisorSettings;
  quotaq : option QuotaQuerier;
  _submitted_top_processes : list ProcessNode
}.

Definition set_settings (s : SubmissionSupervisorSettings) : M SubmissionSupervisor unit :=
  let* me := get_self in
  put_self {| settings := s; quotaq := quotaq me;
              _submitted_top_processes := _submitted_top_processes me |}.

Definition set_submitted (l : list ProcessNode) : M SubmissionSupervisor unit :=
  let* me := get_self in
  put_self {| settings := settings me; quotaq := quotaq me;
              _submitted_top_processes := l |}.

(** [self._submitted_top_processes.append(process)]. *)
Definition append_submitted (process : ProcessNode) : M SubmissionSupervisor unit :=
  let* me := get_self in
  set_submitted (_submitted_top_processes me ++ [process]).

(** The settings after the guard has downgraded them. *)
Definition downgraded (s : SubmissionSupervisorSettings) : SubmissionSupervisorSettings := {|
  dry_run := dry_run s;
  max_top_processes_running := max_top_processes_running s;
  max_all_processes_running := max_all_processes_running s;
  wait_for_submit := wait_for_submit s;
  max_wait_for_submit := max_wait_for_submit s;
  wait_after_submit := wait_after_submit s;
  resubmit_failed := resubmit_failed s;
  resubmit_failed_as_restart := resubmit_failed_as_restart s;
  delete_if_stalling := false;
  delete_if_stalling_dry_run := true;
  max_wait_for_stalling := max_wait_for_stalling s
|}.

Definition __tmp_guard_against_delete_if_stalling : M SubmissionSupervisor unit :=
  let* me := get_self in
  if delete_if_stalling (settings me) then
    let* _ := print WarnDeleteIfStallingUnsupported in
    set_settings (downgraded (settings me))
  else ret tt.

(** [SubmissionSupervisor.__init__]. *)
Definition SubmissionSupervisor_init (s : SubmissionSupervisorSettings)
    (quota_querier : option QuotaQuerier) : M unit SubmissionSupervisor :=
  construct {| settings := s; quotaq := None; _submitted_top_processes := [] |}
    (let* _ := __tmp_guard_against_delete_if_stalling in
     let* me := get_self in
     put_self {| settings := settings me; quotaq := quota_querier;
                 _submitted_top_processes := [] |}).

(** The [groups] argument: omitted, one group, or a list of groups. *)
Inductive GroupsArg :=
  | GroupsNone
  | GroupsOne (g : Group)
  | GroupsList (gs : list Group).

(** [aiida.engine.submit]: the engine stores a new node in state created. *)
Definition aiida_submit {X} (b : ProcessBuilder) : M X ProcessNode :=
  let* w := get_world in
  let st := store w in
  let n := {| pk := pk_seq st; uuid := pk_seq st;
              label := metadata_label b; description := metadata_description b;
              process_label := _process_class b; process_state := CREATED;
              exit_status := None; mtime := clock w |} in
  let* _ := emit (ESubmit b (pk n)) in
  let* _ := put_world
    (set_store {| nodes := nodes st ++ [n]; groups := groups st;
                  pk_seq := pk_seq st + 1 |} w) in
  ret n.

(** [node.get_builder_restart()]: label and description are not copied. *)
Definition get_builder_restart (wc : ProcessNode) : ProcessBuilder :=
  {| metadata_label := ""; metadata_description := "";
     _process_class := process_label wc; restart_of := Some (pk wc) |}.

(** The query loop over the groups, extending [workchains]. *)
Fixpoint collect_workchains {X} (wc_label wc_process_label : string)
    (groups : list Group) (workchains : list ProcessNode) : M X (list ProcessNode) :=
  match groups with
  | [] => ret workchains
  | group :: groups' =>
      let* found :=
        query_all (query_processes (Some wc_label) (Some wc_process_label)
                     None None false (Some group)) in
      collect_workchains wc_label wc_process_label groups' (workchains ++ found)
  end.

(** [[wc for wc in workchains if not _is_duplicate(wc)]], with the uuids
    seen so far. *)
Fixpoint remove_duplicates (_wc_uuids : list Z) (workchains : list ProcessNode)
    : list ProcessNode :=
  match workchains with
  | [] => []
  | wc :: workchains' =>
      if bool_decide (uuid wc ∈ _wc_uuids)
      then remove_duplicates _wc_uuids workchains'
      else wc :: remove_duplicates (_wc_uuids ++ [uuid wc]) workchains'
  end.

(** The head of [blocking_submit]: the label must be set, [groups] is
    iterated (which fails on [None]), the matches of all groups are
    collected and deduplicated, and several matches are reported. It
    yields the list of groups and the matches. *)
Definition find_workchains {X} (builder : ProcessBuilder) (groups : GroupsArg)
    : M X (list Group * list ProcessNode) :=
  let wc_label := metadata_label builder in
  if bool_decide (wc_label = "") then raise ValueError
  else
    let wc_process_label := _process_class builder in
    let* groups :=
      match groups with
      | GroupsOne g => ret [g]
      | GroupsList gs => ret gs
      | GroupsNone => raise TypeError
      end in
    let* workchains := collect_workchains wc_label wc_process_label groups [] in
    let workchains := remove_duplicates [] workchains in
    let* _ :=
      if (1 <? length workchains)%nat
      then print (InfoMultipleResults wc_label (length workchains) (pk <$> workchains))
      else ret tt in
    ret (groups, workchains).

(** The staging of the request in the submit branch: the caller's builder,
    or a restart from the first terminated match. *)
Definition stage_builder {X} (s : SubmissionSupervisorSettings)
    (builder : ProcessBuilder) (workchains_terminated : list ProcessNode)
    : M X ProcessBuilder :=
  let wc_label := metadata_label builder in
  if resubmit_failed s then
    if resubmit_failed_as_restart s then
      match workchains_terminated with
      | [] => raise IndexError
      | wc_failed_first :: _ =>
          let _builder :=
            {| metadata_label := metadata_label builder;
               metadata_description := metadata_description builder;
               _process_class := _process_class (get_builder_restart wc_failed_first);
               restart_of := restart_of (get_builder_restart wc_failed_first) |} in
          let differ :=
            negb (bool_decide (metadata_label builder = label wc_failed_first))
            || negb (bool_decide (metadata_description builder = description wc_failed_first)) in
          let* _ := print (StagingSubmit wc_label true (Some (pk wc_failed_first)) differ) in
          ret _builder
      end
    else
      let* _ := print (StagingSubmit wc_label true None false) in
      ret builder
  else
    let* _ := print (StagingSubmit wc_label false None false) in
    ret builder.

(** The quota check before the waiting line. *)
Definition check_quota : M SubmissionSupervisor unit :=
  let* me := get_self in
  match quotaq me with
  | None => ret tt
  | Some q =>
      let* _ := emit EQuotaCheck in
      let* w := get_world in
      if negb (is_min_free_space_left q w) then raise IOError else ret tt
  end.

(** [num_running(granularity)]: 0 counts the top processes of the builder's
    class, 1 all processes. *)
Definition num_running {X} (wc_process_label : string) (granularity : Z) : M X Z :=
  if granularity =? 0 then
    query_count (query_processes None (Some wc_process_label)
                   (Some (get_process_states (Some false))) None false None)
  else
    query_count (query_processes None None
                   (Some (get_process_states (Some false))) None false None).

(** [(now - wc.mtime) > timedelta(minutes=s.max_wait_for_stalling)]. *)
Definition exceeds_stalling_time (s : SubmissionSupervisorSettings) (now : Z)
    (wc : ProcessNode) : bool :=
  60 * max_wait_for_stalling s <? now - mtime wc.

(** The inner function [stalling]. *)
Definition stalling (s : SubmissionSupervisorSettings) (wc : ProcessNode)
    : M SubmissionSupervisor bool :=
  let* w := get_world in
  let is_stalling := exceeds_stalling_time s (clock w) wc in
  let* _ :=
    if is_stalling then
      let* _ := print (InfoStalling (pk wc) (label wc) (max_wait_for_stalling s)
                         (delete_if_stalling_dry_run s)) in
      if negb (delete_if_stalling_dry_run s) then delete_nodes (pk wc) else ret tt
    else ret tt in
  ret is_stalling.

(** The stalling sweep at the head of each turn of the waiting line. *)
Definition sweep_stalling (s : SubmissionSupervisorSettings) : M SubmissionSupervisor unit :=
  if delete_if_stalling s || (negb (delete_if_stalling s) && delete_if_stalling_dry_run s) then
    let* me := get_self in
    let* kept :=
      filter_m (fun wc => let* b := stalling s wc in ret (negb b))
        (_submitted_top_processes me) in
    set_submitted kept
  else ret tt.

(** The test of the ceilings; [or] evaluates its second operand only when
    the first is false. *)
Definition queue_too_full (s : SubmissionSupervisorSettings) (wc_process_label : string)
    : M SubmissionSupervisor bool :=
  let* n_top := num_running wc_process_label 0 in
  if max_top_processes_running s <? n_top then ret true
  else
    let* n_all := num_running wc_process_label 1 in
    ret (max_all_processes_running s <? n_all).

Section Supervisor.

(** What the engine's daemon does to the store while the caller sleeps:
    from the clock, the duration and the store, the store afterwards. *)
Variable daemon : Z -> Z -> Store -> Store.

(** [time.sleep(seconds)]; a negative duration is a [ValueError]. *)
Definition sleep {X} (seconds : Z) : M X unit :=
  if seconds <? 0 then raise ValueError
  else
    let* _ := emit (ESleep seconds) in
    let* w := get_world in
    put_world {| store := daemon (clock w) seconds (store w);
                 clock := clock w + seconds; entropy := entropy w |}.

(** The branch that submits, once the queue is not too full. *)
Definition try_submit (s : SubmissionSupervisorSettings)
    (wc_label wc_process_label : string) (_builder : ProcessBuilder)
    (groups : list Group) (waited_for_submit seconds_per_min : Z)
    : M SubmissionSupervisor (option ProcessNode) :=
  let* n_top := num_running wc_process_label 0 in
  let* n_all := num_running wc_process_label 1 in
  let* _ := print (TrySubmit waited_for_submit n_top n_all (wait_after_submit s)) in
  if negb (dry_run s) then
    let* next_process := aiida_submit _builder in
    let* _ := append_submitted next_process in
    let* _ := for_each groups (fun group => add_nodes group [next_process]) in
    let* _ := print (Submitted wc_label (pk next_process)) in
    let* _ := sleep (wait_after_submit s * seconds_per_min) in
    ret (Some next_process)
  else
    let* _ := print (DryRunWouldSubmit wc_label) in
    ret None.

(** The [while waited_for_submit <= s.max_wait_for_submit] loop, bounded
    by [fuel] turns. It yields [submitted], [next_process] and the time
    waited. *)
Fixpoint waiting_line (fuel : nat) (s : SubmissionSupervisorSettings)
    (wc_label wc_process_label : string) (_builder : ProcessBuilder)
    (groups : list Group) (seconds_per_min waited_for_submit : Z)
    : M SubmissionSupervisor (bool * option ProcessNode * Z) :=
  match fuel with
  | O => out_of_fuel
  | S fuel' =>
      if waited_for_submit <=? max_wait_for_submit s then
        let* _ := sweep_stalling s in
        let* full := queue_too_full s wc_process_label in
        if full then
          let waited_for_submit := waited_for_submit + wait_for_submit s in
          let* _ := sleep (wait_for_submit s * seconds_per_min) in
          waiting_line fuel' s wc_label wc_process_label _builder groups
            seconds_per_min waited_for_submit
        else
          let* next_process :=
            try_submit s wc_label wc_process_label _builder groups
              waited_for_submit seconds_per_min in
          ret (true, next_process, waited_for_submit)
      else ret (false, None, waited_for_submit)
  end.

(** The submit branch of [blocking_submit]: staging, quota check, waiting
    line, and the result. *)
Definition submit_branch (fuel : nat) (s : SubmissionSupervisorSettings)
    (builder : ProcessBuilder) (groups : list Group)
    (workchains_terminated : list ProcessNode)
    : M SubmissionSupervisor (option ProcessNode * option bool) :=
  let wc_label := metadata_label builder in
  let wc_process_label := _process_class builder in
  let seconds_per_min := if dry_run s then 1 else 60 in
  let* _builder := stage_builder s builder workchains_terminated in
  let* _ := check_quota in
  let* outcome :=
    waiting_line fuel s wc_label wc_process_label _builder groups seconds_per_min 0 in
  match outcome with
  | (true, next_process, _) => ret (next_process, Some false)
  | (false, _, waited_for_submit) =>
      let* _ := print (WarnTimedOut wc_label waited_for_submit) in
      ret (None, None)
  end.

(** The decision of [blocking_submit] on the matches found: load a
    finished_ok match; load a terminated one when failed processes are
    not resubmitted; take a match still in the queue; else submit. *)
Definition load_or_submit (fuel : nat) (s : SubmissionSupervisorSettings)
    (builder : ProcessBuilder) (groups : list Group) (workchains : list ProcessNode)
    : M SubmissionSupervisor (option ProcessNode * option bool) :=
  let wc_label := metadata_label builder in
  let workchains_finished_ok := List.filter is_finished_ok workchains in
  let workchains_terminated := List.filter is_terminated workchains in
  let workchains_not_terminated :=
    List.filter (fun proc => negb (is_terminated proc)) workchains in
  match workchains_finished_ok with
  | wc :: _ =>
      let* next_process := load_node (pk wc) in
      let* _ := print (LoadedFinishedOk wc_label) in
      ret (Some next_process, Some true)
  | [] =>
      match workchains_terminated, resubmit_failed s, workchains_not_terminated with
      | wc :: _, false, _ =>
          let* next_process := load_node (pk wc) in
          let* _ := print (LoadedTerminated wc_label (process_state next_process)
                             (exit_status next_process) (resubmit_failed s)) in
          ret (Some next_process, Some true)
      | _, _, wc :: _ =>
          let* next_process := load_node (pk wc) in
          let* _ := append_submitted next_process in
          let* _ := print (IsNotTerminated wc_label) in
          ret (Some next_process, Some false)
      | _, _, [] =>
          submit_branch fuel s builder groups workchains_terminated
      end
  end.

(** [SubmissionSupervisor.blocking_submit(builder, groups)]. *)
Definition blocking_submit (fuel : nat) (builder : ProcessBuilder) (groups : GroupsArg)
    : M SubmissionSupervisor (option ProcessNode * option bool) :=
  let* _ := __tmp_guard_against_delete_if_stalling in
  let* found := find_workchains builder groups in
  let* me := get_self in
  load_or_submit fuel (settings me) builder (fst found) (snd found).

End Supervisor.

(** * Notions of the statements

    States reached by the operations, the matches a call finds, the
    buckets of a classification, and measures of a trace. *)

(** A state with events appended to its trace. *)
Definition logged {X} (evs : list Event) (s : Sys X) : Sys X :=
  {| self := self s; world := world s; trace := trace s ++ evs |}.

(** An invariant of the state that a computation keeps whatever its
    outcome: a value, an exception, or no fuel left. *)
Definition keeps {X A} (I : Sys X -> Prop) (m : M X A) : Prop :=
  forall s, I s -> I (snd (m s)).

(** Whether an event is the deletion of nodes. *)
Definition is_deletion (e : Event) : bool :=
  match e with EDeleteNodes _ => true | _ => false end.

(** The state the guard leaves: it never fails. *)
Definition guarded (st : Sys SubmissionSupervisor) : Sys SubmissionSupervisor :=
  if delete_if_stalling (settings (self st)) then
    {| self := {| settings := downgraded (settings (self st));
                  quotaq := quotaq (self st);
                  _submitted_top_processes := _submitted_top_processes (self st) |};
       world := world st;
       trace := trace st ++ [EPrint WarnDeleteIfStallingUnsupported] |}
  else st.

(** The state after an [append] to the tracked list. *)
Definition appended (n : ProcessNode) (st : Sys SubmissionSupervisor)
    : Sys SubmissionSupervisor :=
  {| self := {| settings := settings (self st); quotaq := quotaq (self st);
                _submitted_top_processes := _submitted_top_processes (self st) ++ [n] |};
     world := world st; trace := trace st |}.

(** The state with another tracked list. *)
Definition tracking (l : list ProcessNode) (st : Sys SubmissionSupervisor)
    : Sys SubmissionSupervisor :=
  {| self := {| settings := settings (self st); quotaq := quotaq (self st);
                _submitted_top_processes := l |};
     world := world st; trace := trace st |}.

(** The settings are [x] and the trace has grown from [tr0] by events that
    are not deletions of nodes. *)
Definition settled (x : SubmissionSupervisorSettings) (tr0 : list Event)
    (st : Sys SubmissionSupervisor) : Prop :=
  settings (self st) = x /\
  exists new, trace st = tr0 ++ new /\ Forall (fun e => is_deletion e = false) new.

(** The groups the call iterates over, when [groups] can be iterated. *)
Definition groups_list (groups : GroupsArg) : option (list Group) :=
  match groups with
  | GroupsNone => None
  | GroupsOne g => Some [g]
  | GroupsList gs => Some gs
  end.

(** The records of the groups that match the builder's label and process
    class, group after group, and what is left once duplicates are gone. *)
Definition matches (builder : ProcessBuilder) (gs : list Group) (st : Store)
    : list ProcessNode :=
  flat_map
    (fun g => query_processes (Some (metadata_label builder))
                (Some (_process_class builder)) None None false (Some g) st)
    gs.

Definition found (builder : ProcessBuilder) (gs : list Group) (st : Store)
    : list ProcessNode :=
  remove_duplicates [] (matches builder gs st).

(** The events of the head: one query for each group, and the report of
    several matches. *)
Definition found_events (builder : ProcessBuilder) (gs : list Group) (st : Store)
    : list Event :=
  repeat EQueryAll (length gs)
  ++ (if (1 <? length (found builder gs st))%nat
      then [EPrint (InfoMultipleResults (metadata_label builder)
                      (length (found builder gs st)) (pk <$> found builder gs st))]
      else []).

(** The primary keys and the uuids of a store identify its rows. *)
Definition store_wf (st : Store) : Prop :=
  NoDup (pk <$> nodes st) /\ NoDup (uuid <$> nodes st).

(** The events a call that loads from the database adds: queries of the
    groups and messages. *)
Definition reads_or_prints (e : Event) : Prop :=
  e = EQueryAll \/ exists m, e = EPrint m.

(** The events of a call that stops at the quota check. *)
Definition reads_prints_or_checks_quota (e : Event) : Prop :=
  reads_or_prints e \/ e = EQuotaCheck.

(** What a simulated sweep at time [now] reports of the tracked list. *)
Definition stalling_messages (s : SubmissionSupervisorSettings) (now : Z)
    (l : list ProcessNode) : list Event :=
  flat_map
    (fun wc =>
       if exceeds_stalling_time s now wc
       then [EPrint (InfoStalling (pk wc) (label wc) (max_wait_for_stalling s) true)]
       else [])
    l.

(** The state a sweep leaves when [delete_if_stalling] is off: in the
    simulation the entries found stalling are reported and leave the
    tracked list; their nodes stay in the store. *)
Definition swept (s : SubmissionSupervisorSettings) (st : Sys SubmissionSupervisor)
    : Sys SubmissionSupervisor :=
  if delete_if_stalling_dry_run s then
    logged (stalling_messages s (clock (world st)) (_submitted_top_processes (self st)))
      (tracking
         (List.filter (fun wc => negb (exceeds_stalling_time s (clock (world st)) wc))
            (_submitted_top_processes (self st)))
         st)
  else st.



(** The count [num_running(0)] takes on a store. *)
Definition num_top (wc_process_label : string) (sto : Store) : Z :=
  Z.of_nat (length (query_processes None (Some wc_process_label)
                      (Some (get_process_states (Some false))) None false None sto)).

(** The seconds a trace has slept, and whether an event is a submission. *)
Definition slept_seconds (tr : list Event) : Z :=
  fold_right (fun e acc => match e with ESleep d => d + acc | _ => acc end) 0 tr.

Definition is_submission (e : Event) : bool :=
  match e with ESubmit _ _ => true | _ => false end.

(** The state after a sleep of [d] seconds. *)
Definition asleep {X} (daemon : Z -> Z -> Store -> Store) (d : Z) (st : Sys X) : Sys X :=
  {| self := self st;
     world := {| store := daemon (clock (world st)) d (store (world st));
                 clock := clock (world st) + d;
                 entropy := entropy (world st) |};
     trace := trace st ++ [ESleep d] |}.

(** The first label of the draws that no stored group bears, with the
    draws left after it. *)
Fixpoint first_fresh (gs : gmap string (gset Z)) (draws : list (string * string))
    : option (string * list (string * string)) :=
  match draws with
  | [] => None
  | stamp :: draws' =>
      match gs !! tmp_group_label stamp with
      | Some _ => first_fresh gs draws'
      | None => Some (tmp_group_label stamp, draws')
      end
  end.

(** The world with other groups and other draws left. *)
Definition regrouped (gs : gmap string (gset Z)) (draws : list (string * string))
    (w : World) : World :=
  {| store := set_groups gs (store w); clock := clock w; entropy := draws |}.

Definition in_world {X} (w : World) (st : Sys X) : Sys X :=
  {| self := self st; world := w; trace := trace st |}.

(** Whether a record is one of the batch, by primary key, and the records
    of the batch the store holds in a given state. *)
Definition in_batch (B : list ProcessNode) (n : ProcessNode) : bool :=
  bool_decide (pk n ∈ pk <$> B).

Definition of_state (B : list ProcessNode) (sto : Store) (state : string)
    : list ProcessNode :=
  List.filter
    (fun n => bool_decide (value (process_state n) = state) && in_batch B n)
    (nodes sto).

(** The dictionary [classify_by_state] builds for a batch on a store. *)
Definition by_exit_status (finished_processes : list ProcessNode)
    : gmap (option Z) (list ProcessNode) :=
  fold_left add_by_exit_status finished_processes ∅.

Definition classification (B : list ProcessNode) (sto : Store) : gmap string Bucket :=
  <["finished" := ByExitStatus (by_exit_status (of_state B sto "finished"))]>
    (fold_left (fun d state => <[state := Processes (of_state B sto state)]> d)
       ["created"; "running"; "waiting"; "excepted"; "killed"] ∅).

(** The processes under the exit statuses of the finished bucket, the
    processes of a bucket, and those of all buckets of a dictionary. *)
Definition exit_status_processes (m : gmap (option Z) (list ProcessNode)) : list ProcessNode :=
  flat_map snd (map_to_list m).

Definition bucket_processes (b : Bucket) : list ProcessNode :=
  match b with
  | Processes l => l
  | ByExitStatus m => exit_status_processes m
  end.

Definition all_classified (d : gmap string Bucket) : list ProcessNode :=
  flat_map (fun kv => bucket_processes (snd kv)) (map_to_list d).

(** The records of the batch that the store holds, state by state. *)
Definition classified_parts (B : list ProcessNode) (sto : Store) : list ProcessNode :=
  of_state B sto "finished" ++ of_state B sto "killed" ++ of_state B sto "excepted"
  ++ of_state B sto "waiting" ++ of_state B sto "running" ++ of_state B sto "created".

(** The groups left once those of the given labels are deleted. *)
Definition without (labels : list string) (gs : gmap string (gset Z))
    : gmap string (gset Z) :=
  fold_left (fun gs l => delete l gs) labels gs.

(** The count [num_running(1)] takes on a store. *)
Definition num_all (sto : Store) : Z :=
  Z.of_nat (length (query_processes None None
                      (Some (get_process_states (Some false))) None false None sto)).

(** The node the engine stores for a builder, and the state it leaves. *)
Definition new_node (b : ProcessBuilder) (w : World) : ProcessNode :=
  {| pk := pk_seq (store w); uuid := pk_seq (store w);
     label := metadata_label b; description := metadata_description b;
     process_label := _process_class b; process_state := CREATED;
     exit_status := None; mtime := clock w |}.

Definition submitted {X} (b : ProcessBuilder) (st : Sys X) : Sys X :=
  {| self := self st;
     world := set_store {| nodes := nodes (store (world st)) ++ [new_node b (world st)];
                           groups := groups (store (world st));
                           pk_seq := pk_seq (store (world st)) + 1 |} (world st);
     trace := trace st ++ [ESubmit b (pk_seq (store (world st)))] |}.

(** * Scenarios

    A store with one group of impurity workchains, a builder labelled
    ["A"], and an engine that leaves the store alone while the caller
    sleeps. *)

Definition idle_daemon (now seconds : Z) (sto : Store) : Store := sto.

Definition kkr_imp_wc (k : Z) (lbl : string) (state : ProcessState)
    (es : option Z) : ProcessNode :=
  {| pk := k; uuid := k; label := lbl; description := "";
     process_label := "kkr_imp_wc"; process_state := state;
     exit_status := es; mtime := 0 |}.

Definition builder_A : ProcessBuilder :=
  {| metadata_label := "A"; metadata_description := "impurity A";
     _process_class := "kkr_imp_wc"; restart_of := None |}.

Definition imps : Group := {| group_label := "imps" |}.

Definition store_of (ns : list ProcessNode) (members : list Z) : Store :=
  {| nodes := ns; groups := {[ "imps"%string := list_to_set members ]}; pk_seq := 100 |}.

Definition world_of (sto : Store) : World :=
  {| store := sto; clock := 100000; entropy := [("2021-03-01_12-00-00", "abcdefghijklmnop")%string;
                                                ("2021-03-01_12-00-01", "ponmlkjihgfedcba")%string] |}.

Definition supervisor (s : SubmissionSupervisorSettings) (q : option QuotaQuerier)
    (tracked : list ProcessNode) (sto : Store) : Sys SubmissionSupervisor :=
  {| self := {| settings := s; quotaq := q; _submitted_top_processes := tracked |};
     world := world_of sto; trace := [] |}.

Definition classifier (B : list ProcessNode) (sto : Store) : Sys ProcessClassifier :=
  {| self := {| _unclassified_processes := B; classified_by_state := ∅ |};
     world := world_of sto; trace := [] |}.

(** The settings of the specification's timeout scenario, with failed
    processes not resubmitted. *)
Definition ceiling_zero : SubmissionSupervisorSettings := {|
  dry_run := true;
  max_top_processes_running := 0;
  max_all_processes_running := 100;
  wait_for_submit := 1;
  max_wait_for_submit := 1;
  wait_after_submit := 2;
  resubmit_failed := false;
  resubmit_failed_as_restart := true;
  delete_if_stalling := false;
  delete_if_stalling_dry_run := false;
  max_wait_for_stalling := 240
|}.

(** Settings that ask for the stalling deletion, and settings that ask for
    its simulation only. *)
Definition deleting : SubmissionSupervisorSettings := {|
  dry_run := true;
  max_top_processes_running := 10;
  max_all_processes_running := 100;
  wait_for_submit := 1;
  max_wait_for_submit := 1;
  wait_after_submit := 2;
  resubmit_failed := false;
  resubmit_failed_as_restart := true;
  delete_if_stalling := true;
  delete_if_stalling_dry_run := false;
  max_wait_for_stalling := 240
|}.


Definition no_space_left : QuotaQuerier :=
  {| min_free_space := 10; is_min_free_space_left := fun _ => false |}.


(** C4 and C9: a batch of three stored records, one in each of three
    buckets. *)
Definition three : list ProcessNode :=
  [kkr_imp_wc 1 "A" FINISHED (Some 0); kkr_imp_wc 2 "B" FINISHED (Some 3);
   kkr_imp_wc 3 "C" RUNNING None].

(** * Further functions of the package

    The validators of process states and exit statuses and
    [ProcessClassifier.classify_by_type] and
    [find_partially_excepted_processes] of [util_process.py],
    [check_if_kkr_calc_converged] of [util_kkr.py], and the body of the
    calcfunction [itemize_list]. *)

(** The exceptions these functions raise besides those of [Exn]. *)
Inductive PyError :=
  | AssertionError
  | KeyError
  | NotImplementedError
  | Builtin (e : Exn).

(** ** [validate_process_states] *)

(** An item of a list of process states: a string, or a member of the
    enumeration. A member of a plain [Enum] is equal to no string. *)
Inductive StateItem :=
  | StateStr (s : string)
  | StateEnum (ps : ProcessState).

#[global] Instance StateItem_eq_dec : EqDecision StateItem.
Proof. solve_decision. Defined.

(** [get_process_states(terminated, as_string, with_legend=False)]. *)
Definition get_process_states_as (terminated : option bool) (as_string : bool)
    : list StateItem :=
  if as_string then StateStr <$> (value <$> states_subset terminated)
  else StateEnum <$> states_subset terminated.

(** [all(ps in allowed_process_states for ps in process_states)]. *)
Definition validate_process_states (process_states : list StateItem)
    (as_string : bool) : bool :=
  let allowed_process_states := get_process_states_as None as_string in
  forallb (fun ps => bool_decide (ps ∈ allowed_process_states)) process_states.

(** ** [get_exit_codes] and [validate_exit_statuses] *)

(** An [ExitCode] by the fields this module reads. *)
Record ExitCode := {
  status : Z;
  message : string
}.

(** The argument [process_cls]: a subclass of [Process], with the exit
    codes of its specification by label in the order they were declared,
    or another class. *)
Inductive PyClass :=
  | ProcessClass (exit_codes : list (string * ExitCode))
  | OtherClass.

(** What [get_exit_codes] returns: the list of exit codes, or the
    dictionary from status to message. *)
Inductive ExitCodes :=
  | ExitCodeList (l : list ExitCode)
  | ExitCodeDict (d : gmap Z string).

Definition get_exit_codes (process_cls : PyClass) (as_dict : bool)
    : PyError + ExitCodes :=
  match process_cls with
  | OtherClass => inl AssertionError
  | ProcessClass spec_exit_codes =>
      let exit_codes := snd <$> spec_exit_codes in
      inr (if negb as_dict then ExitCodeList exit_codes
           else ExitCodeDict
                  (fold_left (fun d ec => <[status ec := message ec]> d) exit_codes ∅))
  end.

Definition validate_exit_statuses (process_cls : PyClass) (exit_statuses : list Z)
    : PyError + bool :=
  match process_cls with
  | OtherClass => inl AssertionError
  | ProcessClass _ =>
      match get_exit_codes process_cls false with
      | inl e => inl e
      | inr (ExitCodeDict _) => inl (Builtin AttributeError)
      | inr (ExitCodeList exit_codes) =>
          let valid_exit_statuses := status <$> exit_codes in
          let exit_statuses_without_0 :=
            List.filter (fun es => negb (bool_decide (es = 0))) exit_statuses in
          inr (forallb (fun exit_status => bool_decide (exit_status ∈ valid_exit_statuses))
                 exit_statuses_without_0)
      end
  end.

(** ** [ProcessClassifier.classify_by_type] *)

Section ClassifyByType.

(** The type indicators of a process node the record [ProcessNode] leaves
    out, by name: the class of the node, the process class and the process
    type. *)
Variables (type_of process_class process_type : ProcessNode -> string).

(** The dictionary [d] at its creation. *)
Definition classified_by_type_empty : gmap string (gmap string (list ProcessNode)) :=
  {[ "type" := ∅; "process_class" := ∅; "process_label" := ∅; "process_type" := ∅ ]}%string.

(** [if not k in d[name]: d[name][k] = []]. *)
Definition ensure_list (name k : string)
    (d : gmap string (gmap string (list ProcessNode)))
    : gmap string (gmap string (list ProcessNode)) :=
  alter (fun m => match m !! k with Some _ => m | None => <[k := []]> m end) name d.

(** [d[name][k].append(process)]. *)
Definition append_process (name k : string) (process : ProcessNode)
    (d : gmap string (gmap string (list ProcessNode)))
    : gmap string (gmap string (list ProcessNode)) :=
  alter (alter (fun l => l ++ [process]) k) name d.

(** One turn of the loop over the processes. *)
Definition classify_by_type_turn (d : gmap string (gmap string (list ProcessNode)))
    (process : ProcessNode) : gmap string (gmap string (list ProcessNode)) :=
  let typ := type_of process in
  let pcls := process_class process in
  let plabel := process_label process in
  let ptype := process_type process in
  let d := ensure_list "type" typ d in
  let d := ensure_list "process_class" pcls d in
  let d := ensure_list "process_label" plabel d in
  let d := ensure_list "process_type" ptype d in
  let d := append_process "type" typ process d in
  let d := append_process "process_class" pcls process d in
  let d := append_process "process_label" plabel process d in
  append_process "process_type" ptype process d.

(** [classify_by_type]: the dictionary the method assigns to
    [self.classified_by_type]. *)
Definition classify_by_type (c : ProcessClassifier)
    : gmap string (gmap string (list ProcessNode)) :=
  fold_left classify_by_type_turn (_unclassified_processes c) classified_by_type_empty.

(** The four classifications and the attribute each one reads. *)
Definition type_indicators : list (string * (ProcessNode -> string)) :=
  [("type", type_of); ("process_class", process_class);
   ("process_label", process_label); ("process_type", process_type)]%string.

End ClassifyByType.

(** The processes of a list with a given value of an attribute, or nothing
    when there is none. *)
Definition with_attribute (attribute : ProcessNode -> string) (k : string)
    (processes : list ProcessNode) : option (list ProcessNode) :=
  match List.filter (fun p => bool_decide (attribute p = k)) processes with
  | [] => None
  | l => Some l
  end.

(** What a turn of the loop does to the dictionary of one indicator. *)
Definition listed (attribute : ProcessNode -> string)
    (m : gmap string (list ProcessNode)) (process : ProcessNode)
    : gmap string (list ProcessNode) :=
  alter (fun l => l ++ [process]) (attribute process)
    (match m !! attribute process with
     | Some _ => m
     | None => <[attribute process := []]> m
     end).

(** ** [find_partially_excepted_processes] *)

(** A dictionary whose keys are process nodes, in insertion order. *)
Fixpoint dict_get {V} (k : ProcessNode) (d : list (ProcessNode * V)) : option V :=
  match d with
  | [] => None
  | (k', v) :: d' => if bool_decide (k' = k) then Some v else dict_get k d'
  end.

Fixpoint dict_set {V} (k : ProcessNode) (v : V) (d : list (ProcessNode * V))
    : list (ProcessNode * V) :=
  match d with
  | [] => [(k, v)]
  | (k', v') :: d' =>
      if bool_decide (k' = k) then (k', v) :: d' else (k', v') :: dict_set k v d'
  end.

Section Provenance.

(** [process.get_outgoing(node_class=ProcessNode).all_nodes()]: the process
    nodes the provenance graph links from a process. *)
Variable get_outgoing : ProcessNode -> list ProcessNode.

(** The body of the inner loop, for one child. *)
Definition note_excepted (process : ProcessNode)
    (processes_excepted : list (ProcessNode * list ProcessNode)) (child : ProcessNode)
    : list (ProcessNode * list ProcessNode) :=
  if bool_decide (process_state child = EXCEPTED) then
    let processes_excepted :=
      match dict_get process processes_excepted with
      | Some (_ :: _) => processes_excepted
      | _ => dict_set process [] processes_excepted
      end in
    match dict_get process processes_excepted with
    | Some l => dict_set process (l ++ [child]) processes_excepted
    | None => processes_excepted
    end
  else processes_excepted.

Definition find_partially_excepted_processes (processes : list ProcessNode)
    (to_depth : Z) : PyError + list (ProcessNode * list ProcessNode) :=
  if 1 <? to_depth then inl NotImplementedError
  else
    inr (fold_left
           (fun processes_excepted process =>
              fold_left (note_excepted process) (get_outgoing process) processes_excepted)
           processes []).

(** The children of a process that have excepted. *)
Definition excepted_children (process : ProcessNode) : list ProcessNode :=
  List.filter (fun child => bool_decide (process_state child = EXCEPTED))
    (get_outgoing process).

End Provenance.

(** ** [util_kkr.check_if_kkr_calc_converged] *)

(** The values a [Dict] or [List] node holds. A float is the dyadic number
    [m * 2 ^ e]. *)
#[local] Set Warnings "-register-all".
Inductive PyValue :=
  | PyNone
  | PyBool (b : bool)
  | PyInt (z : Z)
  | PyFloat (m e : Z)
  | PyStr (s : string)
  | PyList (l : list PyValue)
  | PyDict (d : gmap string PyValue).

(** [v[key]] for a string key: only a dictionary can be indexed by it. *)
Definition getitem (v : PyValue) (key : string) : PyError + PyValue :=
  match v with
  | PyDict d =>
      match d !! key with
      | Some x => inr x
      | None => inl KeyError
      end
  | _ => inl (Builtin TypeError)
  end.

(** [v == True]: [True] is equal to itself and to the numbers [1] and [1.0]. *)
Definition eq_True (v : PyValue) : bool :=
  match v with
  | PyBool b => b
  | PyInt z => z =? 1
  | PyFloat m e => (e <=? 0) && (m =? 2 ^ (- e))
  | _ => false
  end.

(** A calculation node: the content of its output node
    [output_parameters], when it has one. *)
Record CalcJobNode := {
  output_parameters : option (gmap string PyValue)
}.

(** The message of the [except KeyError] clause. *)
Definition not_a_kkr_calculation : string :=
  "Error: calculation is not a kkr calculation.".

(** The function yields what it prints and its outcome. *)
Definition check_if_kkr_calc_converged (kkr_calc : CalcJobNode)
    : list string * (PyError + unit) :=
  let asserted :=
    match output_parameters kkr_calc with
    | None => inl (Builtin AttributeError)
    | Some d =>
        match getitem (PyDict d) "convergence_group" with
        | inl e => inl e
        | inr convergence_group =>
            match getitem convergence_group "calculation_converged" with
            | inl e => inl e
            | inr calculation_converged =>
                if eq_True calculation_converged then inr tt else inl AssertionError
            end
        end
    end in
  match asserted with
  | inl KeyError => ([not_a_kkr_calculation], inl KeyError)
  | outcome => ([], outcome)
  end.

(** ** [process_functions.itemize_list]

    The body of the calcfunction, on the items of the [List] node. The
    names [numpy.bool], [numpy.int] and [numpy.float] of the dictionary
    [type_correspondence] are the builtin types in the releases of numpy
    that have them. *)

Module orm.
Inductive Data_class := Bool | Int | Float | Str | Dict | List.
End orm.

#[global] Instance Data_class_eq_dec : EqDecision orm.Data_class.
Proof. solve_decision. Defined.

(** [type_correspondence.get(type(item))]. *)
Definition type_correspondence (item : PyValue) : option orm.Data_class :=
  match item with
  | PyNone => None
  | PyBool _ => Some orm.Bool
  | PyInt _ => Some orm.Int
  | PyFloat _ _ => Some orm.Float
  | PyStr _ => Some orm.Str
  | PyList _ => Some orm.List
  | PyDict _ => Some orm.Dict
  end.

(** How a constructor receives the item: positionally, or as the keyword
    argument of the given name. *)
Inductive Argument :=
  | Positional
  | Keyword (name : string).

(** [format(index, "0w")]: the decimal digits, padded with zeros on the
    left to the width [w]. *)
Fixpoint zeros (n : nat) : string :=
  match n with
  | O => ""
  | S n' => String "0" (zeros n')
  end.

Definition format_zeropad (width index : nat) : string :=
  zeros (width - String.length (pretty index)) ++ pretty index.

(** [f"item_{format(index, zeropad)}"], where [zeropad] is
    [f"0{len(a_list) % 10}"]. *)
Definition item_key (len_a_list index : nat) : string :=
  "item_" ++ format_zeropad (len_a_list mod 10) index.

Section ItemizeList.

(** The data nodes, and the constructors of the classes of [aiida.orm]
    applied to an item: a node or an exception. *)
Variable Data : Type.
Variable new : orm.Data_class -> Argument -> PyValue -> PyError + Data.

(** The three statements that assign [value]. *)
Definition make_value (orm_cls : orm.Data_class) (item : PyValue) : PyError + Data :=
  let first :=
    if bool_decide (orm_cls = orm.Dict)
    then match new orm_cls (Keyword "dict") item with
         | inl e => inl e
         | inr value => inr (Some value)
         end
    else inr None in
  match first with
  | inl e => inl e
  | inr _ =>
      if bool_decide (orm_cls = orm.List) then new orm_cls (Keyword "list") item
      else new orm_cls Positional item
  end.

(** The loop over [enumerate(a_list)], from [index] on. *)
Fixpoint itemize_loop (orm_types : list (option orm.Data_class)) (keys : list string)
    (index : nat) (items : list PyValue) (a_dict : gmap string Data)
    : PyError + gmap string Data :=
  match items with
  | [] => inr a_dict
  | item :: items' =>
      match orm_types !! index with
      | None => inl (Builtin IndexError)
      | Some None => itemize_loop orm_types keys (S index) items' a_dict
      | Some (Some orm_cls) =>
          match keys !! index with
          | None => inl (Builtin IndexError)
          | Some key =>
              match make_value orm_cls item with
              | inl e => inl e
              | inr value =>
                  itemize_loop orm_types keys (S index) items' (<[key := value]> a_dict)
              end
          end
      end
  end.

(** [itemize_list(a_list)]: whether the warning is printed, and the
    dictionary returned or the exception raised. *)
Definition itemize_list (a_list : list PyValue) : bool * (PyError + gmap string Data) :=
  let orm_types := type_correspondence <$> a_list in
  let warned := negb (forallb (fun orm_type => bool_decide (is_Some orm_type)) orm_types) in
  let keys := imap (fun index _ => item_key (length a_list) index) a_list in
  (warned, itemize_loop orm_types keys 0 a_list ∅).

(** The value [make_value] yields, when it yields one. *)
Definition made (orm_cls : orm.Data_class) (item : PyValue) : option Data :=
  match make_value orm_cls item with
  | inr value => Some value
  | inl _ => None
  end.

(** The keys and values of the items that have a data class, from [index]
    on. *)
Fixpoint entries (len_a_list index : nat) (items : list PyValue) : list (string * Data) :=
  match items with
  | [] => []
  | item :: items' =>
      match type_correspondence item ≫= (fun orm_cls => made orm_cls item) with
      | Some value => (item_key len_a_list index, value) :: entries len_a_list (S index) items'
      | None => entries len_a_list (S index) items'
      end
  end.

End ItemizeList.

(** ** Notions of the further statements *)

(** Whether an event changes the database: a submission, a change of the
    members of a group, a deletion of nodes, the creation or the deletion
    of a group. *)
Definition is_modification (e : Event) : bool :=
  match e with
  | ESubmit _ _ | EAddNodes _ _ | EDeleteNodes _ | ECreateGroup _ | EDeleteGroup _ => true
  | _ => false
  end.

(** The settings are [x] and the trace has grown from [tr0] by events that
    leave the database alone. *)
Definition rehearsing (x : SubmissionSupervisorSettings) (tr0 : list Event)
    (st : Sys SubmissionSupervisor) : Prop :=
  settings (self st) = x /\
  exists new, trace st = tr0 ++ new /\ Forall (fun e => is_modification e = false) new.

(** The request a restart from a failed record stages: the builder of the
    record's restart under the caller's label and description. *)
Definition restart_builder (builder : ProcessBuilder) (wc_failed_first : ProcessNode)
    : ProcessBuilder :=
  {| metadata_label := metadata_label builder;
     metadata_description := metadata_description builder;
     _process_class := _process_class (get_builder_restart wc_failed_first);
     restart_of := restart_of (get_builder_restart wc_failed_first) |}.

(** What [count] adds for a state of a dictionary. *)
Definition counted (d : gmap string Bucket) (state : string) : nat :=
  if bool_decide (state = "finished"%string) then
    match d !! state with
    | Some (ByExitStatus m) => sum_len m
    | _ => 0%nat
    end
  else from_option len 0%nat (d !! state).

(** A computation that ends within the turns its loops are given: it
    returns a value or raises an exception. *)
Definition finishes {X A} (m : M X A) : Prop :=
  forall s, fst (m s) <> OutOfFuel.

(** A list, or nothing when it is empty. *)
Definition nonempty {A} (l : list A) : option (list A) :=
  match l with
  | [] => None
  | _ => Some l
  end.

(** ** Scenarios of the further functions *)

(** The type indicators of impurity workchains. *)
Definition WorkChainNode (process : ProcessNode) : string := "WorkChainNode".

Definition kkr_process_type (process : ProcessNode) : string :=
  "aiida.workflows:kkr.imp".

(** Record 1 has called three processes, two of which have excepted. *)
Definition called_by_1 (process : ProcessNode) : list ProcessNode :=
  if bool_decide (pk process = 1) then
    [kkr_imp_wc 11 "a" EXCEPTED None; kkr_imp_wc 12 "b" FINISHED (Some 0);
     kkr_imp_wc 13 "c" EXCEPTED None]
  else [].

(** Constructors that accept every item, and constructors as those of
    AiiDA 1.x, where [Dict] and [List] take their content by keyword
    only. A node is shown by its class and content. *)
Definition accepting (orm_cls : orm.Data_class) (arg : Argument) (item : PyValue)
    : PyError + (orm.Data_class * PyValue) :=
  inr (orm_cls, item).

Definition by_keyword_only (orm_cls : orm.Data_class) (arg : Argument) (item : PyValue)
    : PyError + (orm.Data_class * PyValue) :=
  match orm_cls, arg with
  | orm.Dict, Keyword _ | orm.List, Keyword _ => inr (orm_cls, item)
  | orm.Dict, Positional | orm.List, Positional => inl (Builtin TypeError)
  | _, Positional => inr (orm_cls, item)
  | _, Keyword _ => inl (Builtin TypeError)
  end.

(** The default settings without the restart of failed processes, and
    settings that poll without a pause. *)
Definition no_restart : SubmissionSupervisorSettings := {|
  dry_run := false;
  max_top_processes_running := 10;
  max_all_processes_running := 100;
  wait_for_submit := 5;
  max_wait_for_submit := 120;
  wait_after_submit := 2;
  resubmit_failed := true;
  resubmit_failed_as_restart := false;
  delete_if_stalling := false;
  delete_if_stalling_dry_run := false;
  max_wait_for_stalling := 240
|}.

Definition zero_wait : SubmissionSupervisorSettings := {|
  dry_run := true;
  max_top_processes_running := 0;
  max_all_processes_running := 100;
  wait_for_submit := 0;
  max_wait_for_submit := 1;
  wait_after_submit := 2;
  resubmit_failed := false;
  resubmit_failed_as_restart := true;
  delete_if_stalling := false;
  delete_if_stalling_dry_run := false;
  max_wait_for_stalling := 240
|}.

(** * Runs and their equations *)

Lemma logged_nil {X} (s : Sys X) : logged [] s = s.
Proof. destruct s; unfold logged; simpl. by rewrite app_nil_r. Qed.

Lemma logged_logged {X} (a b : list Event) (s : Sys X) :
  logged b (logged a s) = logged (a ++ b) s.
Proof. unfold logged; simpl. by rewrite app_assoc. Qed.

Lemma bind_ret_l {X A B} (a : A) (k : A -> M X B) s : bind (ret a) k s = k a s.
Proof. reflexivity. Qed.

Lemma bind_assoc {X A B C} (m : M X A) (k : A -> M X B) (k' : B -> M X C) s :
  bind (bind m k) k' s = bind m (fun a => bind (k a) k') s.
Proof. unfold bind. destruct (m s) as [[a| |] s']; try reflexivity. Qed.

Lemma bind_run {X A B} (m : M X A) (k : A -> M X B) s a s' :
  m s = (Ret a, s') -> bind m k s = k a s'.
Proof. intros H. unfold bind. by rewrite H. Qed.

Lemma bind_raise {X A B} (m : M X A) (k : A -> M X B) s e s' :
  m s = (Raise e, s') -> bind m k s = (Raise e, s').
Proof. intros H. unfold bind. by rewrite H. Qed.

Lemma emit_run {X} (e : Event) (s : Sys X) : emit e s = (Ret tt, logged [e] s).
Proof. reflexivity. Qed.

Lemma bind_get_self {X B} (k : X -> M X B) s : bind get_self k s = k (self s) s.
Proof. reflexivity. Qed.

Lemma bind_get_world {X B} (k : World -> M X B) s : bind get_world k s = k (world s) s.
Proof. reflexivity. Qed.

(** ** Invariants kept whatever the outcome *)

Lemma keeps_ret {X A} (I : Sys X -> Prop) (a : A) : keeps I (ret a).
Proof. by intros s H. Qed.

Lemma keeps_raise {X A} (I : Sys X -> Prop) e : keeps I (@raise X A e).
Proof. by intros s H. Qed.

Lemma keeps_out_of_fuel {X A} (I : Sys X -> Prop) : keeps I (@out_of_fuel X A).
Proof. by intros s H. Qed.

Lemma keeps_bind {X A B} (I : Sys X -> Prop) (m : M X A) (k : A -> M X B) :
  keeps I m -> (forall a, keeps I (k a)) -> keeps I (bind m k).
Proof.
  intros Hm Hk s Hs. unfold bind. specialize (Hm s Hs).
  destruct (m s) as [[a| |] s']; simpl in *; auto. by apply Hk.
Qed.

Lemma keeps_get_self {X B} (I : Sys X -> Prop) (k : X -> M X B) :
  (forall s, I s -> I (snd (k (self s) s))) -> keeps I (bind get_self k).
Proof. intros H s Hs. by apply H. Qed.

Lemma keeps_get_world {X B} (I : Sys X -> Prop) (k : World -> M X B) :
  (forall w, keeps I (k w)) -> keeps I (bind get_world k).
Proof. intros H s Hs. by apply H. Qed.

Lemma keeps_for_each {X A} (I : Sys X -> Prop) (l : list A) (body : A -> M X unit) :
  (forall a, keeps I (body a)) -> keeps I (for_each l body).
Proof.
  intros H. induction l as [|a l IH]; simpl.
  - apply keeps_ret.
  - apply keeps_bind; auto.
Qed.

Lemma keeps_filter_m {X A} (I : Sys X -> Prop) (keep : A -> M X bool) (l : list A) :
  (forall a, keeps I (keep a)) -> keeps I (filter_m keep l).
Proof.
  intros H. induction l as [|a l IH]; simpl.
  - apply keeps_ret.
  - apply keeps_bind; auto. intros b. apply keeps_bind; auto.
    intros r. apply keeps_ret.
Qed.

(** Invariants that hold on in any world whose clock has not gone back,
    and are closed under every event but the deletion of nodes, are kept
    by the operations on the store. *)
Section KeepsStoreOps.
Context {X : Type} (I : Sys X -> Prop).
Hypothesis I_world :
  forall s w, clock (world s) <= clock w ->
    I s -> I {| self := self s; world := w; trace := trace s |}.
Hypothesis I_emit :
  forall s e, is_deletion e = false -> I s -> I (logged [e] s).

Lemma keeps_emit e : is_deletion e = false -> keeps I (emit e).
Proof. intros He s Hs. by apply I_emit. Qed.

Lemma keeps_print m : keeps I (print m).
Proof. by apply keeps_emit. Qed.

Lemma keeps_query_all q : keeps I (query_all q).
Proof.
  apply keeps_bind; [by apply keeps_emit|]. intros _.
  apply keeps_get_world. intros w. apply keeps_ret.
Qed.

Lemma keeps_query_count q : keeps I (query_count q).
Proof.
  apply keeps_bind; [by apply keeps_emit|]. intros _.
  apply keeps_get_world. intros w. apply keeps_ret.
Qed.

Lemma keeps_load_node k : keeps I (load_node k).
Proof.
  apply keeps_get_world. intros w.
  destruct (List.find _ _); [apply keeps_ret | apply keeps_raise].
Qed.

Lemma keeps_add_nodes g ns : keeps I (add_nodes g ns).
Proof.
  intros s Hs. unfold add_nodes. rewrite bind_get_world.
  destruct (groups (store (world s)) !! group_label g); [|done].
  destruct (forallb _ _); [|done].
  rewrite (bind_run _ _ _ _ _ (emit_run _ _)). simpl.
  apply (I_world (logged _ s)); [simpl; lia|]. by apply I_emit.
Qed.

Lemma keeps_aiida_submit b : keeps I (aiida_submit b).
Proof.
  intros s Hs. unfold aiida_submit. rewrite bind_get_world.
  rewrite (bind_run _ _ _ _ _ (emit_run _ _)). simpl.
  apply (I_world (logged _ s)); [simpl; lia|]. by apply I_emit.
Qed.

Lemma keeps_sleep daemon d : keeps I (sleep daemon d).
Proof.
  intros s Hs. unfold sleep. destruct (d <? 0) eqn:Hd; [done|].
  rewrite (bind_run _ _ _ _ _ (emit_run _ _)), bind_get_world. simpl.
  apply (I_world (logged _ s)); [simpl; lia|]. by apply I_emit.
Qed.

Lemma keeps_num_running l g : keeps I (num_running l g).
Proof. unfold num_running. destruct (g =? 0); apply keeps_query_count. Qed.

Lemma keeps_collect_workchains l pl gs acc :
  keeps I (collect_workchains l pl gs acc).
Proof.
  revert acc. induction gs as [|g gs IH]; intros acc; simpl.
  - apply keeps_ret.
  - apply keeps_bind; [apply keeps_query_all|]. intros found. apply IH.
Qed.

Lemma keeps_find_workchains b g : keeps I (find_workchains b g).
Proof.
  unfold find_workchains. destruct (bool_decide _); [apply keeps_raise|].
  apply keeps_bind.
  { destruct g; [apply keeps_raise | apply keeps_ret | apply keeps_ret]. }
  intros gs. apply keeps_bind; [apply keeps_collect_workchains|]. intros wcs.
  apply keeps_bind; [|intros _; apply keeps_ret].
  destruct (_ <? _)%nat; [apply keeps_print | apply keeps_ret].
Qed.

Lemma keeps_stage_builder s b wts : keeps I (stage_builder s b wts).
Proof.
  unfold stage_builder.
  destruct (resubmit_failed s); [destruct (resubmit_failed_as_restart s)|].
  - destruct wts; [apply keeps_raise|].
    apply keeps_bind; [apply keeps_print|]. intros _. apply keeps_ret.
  - apply keeps_bind; [apply keeps_print|]. intros _. apply keeps_ret.
  - apply keeps_bind; [apply keeps_print|]. intros _. apply keeps_ret.
Qed.

End KeepsStoreOps.

Lemma guard_run st :
  __tmp_guard_against_delete_if_stalling st = (Ret tt, guarded st).
Proof.
  unfold __tmp_guard_against_delete_if_stalling, guarded, bind, get_self.
  by destruct (delete_if_stalling (settings (self st))).
Qed.

Lemma guarded_delete_if_stalling st :
  delete_if_stalling (settings (self (guarded st))) = false.
Proof.
  unfold guarded.
  by destruct (delete_if_stalling (settings (self st))) eqn:E.
Qed.

Lemma blocking_submit_unfold daemon fuel builder groups st :
  blocking_submit daemon fuel builder groups st =
  bind (find_workchains builder groups)
    (fun found =>
       bind get_self (fun me =>
         load_or_submit daemon fuel (settings me) builder (fst found) (snd found)))
    (guarded st).
Proof. unfold blocking_submit. by rewrite (bind_run _ _ _ _ _ (guard_run st)). Qed.

Lemma append_submitted_run n st : append_submitted n st = (Ret tt, appended n st).
Proof. reflexivity. Qed.

(** Invariants of the supervisor that are also closed under appending to
    the tracked list are kept by [blocking_submit] as soon as the stalling
    sweep keeps them. *)
Section KeepsSupervisor.
Variable daemon : Z -> Z -> Store -> Store.
Variable I : Sys SubmissionSupervisor -> Prop.
Hypothesis I_world :
  forall s w, clock (world s) <= clock w ->
    I s -> I {| self := self s; world := w; trace := trace s |}.
Hypothesis I_emit :
  forall s e, is_deletion e = false -> I s -> I (logged [e] s).
Hypothesis I_append : forall st n, I st -> I (appended n st).

Lemma keeps_append_submitted n : keeps I (append_submitted n).
Proof. intros st Hst. rewrite append_submitted_run. by apply I_append. Qed.

Lemma keeps_check_quota : keeps I check_quota.
Proof.
  apply keeps_get_self. intros st Hst.
  destruct (quotaq (self st)) as [q|]; [|done].
  revert st Hst. apply keeps_bind; [by apply keeps_emit|]. intros _.
  apply keeps_get_world. intros w.
  destruct (negb _); [apply keeps_raise | apply keeps_ret].
Qed.

Lemma keeps_queue_too_full s l : keeps I (queue_too_full s l).
Proof.
  apply keeps_bind; [by apply keeps_num_running|]. intros n.
  destruct (_ <? _); [apply keeps_ret|].
  apply keeps_bind; [by apply keeps_num_running|]. intros m. apply keeps_ret.
Qed.

Lemma keeps_try_submit s l pl b gs w spm :
  keeps I (try_submit daemon s l pl b gs w spm).
Proof.
  unfold try_submit.
  apply keeps_bind; [by apply keeps_num_running|]. intros n.
  apply keeps_bind; [by apply keeps_num_running|]. intros m.
  apply keeps_bind; [by apply keeps_print|]. intros _.
  destruct (negb _).
  - apply keeps_bind; [by apply keeps_aiida_submit|]. intros p.
    apply keeps_bind; [apply keeps_append_submitted|]. intros _.
    apply keeps_bind.
    { apply keeps_for_each. intros g. by apply keeps_add_nodes. }
    intros _. apply keeps_bind; [by apply keeps_print|]. intros _.
    apply keeps_bind; [by apply keeps_sleep|]. intros _. apply keeps_ret.
  - apply keeps_bind; [by apply keeps_print|]. intros _. apply keeps_ret.
Qed.

Section Sweep.
Variable s : SubmissionSupervisorSettings.
Hypothesis I_sweep : keeps I (sweep_stalling s).

Lemma keeps_waiting_line fuel l pl b gs spm w :
  keeps I (waiting_line daemon fuel s l pl b gs spm w).
Proof.
  revert w. induction fuel as [|fuel IH]; intros w; simpl.
  - apply keeps_out_of_fuel.
  - destruct (_ <=? _); [|apply keeps_ret].
    apply keeps_bind; [apply I_sweep|]. intros _.
    apply keeps_bind; [apply keeps_queue_too_full|]. intros [|].
    + apply keeps_bind; [by apply keeps_sleep|]. intros _. apply IH.
    + apply keeps_bind; [apply keeps_try_submit|]. intros p. apply keeps_ret.
Qed.

Lemma keeps_submit_branch fuel b gs wts :
  keeps I (submit_branch daemon fuel s b gs wts).
Proof.
  unfold submit_branch.
  apply keeps_bind; [by apply keeps_stage_builder|]. intros b'.
  apply keeps_bind; [apply keeps_check_quota|]. intros _.
  apply keeps_bind; [apply keeps_waiting_line|]. intros [[[|] p] w].
  - apply keeps_ret.
  - apply keeps_bind; [by apply keeps_print|]. intros _. apply keeps_ret.
Qed.

Lemma keeps_load_or_submit fuel b gs wcs :
  keeps I (load_or_submit daemon fuel s b gs wcs).
Proof.
  unfold load_or_submit.
  destruct (List.filter is_finished_ok wcs) as [|wc ?].
  2:{ apply keeps_bind; [by apply keeps_load_node|]. intros p.
      apply keeps_bind; [by apply keeps_print|]. intros _. apply keeps_ret. }
  assert (Hload : forall wc : ProcessNode,
    keeps I (bind (load_node (pk wc)) (fun next_process =>
      bind (append_submitted next_process) (fun _ =>
        bind (print (IsNotTerminated (metadata_label b))) (fun _ =>
          ret (Some next_process, Some false)))))).
  { intros wc. apply keeps_bind; [by apply keeps_load_node|]. intros p.
    apply keeps_bind; [apply keeps_append_submitted|]. intros _.
    apply keeps_bind; [by apply keeps_print|]. intros _. apply keeps_ret. }
  assert (Hterm : forall wc : ProcessNode,
    keeps I (bind (load_node (pk wc)) (fun next_process =>
      bind (print (LoadedTerminated (metadata_label b) (process_state next_process)
                     (exit_status next_process) (resubmit_failed s))) (fun _ =>
        ret (Some next_process, Some true))))).
  { intros wc. apply keeps_bind; [by apply keeps_load_node|]. intros p.
    apply keeps_bind; [by apply keeps_print|]. intros _. apply keeps_ret. }
  destruct (List.filter is_terminated wcs) as [|wt ?];
    destruct (resubmit_failed s);
    destruct (List.filter (fun proc => negb (is_terminated proc)) wcs) as [|wn ?];
    first [apply Hload | apply Hterm | apply keeps_submit_branch].
Qed.
End Sweep.

(** From a state [I0] that the guard turns into [I]. *)
Lemma blocking_submit_keeps (I0 : Sys SubmissionSupervisor -> Prop) fuel b g :
  (forall st, I0 st -> I (guarded st)) ->
  (forall st, I st -> keeps I (sweep_stalling (settings (self st)))) ->
  forall st, I0 st -> I (snd (blocking_submit daemon fuel b g st)).
Proof.
  intros Hguard Hsweep st Hst. rewrite blocking_submit_unfold.
  apply Hguard in Hst. revert Hst. generalize (guarded st). clear st.
  apply keeps_bind; [by apply keeps_find_workchains|]. intros found.
  apply keeps_get_self. intros st Hst.
  apply keeps_load_or_submit; [by apply Hsweep | done].
Qed.

End KeepsSupervisor.

(** ** The guard against [delete_if_stalling] *)

Lemma set_submitted_run l st : set_submitted l st = (Ret tt, tracking l st).
Proof. reflexivity. Qed.

(** With [delete_if_stalling] off, the sweep deletes nothing and leaves
    the world alone: it keeps every invariant that does not read the
    tracked list and is closed under the events that are not deletions. *)
Section SweepSimulated.
Variable I : Sys SubmissionSupervisor -> Prop.
Hypothesis I_print : forall s m, I s -> I (logged [EPrint m] s).
Hypothesis I_tracking : forall st l, I st -> I (tracking l st).

Lemma keeps_stalling_simulated s wc :
  delete_if_stalling_dry_run s = true -> keeps I (stalling s wc).
Proof.
  intros Hdry. unfold stalling. apply keeps_get_world. intros w.
  apply keeps_bind; [|intros _; apply keeps_ret].
  destruct (exceeds_stalling_time _ _ _); [|apply keeps_ret].
  apply keeps_bind; [intros st Hst; by apply I_print|]. intros _.
  rewrite Hdry. apply keeps_ret.
Qed.

Lemma keeps_sweep_simulated s :
  delete_if_stalling s = false -> keeps I (sweep_stalling s).
Proof.
  intros Hdel. unfold sweep_stalling. rewrite Hdel. simpl.
  destruct (delete_if_stalling_dry_run s) eqn:Hdry; [|apply keeps_ret].
  apply keeps_get_self. intros st Hst. simpl.
  generalize (_submitted_top_processes (self st)). intros l.
  revert st Hst. apply keeps_bind.
  - apply keeps_filter_m. intros wc.
    apply keeps_bind; [by apply keeps_stalling_simulated|]. intros b. apply keeps_ret.
  - intros kept st Hst. rewrite set_submitted_run. by apply I_tracking.
Qed.
End SweepSimulated.

Lemma settled_emit x tr0 st e :
  is_deletion e = false -> settled x tr0 st -> settled x tr0 (logged [e] st).
Proof.
  intros He [Hx (new & Htr & Hnew)]. split; [done|].
  exists (new ++ [e]). simpl. rewrite Htr, app_assoc. split; [done|].
  apply Forall_app. split; [done|]. by constructor.
Qed.

Lemma settled_world x tr0 st w :
  clock (world st) <= clock w ->
  settled x tr0 st -> settled x tr0 {| self := self st; world := w; trace := trace st |}.
Proof. intros _ H. exact H. Qed.

Lemma settled_print x tr0 st m :
  settled x tr0 st -> settled x tr0 (logged [EPrint m] st).
Proof. by apply settled_emit. Qed.

Lemma settled_tracking x tr0 st l : settled x tr0 st -> settled x tr0 (tracking l st).
Proof. intros H. exact H. Qed.

Lemma settled_appended x tr0 st n : settled x tr0 st -> settled x tr0 (appended n st).
Proof. intros H. exact H. Qed.

Lemma blocking_submit_settled daemon fuel b g st :
  settled (settings (self (guarded st))) (trace (guarded st))
    (snd (blocking_submit daemon fuel b g st)).
Proof.
  apply (blocking_submit_keeps daemon
           (settled (settings (self (guarded st))) (trace (guarded st)))
           (settled_world _ _) (settled_emit _ _) (settled_appended _ _)
           (fun st' => st' = st)); [| |reflexivity].
  - intros ? ->. split; [done|]. exists []. by rewrite app_nil_r.
  - intros st' Hst'.
    apply (keeps_sweep_simulated _ (settled_print _ _) (settled_tracking _ _)).
    destruct Hst' as [-> _]. apply guarded_delete_if_stalling.
Qed.

Lemma guarded_trace st :
  trace (guarded st) =
  trace st ++ (if delete_if_stalling (settings (self st))
               then [EPrint WarnDeleteIfStallingUnsupported] else []).
Proof.
  unfold guarded. destruct (delete_if_stalling (settings (self st))); simpl;
    [done | by rewrite app_nil_r].
Qed.

(** C3. Settings constructed with [delete_if_stalling=True] hold
    [delete_if_stalling=False] and [delete_if_stalling_dry_run=True] once a
    supervisor is constructed from them, and the warning of the downgrade
    is printed. Every [blocking_submit], from any state, leaves such
    settings as they are, downgrades with the same warning settings in
    which the flag was switched on again, and adds no deletion of nodes to
    the trace: the destructive stalling deletion never runs. *)
Theorem delete_if_stalling_guard daemon (s0 : SubmissionSupervisorSettings)
    (q : option QuotaQuerier) (sys0 : Sys unit) :
  delete_if_stalling s0 = true ->
  exists sup,
    SubmissionSupervisor_init s0 q sys0
      = (Ret sup, logged [EPrint WarnDeleteIfStallingUnsupported] sys0) /\
    settings sup = downgraded s0 /\
    delete_if_stalling (settings sup) = false /\
    delete_if_stalling_dry_run (settings sup) = true /\
    forall fuel builder groups (st : Sys SubmissionSupervisor),
      let st' := snd (blocking_submit daemon fuel builder groups st) in
      (settings (self st) = settings sup -> settings (self st') = settings sup) /\
      (delete_if_stalling (settings (self st)) = true ->
         settings (self st') = downgraded (settings (self st)) /\
         EPrint WarnDeleteIfStallingUnsupported ∈ trace st') /\
      delete_if_stalling (settings (self st')) = false /\
      (forall pks, EDeleteNodes pks ∈ trace st' -> EDeleteNodes pks ∈ trace st).
Proof.
  intros Hon.
  exists {| settings := downgraded s0; quotaq := q; _submitted_top_processes := [] |}.
  split.
  { destruct sys0 as [[] w0 tr0]. unfold SubmissionSupervisor_init, construct.
    rewrite (bind_run _ _ _ _ _ (guard_run _)). unfold guarded. simpl.
    rewrite Hon. reflexivity. }
  split; [reflexivity|]. split; [reflexivity|]. split; [reflexivity|].
  intros fuel builder groups st st'.
  destruct (blocking_submit_settled daemon fuel builder groups st)
    as [Hset (new & Htr & Hnew)].
  fold st' in Hset, Htr.
  split; [|split; [|split]].
  - intros Hst. rewrite Hset. unfold guarded. rewrite Hst. simpl. by rewrite Hst.
  - intros Hst. rewrite Hset, Htr, guarded_trace. unfold guarded. rewrite Hst.
    split; [done|]. rewrite !elem_of_app, list_elem_of_singleton. auto.
  - rewrite Hset. apply guarded_delete_if_stalling.
  - intros pks. rewrite Htr, guarded_trace, !elem_of_app.
    intros [[Hin|Hin]|Hin]; [done| |].
    + destruct (delete_if_stalling (settings (self st)));
        [apply list_elem_of_singleton in Hin; discriminate | by apply elem_of_nil in Hin].
    + rewrite Forall_forall in Hnew. apply Hnew in Hin. discriminate.
Qed.

(** ** What the head of [blocking_submit] finds *)

Lemma query_all_run {X} q (st : Sys X) :
  query_all q st = (Ret (q (store (world st))), logged [EQueryAll] st).
Proof. reflexivity. Qed.

Lemma query_count_run {X} q (st : Sys X) :
  query_count q st
  = (Ret (Z.of_nat (length (q (store (world st))))), logged [EQueryCount] st).
Proof. reflexivity. Qed.

Lemma print_run {X} m (st : Sys X) : print m st = (Ret tt, logged [EPrint m] st).
Proof. reflexivity. Qed.

Lemma collect_workchains_run {X} l pl gs acc (st : Sys X) :
  collect_workchains l pl gs acc st
  = (Ret (acc ++ flat_map
            (fun g => query_processes (Some l) (Some pl) None None false (Some g)
                        (store (world st))) gs),
     logged (repeat EQueryAll (length gs)) st).
Proof.
  revert acc st. induction gs as [|g gs IH]; intros acc st; simpl.
  - by rewrite app_nil_r, logged_nil.
  - rewrite (bind_run _ _ _ _ _ (query_all_run _ st)), IH. simpl.
    by rewrite logged_logged, app_assoc.
Qed.

Lemma find_workchains_run {X} builder groups gs (st : Sys X) :
  metadata_label builder <> "" ->
  groups_list groups = Some gs ->
  find_workchains builder groups st
  = (Ret (gs, found builder gs (store (world st))),
     logged (found_events builder gs (store (world st))) st).
Proof.
  intros Hl Hg. unfold find_workchains.
  rewrite bool_decide_eq_false_2 by done.
  assert (Hgs : (match groups with
                 | GroupsNone => raise TypeError
                 | GroupsOne g => ret [g]
                 | GroupsList gs0 => ret gs0
                 end : M X (list Group)) st = (Ret gs, st)).
  { destruct groups; simpl in Hg; by inversion Hg. }
  rewrite (bind_run _ _ _ _ _ Hgs).
  rewrite (bind_run _ _ _ _ _ (collect_workchains_run _ _ _ _ _)). simpl.
  fold (matches builder gs (store (world st))).
  fold (found builder gs (store (world st))).
  unfold found_events.
  destruct (1 <? length (found builder gs (store (world st))))%nat.
  - rewrite (bind_run _ _ _ _ _ (print_run _ _)). unfold ret.
    by rewrite logged_logged.
  - rewrite bind_ret_l. unfold ret. by rewrite app_nil_r.
Qed.

Lemma find_workchains_no_groups {X} builder (st : Sys X) :
  metadata_label builder <> "" ->
  find_workchains builder GroupsNone st = (Raise TypeError, st).
Proof.
  intros Hl. unfold find_workchains. by rewrite bool_decide_eq_false_2 by done.
Qed.

Lemma guarded_world st : world (guarded st) = world st.
Proof. unfold guarded. by destruct (delete_if_stalling _). Qed.

Lemma guarded_submitted st :
  _submitted_top_processes (self (guarded st)) = _submitted_top_processes (self st).
Proof. unfold guarded. by destruct (delete_if_stalling _). Qed.

Lemma guarded_quotaq st : quotaq (self (guarded st)) = quotaq (self st).
Proof. unfold guarded. by destruct (delete_if_stalling _). Qed.

(** C10. With [groups] omitted or [None] and the builder's label set, the
    call raises [TypeError] when it iterates over the groups: the guard has
    run, and nothing else has; the world and the tracked list are as they
    were, and the trace holds at most the guard's warning more: no query,
    no classification, no submission. *)
Theorem blocking_submit_groups_None daemon fuel (builder : ProcessBuilder)
    (st : Sys SubmissionSupervisor) :
  metadata_label builder <> "" ->
  blocking_submit daemon fuel builder GroupsNone st = (Raise TypeError, guarded st) /\
  world (guarded st) = world st /\
  _submitted_top_processes (self (guarded st)) = _submitted_top_processes (self st) /\
  forall e, e ∈ trace (guarded st) ->
    e ∈ trace st \/ e = EPrint WarnDeleteIfStallingUnsupported.
Proof.
  intros Hl. split.
  - rewrite blocking_submit_unfold.
    by rewrite (bind_raise _ _ _ _ _ (find_workchains_no_groups builder _ Hl)).
  - split; [apply guarded_world|]. split; [apply guarded_submitted|].
    intros e. rewrite guarded_trace, elem_of_app.
    destruct (delete_if_stalling _); intros [H|H]; auto.
    + apply list_elem_of_singleton in H. auto.
    + by apply elem_of_nil in H.
Qed.

(** ** Matches, duplicates and loading *)

Lemma label_filter_set l n :
  l <> "" -> label_filter (Some l) n = bool_decide (label n = l).
Proof. intros Hl. by destruct l. Qed.

Lemma elem_of_query_label l pl g st n :
  l <> "" ->
  n ∈ query_processes (Some l) (Some pl) None None false (Some g) st <->
  n ∈ nodes st /\ label n = l /\ process_label n = pl
  /\ group_filter (Some g) st n = true.
Proof.
  intros Hl. unfold query_processes. rewrite !list_elem_of_In, filter_In.
  rewrite label_filter_set by done. unfold state_filter, process_label_filter.
  simpl. rewrite !andb_true_iff, !bool_decide_eq_true. tauto.
Qed.

Lemma elem_of_matches builder gs st n :
  metadata_label builder <> "" ->
  n ∈ matches builder gs st <->
  n ∈ nodes st /\ label n = metadata_label builder
  /\ process_label n = _process_class builder
  /\ exists g, g ∈ gs /\ group_filter (Some g) st n = true.
Proof.
  intros Hl. unfold matches. rewrite list_elem_of_In, in_flat_map. split.
  - intros (g & Hg & Hn). apply list_elem_of_In, elem_of_query_label in Hn; [|done].
    destruct Hn as (? & ? & ? & ?). repeat split; try done.
    exists g. split; [by apply list_elem_of_In | done].
  - intros (Hn & Hlab & Hpl & g & Hg & Hgf). exists g.
    split; [by apply list_elem_of_In|].
    apply list_elem_of_In, elem_of_query_label; auto.
Qed.

Lemma remove_duplicates_subset seen l n :
  n ∈ remove_duplicates seen l -> n ∈ l.
Proof.
  revert seen. induction l as [|x l IH]; intros seen; simpl; [done|].
  destruct (bool_decide _).
  - intros H. apply elem_of_cons. right. by eapply IH.
  - rewrite !elem_of_cons. intros [->|H]; [by left | right; by eapply IH].
Qed.

(** A record whose uuid no other record of the list bears survives. *)
Lemma remove_duplicates_keeps seen l n :
  (forall m, m ∈ l -> uuid m = uuid n -> m = n) ->
  n ∈ l -> uuid n ∉ seen -> n ∈ remove_duplicates seen l.
Proof.
  revert seen. induction l as [|x l IH]; intros seen Huniq Hin Hseen; simpl.
  - by apply elem_of_nil in Hin.
  - apply elem_of_cons in Hin.
    destruct (decide (uuid x = uuid n)) as [Hx|Hx].
    + assert (x = n) as -> by (apply Huniq; [apply elem_of_cons; by left | done]).
      rewrite bool_decide_eq_false_2 by done. apply elem_of_cons. by left.
    + destruct Hin as [->|Hin]; [done|].
      assert (Hrec : forall seen', uuid n ∉ seen' -> n ∈ remove_duplicates seen' l).
      { intros seen' Hs. apply IH; [|done|done].
        intros m Hm. apply Huniq. apply elem_of_cons. by right. }
      destruct (bool_decide _); [by apply Hrec|].
      apply elem_of_cons. right. apply Hrec. rewrite elem_of_app, list_elem_of_singleton.
      intros [?|?]; [done | by apply Hx].
Qed.

Lemma NoDup_fmap_eq {A B} (f : A -> B) (l : list A) x y :
  NoDup (f <$> l) -> x ∈ l -> y ∈ l -> f x = f y -> x = y.
Proof.
  induction l as [|a l IH]; simpl; intros Hnd Hx Hy Hf.
  - by apply elem_of_nil in Hx.
  - apply NoDup_cons in Hnd as [Ha Hnd].
    apply elem_of_cons in Hx as [->|Hx]; apply elem_of_cons in Hy as [->|Hy].
    + done.
    + exfalso. apply Ha. rewrite Hf. by apply list_elem_of_fmap_2.
    + exfalso. apply Ha. rewrite <- Hf. by apply list_elem_of_fmap_2.
    + by apply IH.
Qed.

Lemma elem_of_found builder gs st n :
  store_wf st -> metadata_label builder <> "" ->
  n ∈ found builder gs st <-> n ∈ matches builder gs st.
Proof.
  intros [_ Huuid] Hl. split; [apply remove_duplicates_subset|].
  intros Hn. apply remove_duplicates_keeps; [|done|by apply not_elem_of_nil].
  intros m Hm Hu.
  apply elem_of_matches in Hm as [Hm _]; [|done].
  apply elem_of_matches in Hn as [Hn _]; [|done].
  by apply (NoDup_fmap_eq uuid (nodes st)).
Qed.

Lemma find_pk ns n :
  NoDup (pk <$> ns) -> n ∈ ns ->
  List.find (fun m => bool_decide (pk m = pk n)) ns = Some n.
Proof.
  induction ns as [|a ns IH]; simpl; intros Hnd Hn.
  - by apply elem_of_nil in Hn.
  - apply NoDup_cons in Hnd as [Ha Hnd].
    apply elem_of_cons in Hn as [->|Hn].
    + by rewrite bool_decide_eq_true_2.
    + rewrite bool_decide_eq_false_2; [by apply IH|].
      intros Heq. apply Ha. rewrite Heq. by apply list_elem_of_fmap_2.
Qed.

Lemma load_node_run {X} (st : Sys X) n :
  store_wf (store (world st)) -> n ∈ nodes (store (world st)) ->
  load_node (pk n) st = (Ret n, st).
Proof.
  intros [Hpk _] Hn. unfold load_node, bind, get_world.
  by rewrite (find_pk _ _ Hpk Hn).
Qed.

Lemma found_events_quiet builder gs st :
  Forall reads_or_prints (found_events builder gs st).
Proof.
  unfold found_events. apply Forall_app. split.
  - induction (length gs) as [|k IH]; simpl; [constructor|].
    constructor; [|exact IH]. by left.
  - destruct (_ <? _)%nat; [|constructor].
    constructor; [|constructor]. right. eauto.
Qed.

(** C2. When a record of the given groups matches the builder's label and
    process class and is finished_ok, the call returns a record that does so
    (the first such match), with [from_db=True]. The store is as it was, so
    no record is created; the tracked list is unchanged; and the call has
    only queried the groups and printed: no waiting line, no count of the
    running processes, no sleep, no submission. *)
Theorem blocking_submit_finished_ok daemon fuel (builder : ProcessBuilder)
    (groups : GroupsArg) (gs : list Group) (st : Sys SubmissionSupervisor)
    (n : ProcessNode) (g : Group) :
  store_wf (store (world st)) ->
  metadata_label builder <> "" ->
  groups_list groups = Some gs ->
  n ∈ nodes (store (world st)) ->
  g ∈ gs -> group_filter (Some g) (store (world st)) n = true ->
  label n = metadata_label builder ->
  process_label n = _process_class builder ->
  is_finished_ok n = true ->
  exists r st',
    blocking_submit daemon fuel builder groups st = (Ret (Some r, Some true), st') /\
    (r ∈ nodes (store (world st)) /\ label r = metadata_label builder
     /\ process_label r = _process_class builder /\ is_finished_ok r = true
     /\ exists g', g' ∈ gs /\ group_filter (Some g') (store (world st)) r = true) /\
    world st' = world st /\
    _submitted_top_processes (self st') = _submitted_top_processes (self st) /\
    exists new, trace st' = trace st ++ new /\ Forall reads_or_prints new.
Proof.
  intros Hwf Hl Hg Hn Hgs Hgf Hlab Hpl Hok.
  rewrite blocking_submit_unfold.
  rewrite (bind_run _ _ _ _ _ (find_workchains_run builder groups gs _ Hl Hg)).
  rewrite guarded_world. simpl.
  set (wcs := found builder gs (store (world st))).
  assert (Hin : n ∈ List.filter is_finished_ok wcs).
  { apply list_elem_of_In, filter_In. split; [|done].
    apply list_elem_of_In, elem_of_found; [done..|].
    apply elem_of_matches; [done|]. eauto 10. }
  unfold load_or_submit.
  destruct (List.filter is_finished_ok wcs) as [|r rest] eqn:Hf.
  { by apply elem_of_nil in Hin. }
  assert (Hr : r ∈ List.filter is_finished_ok wcs)
    by (rewrite Hf; apply elem_of_cons; by left).
  apply list_elem_of_In, filter_In in Hr as [Hr Hrok].
  apply list_elem_of_In, elem_of_found, elem_of_matches in Hr; [|done..].
  destruct Hr as (Hrn & Hrl & Hrp & Hrg).
  set (st1 := logged (found_events builder gs (store (world st))) (guarded st)).
  assert (Hload : load_node (pk r) st1 = (Ret r, st1)).
  { apply load_node_run; unfold st1; simpl; by rewrite guarded_world. }
  rewrite bind_get_self, (bind_run _ _ _ _ _ Hload).
  rewrite (bind_run _ _ _ _ _ (print_run _ _)).
  eexists r, _. split; [reflexivity|]. split; [done|].
  split; [simpl; apply guarded_world|]. split; [simpl; apply guarded_submitted|].
  simpl. rewrite guarded_trace, <- !app_assoc. eexists. split; [reflexivity|].
  apply Forall_app. split.
  { destruct (delete_if_stalling _); [|constructor].
    constructor; [|constructor]. right. eauto. }
  apply Forall_app. split; [apply found_events_quiet|].
  constructor; [|constructor]. right. eauto.
Qed.

(** ** The submit branch: staging and quota *)

Lemma guarded_resubmit_failed st :
  resubmit_failed (settings (self (guarded st))) = resubmit_failed (settings (self st)).
Proof. unfold guarded. by destruct (delete_if_stalling _). Qed.

Lemma guarded_resubmit_failed_as_restart st :
  resubmit_failed_as_restart (settings (self (guarded st)))
  = resubmit_failed_as_restart (settings (self st)).
Proof. unfold guarded. by destruct (delete_if_stalling _). Qed.

(** The decision falls on the submit branch when no match is finished_ok,
    none is still in the queue, and the terminated ones, if any, are to be
    resubmitted. *)
Lemma load_or_submit_submits daemon fuel s builder gs wcs :
  List.filter is_finished_ok wcs = [] ->
  List.filter (fun proc => negb (is_terminated proc)) wcs = [] ->
  List.filter is_terminated wcs = [] \/ resubmit_failed s = true ->
  load_or_submit daemon fuel s builder gs wcs
  = submit_branch daemon fuel s builder gs (List.filter is_terminated wcs).
Proof.
  intros Hok Hnt Hres. unfold load_or_submit. rewrite Hok, Hnt.
  destruct Hres as [->| ->]; [by destruct (resubmit_failed s)|].
  by destruct (List.filter is_terminated wcs).
Qed.

(** C1 (the code fails the claim). With no match at all and both
    [resubmit_failed] and [resubmit_failed_as_restart] set, as they are by
    default, the staging takes the first element of the empty list of
    terminated matches: the call raises [IndexError] after its queries of
    the groups, and neither waits nor submits. *)
Theorem blocking_submit_no_match_restart_IndexError daemon fuel
    (builder : ProcessBuilder) (groups : GroupsArg) (gs : list Group)
    (st : Sys SubmissionSupervisor) :
  metadata_label builder <> "" ->
  groups_list groups = Some gs ->
  matches builder gs (store (world st)) = [] ->
  resubmit_failed (settings (self st)) = true ->
  resubmit_failed_as_restart (settings (self st)) = true ->
  blocking_submit daemon fuel builder groups st
  = (Raise IndexError, logged (repeat EQueryAll (length gs)) (guarded st)).
Proof.
  intros Hl Hg Hm Hre Hrs.
  rewrite blocking_submit_unfold.
  rewrite (bind_run _ _ _ _ _ (find_workchains_run builder groups gs _ Hl Hg)).
  rewrite guarded_world, bind_get_self.
  unfold found_events, found. rewrite Hm. simpl. rewrite app_nil_r.
  unfold load_or_submit, submit_branch, stage_builder. simpl.
  by rewrite guarded_resubmit_failed, guarded_resubmit_failed_as_restart, Hre, Hrs.
Qed.

(** C7. When the call comes to the quota check of the submit branch (no
    match is finished_ok or still in the queue, terminated matches are to
    be resubmitted, and the request is staged), a quota querier is
    configured and [is_min_free_space_left()] answers false, the call
    raises [IOError] there: the store and the tracked list are as they
    were, and the trace has grown by the queries of the groups, messages
    and the quota check only, so no count of the running processes, no
    sleep and no submission took place. *)
Theorem blocking_submit_quota_abort daemon fuel (builder : ProcessBuilder)
    (groups : GroupsArg) (gs : list Group) (st : Sys SubmissionSupervisor)
    (q : QuotaQuerier) :
  metadata_label builder <> "" ->
  groups_list groups = Some gs ->
  List.filter is_finished_ok (found builder gs (store (world st))) = [] ->
  List.filter (fun proc => negb (is_terminated proc))
    (found builder gs (store (world st))) = [] ->
  (List.filter is_terminated (found builder gs (store (world st))) = []
   \/ resubmit_failed (settings (self st)) = true) ->
  (List.filter is_terminated (found builder gs (store (world st))) = [] ->
   resubmit_failed (settings (self st))
   && resubmit_failed_as_restart (settings (self st)) = false) ->
  quotaq (self st) = Some q ->
  is_min_free_space_left q (world st) = false ->
  exists st',
    blocking_submit daemon fuel builder groups st = (Raise IOError, st') /\
    world st' = world st /\
    _submitted_top_processes (self st') = _submitted_top_processes (self st) /\
    exists new, trace st' = trace st ++ new
                /\ Forall reads_prints_or_checks_quota new.
Proof.
  intros Hl Hg Hok Hnt Hres Hstage Hq Hfree.
  rewrite blocking_submit_unfold.
  rewrite (bind_run _ _ _ _ _ (find_workchains_run builder groups gs _ Hl Hg)).
  rewrite guarded_world, bind_get_self. simpl.
  rewrite load_or_submit_submits;
    [|done|done|by rewrite guarded_resubmit_failed].
  set (st1 := logged (found_events builder gs (store (world st))) (guarded st)).
  set (wts := List.filter is_terminated (found builder gs (store (world st)))) in *.
  assert (Hstaged : exists b' m,
    stage_builder (settings (self (guarded st))) builder wts st1
    = (Ret b', logged [EPrint m] st1)).
  { unfold stage_builder.
    rewrite guarded_resubmit_failed, guarded_resubmit_failed_as_restart.
    destruct (resubmit_failed (settings (self st))) eqn:Hre;
      [destruct (resubmit_failed_as_restart (settings (self st))) eqn:Hrs|].
    - destruct wts as [|wt wts']; [by specialize (Hstage eq_refl)|].
      rewrite (bind_run _ _ _ _ _ (print_run _ _)). eauto.
    - rewrite (bind_run _ _ _ _ _ (print_run _ _)). eauto.
    - rewrite (bind_run _ _ _ _ _ (print_run _ _)). eauto. }
  destruct Hstaged as (b' & m & Hstaged).
  unfold submit_branch. rewrite (bind_run _ _ _ _ _ Hstaged).
  assert (Hquota : check_quota (logged [EPrint m] st1)
                   = (Raise IOError, logged [EQuotaCheck] (logged [EPrint m] st1))).
  { unfold check_quota. rewrite bind_get_self. simpl. rewrite guarded_quotaq, Hq.
    rewrite (bind_run _ _ _ _ _ (emit_run _ _)), bind_get_world. simpl.
    by rewrite guarded_world, Hfree. }
  rewrite (bind_raise _ _ _ _ _ Hquota).
  eexists. split; [reflexivity|].
  split; [simpl; apply guarded_world|]. split; [simpl; apply guarded_submitted|].
  simpl. rewrite guarded_trace, <- !app_assoc. eexists. split; [reflexivity|].
  apply Forall_app. split.
  { destruct (delete_if_stalling _); [|constructor].
    constructor; [|constructor]. left. right. eauto. }
  apply Forall_app. split.
  { eapply Forall_impl; [apply found_events_quiet|]. intros e He. by left. }
  constructor; [left; right; eauto|].
  constructor; [by right | constructor].
Qed.

(** ** The stalling sweep and the tracked list *)

Lemma stalling_run s wc st :
  delete_if_stalling_dry_run s = true ->
  stalling s wc st
  = (Ret (exceeds_stalling_time s (clock (world st)) wc),
     logged (stalling_messages s (clock (world st)) [wc]) st).
Proof.
  intros Hdry. unfold stalling, stalling_messages. rewrite bind_get_world.
  cbn [flat_map]. destruct (exceeds_stalling_time s (clock (world st)) wc).
  - rewrite bind_assoc, (bind_run _ _ _ _ _ (print_run _ _)), Hdry. reflexivity.
  - rewrite bind_ret_l. unfold ret. by rewrite logged_nil.
Qed.

Lemma filter_stalling_run s l st :
  delete_if_stalling_dry_run s = true ->
  filter_m (fun wc => let* b := stalling s wc in ret (negb b)) l st
  = (Ret (List.filter (fun wc => negb (exceeds_stalling_time s (clock (world st)) wc)) l),
     logged (stalling_messages s (clock (world st)) l) st).
Proof.
  intros Hdry. revert st. induction l as [|wc l IH]; intros st; simpl.
  - unfold ret. by rewrite logged_nil.
  - rewrite bind_assoc, (bind_run _ _ _ _ _ (stalling_run s wc st Hdry)), bind_ret_l.
    rewrite (bind_run _ _ _ _ _ (IH _)). simpl. unfold ret.
    rewrite logged_logged. unfold stalling_messages. simpl.
    rewrite app_nil_r. by destruct (exceeds_stalling_time s (clock (world st)) wc).
Qed.

Lemma sweep_run s st :
  delete_if_stalling s = false -> sweep_stalling s st = (Ret tt, swept s st).
Proof.
  intros Hdel. unfold sweep_stalling, swept. rewrite Hdel. simpl.
  destruct (delete_if_stalling_dry_run s) eqn:Hdry; [|done].
  rewrite bind_get_self.
  by rewrite (bind_run _ _ _ _ _ (filter_stalling_run s _ st Hdry)).
Qed.





(** ** The waiting line while the queue stays too full *)

Lemma slept_seconds_app a b : slept_seconds (a ++ b) = slept_seconds a + slept_seconds b.
Proof.
  induction a as [|e a IH]; simpl; [done|]. destruct e; rewrite ?IH; lia.
Qed.

Lemma sleep_run {X} daemon d (st : Sys X) :
  0 <= d -> sleep daemon d st = (Ret tt, asleep daemon d st).
Proof.
  intros Hd. unfold sleep. destruct (d <? 0) eqn:E; [apply Z.ltb_lt in E; lia|].
  reflexivity.
Qed.

Lemma num_running_top {X} l (st : Sys X) :
  num_running l 0 st = (Ret (num_top l (store (world st))), logged [EQueryCount] st).
Proof. reflexivity. Qed.

Lemma queue_too_full_top s l st :
  max_top_processes_running s < num_top l (store (world st)) ->
  queue_too_full s l st = (Ret true, logged [EQueryCount] st).
Proof.
  intros H. unfold queue_too_full. rewrite (bind_run _ _ _ _ _ (num_running_top l st)).
  apply Z.ltb_lt in H. by rewrite H.
Qed.

Lemma stalling_messages_quiet s now l :
  slept_seconds (stalling_messages s now l) = 0
  /\ Forall (fun e => is_submission e = false) (stalling_messages s now l).
Proof.
  unfold stalling_messages. induction l as [|wc l [IH1 IH2]]; simpl; [by split|].
  destruct (exceeds_stalling_time s now wc); simpl; [|by split].
  split; [done|]. by constructor.
Qed.

Lemma swept_world s st : world (swept s st) = world st.
Proof. unfold swept. by destruct (delete_if_stalling_dry_run s). Qed.

Lemma swept_trace s st :
  exists msgs, trace (swept s st) = trace st ++ msgs
    /\ slept_seconds msgs = 0 /\ Forall (fun e => is_submission e = false) msgs.
Proof.
  unfold swept. destruct (delete_if_stalling_dry_run s).
  - eexists. split; [reflexivity|]. apply stalling_messages_quiet.
  - exists []. by rewrite app_nil_r.
Qed.

(** [turns] turns of the loop in which the top processes running surpass
    the ceiling: each sweeps, counts and sleeps, and the loop ends without
    a submission. *)
Lemma waiting_line_busy daemon s l pl b gs spm :
  delete_if_stalling s = false ->
  0 < wait_for_submit s -> 0 <= spm ->
  (forall c d sto, max_top_processes_running s < num_top pl sto ->
                   max_top_processes_running s < num_top pl (daemon c d sto)) ->
  forall (turns fuel : nat) waited st,
    (turns < fuel)%nat ->
    max_top_processes_running s < num_top pl (store (world st)) ->
    max_wait_for_submit s < waited + Z.of_nat turns * wait_for_submit s ->
    ((0 < turns)%nat ->
     waited + (Z.of_nat turns - 1) * wait_for_submit s <= max_wait_for_submit s) ->
    exists st',
      waiting_line daemon fuel s l pl b gs spm waited st
      = (Ret (false, None, waited + Z.of_nat turns * wait_for_submit s), st') /\
      exists new, trace st' = trace st ++ new
        /\ slept_seconds new = Z.of_nat turns * (wait_for_submit s * spm)
        /\ Forall (fun e => is_submission e = false) new.
Proof.
  intros Hdel Hwait Hspm Hdaemon turns.
  induction turns as [|turns IH]; intros fuel waited st Hfuel Hbusy Hend Hrun.
  - destruct fuel as [|fuel]; [lia|]. simpl.
    destruct (waited <=? max_wait_for_submit s) eqn:E; [apply Z.leb_le in E; lia|].
    exists st. split; [unfold ret; do 3 f_equal; lia|].
    exists []. by rewrite app_nil_r.
  - destruct fuel as [|fuel]; [lia|]. simpl.
    rewrite Nat2Z.inj_succ in Hend, Hrun.
    assert (Hnn : 0 <= Z.of_nat turns * wait_for_submit s) by nia.
    specialize (Hrun ltac:(lia)).
    replace (Z.succ (Z.of_nat turns) - 1) with (Z.of_nat turns) in Hrun by lia.
    assert (Hle : waited <= max_wait_for_submit s) by lia.
    apply Z.leb_le in Hle. rewrite Hle.
    rewrite (bind_run _ _ _ _ _ (sweep_run s st Hdel)).
    rewrite (bind_run _ _ _ _ _ (queue_too_full_top s pl (swept s st)
               ltac:(by rewrite swept_world))).
    rewrite (bind_run _ _ _ _ _
               (sleep_run daemon (wait_for_submit s * spm) _ ltac:(nia))).
    set (st1 := asleep daemon (wait_for_submit s * spm) (logged [EQueryCount] (swept s st))).
    destruct (IH fuel (waited + wait_for_submit s) st1) as (st' & Hrun' & new & Htr & Hsl & Hns).
    + lia.
    + unfold st1. simpl. apply Hdaemon. by rewrite swept_world.
    + lia.
    + intros Hpos. nia.
    + exists st'. split; [rewrite Hrun'; do 3 f_equal; lia|].
      rewrite Nat2Z.inj_succ.
      destruct (swept_trace s st) as (msgs & Hmsgs & Hm0 & Hmns).
      exists (msgs ++ [EQueryCount; ESleep (wait_for_submit s * spm)] ++ new).
      split; [|split].
      * rewrite Htr. unfold st1. simpl. rewrite Hmsgs. by rewrite <- !app_assoc.
      * rewrite !slept_seconds_app, Hm0, Hsl. simpl. lia.
      * apply Forall_app. split; [done|]. apply Forall_app. split; [|done].
        by repeat constructor.
Qed.

Lemma repeat_query_quiet k :
  slept_seconds (repeat EQueryAll k) = 0
  /\ Forall (fun e => is_submission e = false) (repeat EQueryAll k).
Proof. induction k as [|k [IH1 IH2]]; simpl; split; auto. Qed.

Lemma guarded_settings st :
  settings (self (guarded st)) = settings (self st)
  \/ settings (self (guarded st)) = downgraded (settings (self st)).
Proof. unfold guarded. destruct (delete_if_stalling _); auto. Qed.

(** C5 (as amended). With [max_top_processes_running=0], a call that comes
    to the waiting line (the builder's label set, the groups given, no
    match, [resubmit_failed] and [resubmit_failed_as_restart] not both set,
    no quota querier or one that reports enough space), with
    [wait_for_submit > 0] and [max_wait_for_submit >= 0], during which a
    process of the builder's class that is not terminated is in the store
    at the call and after every sleep: the call submits nothing, sleeps
    [max_wait_for_submit / wait_for_submit + 1] times [wait_for_submit]
    scaled minutes in all, prints the warning that it timed out after that
    wait, and returns [(None, None)]. The ceiling test being [>], the
    process running is what keeps the call out of the submit branch. *)
Theorem blocking_submit_ceiling_zero_times_out daemon fuel
    (builder : ProcessBuilder) (groups : GroupsArg) (gs : list Group)
    (st : Sys SubmissionSupervisor) :
  let s := settings (self st) in
  let turns := max_wait_for_submit s / wait_for_submit s + 1 in
  let seconds_per_min := if dry_run s then 1 else 60 in
  metadata_label builder <> "" ->
  groups_list groups = Some gs ->
  matches builder gs (store (world st)) = [] ->
  max_top_processes_running s = 0 ->
  resubmit_failed s && resubmit_failed_as_restart s = false ->
  (forall q, quotaq (self st) = Some q -> is_min_free_space_left q (world st) = true) ->
  0 < wait_for_submit s ->
  0 <= max_wait_for_submit s ->
  0 < num_top (_process_class builder) (store (world st)) ->
  (forall c d sto, 0 < num_top (_process_class builder) sto ->
                   0 < num_top (_process_class builder) (daemon c d sto)) ->
  (Z.to_nat turns < fuel)%nat ->
  exists st',
    blocking_submit daemon fuel builder groups st = (Ret (None, None), st') /\
    EPrint (WarnTimedOut (metadata_label builder) (turns * wait_for_submit s)) ∈ trace st' /\
    exists new, trace st' = trace st ++ new
      /\ slept_seconds new = turns * (wait_for_submit s * seconds_per_min)
      /\ Forall (fun e => is_submission e = false) new.
Proof.
  intros s turns spm Hl Hg Hm Htop Hflags Hquota Hwait Hmax Hbusy Hdaemon Hfuel.
  assert (Hdiv : 0 <= max_wait_for_submit s / wait_for_submit s)
    by (apply Z.div_pos; lia).
  rewrite blocking_submit_unfold.
  rewrite (bind_run _ _ _ _ _ (find_workchains_run builder groups gs _ Hl Hg)).
  rewrite guarded_world, bind_get_self.
  unfold found_events, found. rewrite Hm. cbn [remove_duplicates length Nat.ltb Nat.leb fst snd].
  rewrite app_nil_r.
  rewrite load_or_submit_submits; [|done|done|by left].
  cbn [List.filter].
  set (s' := settings (self (logged (repeat EQueryAll (length gs)) (guarded st)))).
  assert (Hs' : s' = s \/ s' = downgraded s) by apply guarded_settings.
  assert (Hdel' : delete_if_stalling s' = false) by apply guarded_delete_if_stalling.
  assert (Hfields :
    max_top_processes_running s' = 0 /\ wait_for_submit s' = wait_for_submit s
    /\ max_wait_for_submit s' = max_wait_for_submit s /\ dry_run s' = dry_run s
    /\ resubmit_failed s' = resubmit_failed s
    /\ resubmit_failed_as_restart s' = resubmit_failed_as_restart s).
  { destruct Hs' as [->| ->]; by repeat split. }
  destruct Hfields as (Htop' & Hwait' & Hmax' & Hdry' & Hre' & Hrs').
  set (st1 := logged (repeat EQueryAll (length gs)) (guarded st)).
  assert (Hstaged : exists m,
    stage_builder s' builder [] st1 = (Ret builder, logged [EPrint m] st1)).
  { unfold stage_builder. rewrite Hre', Hrs'.
    destruct (resubmit_failed s); [destruct (resubmit_failed_as_restart s)|];
      [done| |]; rewrite (bind_run _ _ _ _ _ (print_run _ _)); eauto. }
  destruct Hstaged as (m & Hstaged).
  unfold submit_branch. rewrite (bind_run _ _ _ _ _ Hstaged).
  set (st2 := logged [EPrint m] st1).
  assert (Hq : exists qev, check_quota st2 = (Ret tt, logged qev st2)
            /\ slept_seconds qev = 0 /\ Forall (fun e => is_submission e = false) qev).
  { unfold check_quota. rewrite bind_get_self. unfold st2, st1. simpl.
    rewrite guarded_quotaq. destruct (quotaq (self st)) as [q|] eqn:Eq.
    - rewrite (bind_run _ _ _ _ _ (emit_run _ _)), bind_get_world. simpl.
      rewrite guarded_world, (Hquota q eq_refl). simpl.
      exists [EQuotaCheck]. split; [done|]. split; [done|]. by repeat constructor.
    - exists []. unfold ret. rewrite logged_nil. by repeat split. }
  destruct Hq as (qev & Hq & Hq0 & Hqns).
  rewrite (bind_run _ _ _ _ _ Hq).
  set (st3 := logged qev st2).
  destruct (waiting_line_busy daemon s' (metadata_label builder) (_process_class builder)
              builder gs (if dry_run s' then 1 else 60) Hdel'
              ltac:(lia) ltac:(destruct (dry_run s'); lia)
              ltac:(rewrite Htop'; exact Hdaemon)
              (Z.to_nat turns) fuel 0 st3)
    as (st4 & Hrun & new & Htr & Hsl & Hns).
  - done.
  - rewrite Htop'. unfold st3, st2, st1. simpl. by rewrite guarded_world.
  - rewrite Hwait', Hmax', Z2Nat.id by (unfold turns; lia). unfold turns.
    pose proof (Z.mul_succ_div_gt (max_wait_for_submit s) (wait_for_submit s) Hwait).
    lia.
  - intros _. rewrite Hwait', Hmax', Z2Nat.id by (unfold turns; lia). unfold turns.
    pose proof (Z.mul_div_le (max_wait_for_submit s) (wait_for_submit s) Hwait).
    lia.
  - rewrite (bind_run _ _ _ _ _ Hrun).
    rewrite (bind_run _ _ _ _ _ (print_run _ _)).
    eexists. split; [reflexivity|].
    rewrite Z2Nat.id, Hwait', Hdry' in * by (unfold turns; lia).
    simpl. split.
    + apply elem_of_app. right. apply list_elem_of_singleton. reflexivity.
    + rewrite Htr. unfold st3, st2, st1. simpl. rewrite guarded_trace, <- !app_assoc.
      eexists. split; [reflexivity|]. split.
      * rewrite !slept_seconds_app, Hq0, Hsl.
        rewrite (proj1 (repeat_query_quiet _)). unfold spm.
        destruct (delete_if_stalling (settings (self st)));
          cbn [slept_seconds fold_right]; lia.
      * apply Forall_app.
        split; [destruct (delete_if_stalling (settings (self st))); by repeat constructor|].
        apply Forall_app. split; [apply (proj2 (repeat_query_quiet _))|].
        apply Forall_app. split; [by repeat constructor|].
        apply Forall_app. split; [done|].
        apply Forall_app. split; [done|]. by repeat constructor.
Qed.

(** * The classifier *)

(** ** The temporary group *)

Lemma fresh_group_run draws (st : Sys ProcessClassifier) lbl rest :
  first_fresh (groups (store (world st))) draws = Some (lbl, rest) ->
  fresh_group draws st
  = (Ret {| group_label := lbl |},
     logged [ECreateGroup lbl]
       (in_world (regrouped (<[lbl := ∅]> (groups (store (world st)))) rest (world st)) st)).
Proof.
  revert st. induction draws as [|stamp draws IH]; intros st Hf; simpl in Hf; [done|].
  simpl. rewrite bind_get_world. unfold bind at 1, put_world at 1.
  destruct (groups (store (world st)) !! tmp_group_label stamp) eqn:E.
  - rewrite IH by done. reflexivity.
  - inversion Hf; subst. reflexivity.
Qed.

Lemma fresh_group_out_of_draws draws (st : Sys ProcessClassifier) :
  first_fresh (groups (store (world st))) draws = None ->
  fst (fresh_group draws st) = OutOfFuel.
Proof.
  revert st. induction draws as [|stamp draws IH]; intros st Hf; simpl in Hf; [done|].
  simpl. rewrite bind_get_world. unfold bind at 1, put_world at 1.
  destruct (groups (store (world st)) !! tmp_group_label stamp) eqn:E; [|done].
  by apply IH.
Qed.

Lemma first_fresh_None gs draws lbl rest :
  first_fresh gs draws = Some (lbl, rest) -> gs !! lbl = None.
Proof.
  induction draws as [|stamp draws IH]; simpl; [done|].
  destruct (gs !! tmp_group_label stamp) eqn:E; [done|].
  intros H. by inversion H; subst.
Qed.

Lemma add_nodes_run {X} g ns members (st : Sys X) :
  groups (store (world st)) !! group_label g = Some members ->
  forallb (is_stored (store (world st))) ns = true ->
  add_nodes g ns st
  = (Ret tt,
     logged [EAddNodes (group_label g) (pk <$> ns)]
       (in_world
          (regrouped (<[group_label g := members ∪ list_to_set (pk <$> ns)]>
                        (groups (store (world st))))
             (entropy (world st)) (world st))
          st)).
Proof.
  intros Hg Hs. unfold add_nodes. rewrite bind_get_world, Hg, Hs. reflexivity.
Qed.

Lemma add_nodes_unstored {X} g ns members (st : Sys X) :
  groups (store (world st)) !! group_label g = Some members ->
  forallb (is_stored (store (world st))) ns = false ->
  add_nodes g ns st = (Raise ValueError, st).
Proof.
  intros Hg Hs. unfold add_nodes. by rewrite bind_get_world, Hg, Hs.
Qed.

Lemma delete_group_run {X} l members (st : Sys X) :
  groups (store (world st)) !! l = Some members ->
  delete_groups [l] false st
  = (Ret tt,
     logged [EDeleteGroup l]
       (in_world (regrouped (delete l (groups (store (world st))))
                    (entropy (world st)) (world st)) st)).
Proof.
  intros Hg. unfold delete_groups. simpl.
  rewrite bind_assoc, bind_get_world, Hg. reflexivity.
Qed.

(** ** The buckets *)

Lemma filter_ext_bool {A} (f g : A -> bool) (l : list A) :
  (forall a, f a = g a) -> List.filter f l = List.filter g l.
Proof. intros H. induction l as [|a l IH]; simpl; [done|]. by rewrite H, IH. Qed.

(** The query of a state in the temporary group that holds the batch. *)
Lemma query_temporary_group B sto sto' lbl state :
  nodes sto' = nodes sto ->
  groups sto' !! lbl = Some (∅ ∪ list_to_set (pk <$> B)) ->
  query_processes None None (Some [state]) None false (Some {| group_label := lbl |}) sto'
  = of_state B sto state.
Proof.
  intros Hn Hg. unfold query_processes, of_state. rewrite Hn. simpl.
  apply filter_ext_bool.
  intros n. unfold state_filter, in_batch. simpl. rewrite Hg.
  rewrite !andb_true_r. f_equal.
  - apply bool_decide_ext. apply list_elem_of_singleton.
  - apply bool_decide_ext. rewrite elem_of_union, elem_of_list_to_set.
    split; [intros [H|H]; [by apply elem_of_empty in H | done] | by right].
Qed.

Lemma set_classified_run d (st : Sys ProcessClassifier) :
  set_classified d st
  = (Ret tt, {| self := {| _unclassified_processes := _unclassified_processes (self st);
                           classified_by_state := d |};
                world := world st; trace := trace st |}).
Proof. reflexivity. Qed.

(** The loop over the states other than finished. *)
Lemma classify_loop_run (q : string -> Store -> list ProcessNode) states
    (st : Sys ProcessClassifier) :
  for_each states (fun state =>
    let* processes_of_state := query_all (q state) in
    let* c := get_self in
    set_classified (<[state := Processes processes_of_state]> (classified_by_state c))) st
  = (Ret tt,
     {| self := {| _unclassified_processes := _unclassified_processes (self st);
                   classified_by_state :=
                     fold_left (fun d state =>
                                  <[state := Processes (q state (store (world st)))]> d)
                       states (classified_by_state (self st)) |};
        world := world st;
        trace := trace st ++ repeat EQueryAll (length states) |}).
Proof.
  revert st. induction states as [|state states IH]; intros st; simpl.
  - unfold ret. destruct st as [[B d] w tr]; simpl. by rewrite app_nil_r.
  - rewrite bind_assoc, (bind_run _ _ _ _ _ (query_all_run _ st)).
    rewrite bind_assoc, bind_get_self.
    rewrite (bind_run _ _ _ _ _ (set_classified_run _ _)).
    rewrite IH. simpl. by rewrite <- app_assoc.
Qed.

Lemma pop_finished :
  pop_value (value FINISHED) (get_process_states None)
  = ["created"; "running"; "waiting"; "excepted"; "killed"].
Proof. reflexivity. Qed.

Lemma regrouped_same w : regrouped (groups (store w)) (entropy w) w = w.
Proof. by destruct w as [[ns gs k] c e]. Qed.

Lemma group_for_classification_run (st : Sys ProcessClassifier) lbl rest :
  first_fresh (groups (store (world st))) (entropy (world st)) = Some (lbl, rest) ->
  forallb (is_stored (store (world st))) (_unclassified_processes (self st)) = true ->
  _group_for_classification st
  = (Ret {| group_label := lbl |},
     logged [ECreateGroup lbl; EAddNodes lbl (pk <$> _unclassified_processes (self st))]
       (in_world
          (regrouped
             (<[lbl := ∅ ∪ list_to_set (pk <$> _unclassified_processes (self st))]>
                (groups (store (world st))))
             rest (world st))
          st)).
Proof.
  intros Hf Hs. unfold _group_for_classification.
  rewrite bind_get_world, (bind_run _ _ _ _ _ (fresh_group_run _ st lbl rest Hf)).
  rewrite bind_get_self.
  erewrite (bind_run _ _ _ _ _ (add_nodes_run _ _ ∅ _ _ _)).
  - unfold ret, logged, in_world, regrouped. simpl.
    by rewrite insert_insert_eq, <- app_assoc.
  Unshelve.
  + simpl. apply lookup_insert_eq.
  + exact Hs.
Qed.

(** When a record of the batch is not stored, the group has been created
    and stays behind. *)
Lemma group_for_classification_unstored (st : Sys ProcessClassifier) lbl rest :
  first_fresh (groups (store (world st))) (entropy (world st)) = Some (lbl, rest) ->
  forallb (is_stored (store (world st))) (_unclassified_processes (self st)) = false ->
  _group_for_classification st
  = (Raise ValueError,
     logged [ECreateGroup lbl]
       (in_world (regrouped (<[lbl := ∅]> (groups (store (world st)))) rest (world st))
          st)).
Proof.
  intros Hf Hs. unfold _group_for_classification.
  rewrite bind_get_world, (bind_run _ _ _ _ _ (fresh_group_run _ st lbl rest Hf)).
  rewrite bind_get_self.
  erewrite (bind_raise _ _ _ _ _ (add_nodes_unstored _ _ ∅ _ _ _)); [reflexivity|..].
  Unshelve.
  - simpl. apply lookup_insert_eq.
  - exact Hs.
Qed.

(** A successful run: the dictionary is the classification of the batch on
    the store, the store is as before, and the trace shows the group
    created, filled, queried once for each state, and deleted. *)
Lemma classify_by_state_run (st : Sys ProcessClassifier) lbl rest :
  first_fresh (groups (store (world st))) (entropy (world st)) = Some (lbl, rest) ->
  forallb (is_stored (store (world st))) (_unclassified_processes (self st)) = true ->
  classify_by_state st
  = (Ret tt,
     {| self := {| _unclassified_processes := _unclassified_processes (self st);
                   classified_by_state :=
                     classification (_unclassified_processes (self st))
                       (store (world st)) |};
        world := regrouped (groups (store (world st))) rest (world st);
        trace := trace st
                 ++ [ECreateGroup lbl;
                     EAddNodes lbl (pk <$> _unclassified_processes (self st))]
                 ++ repeat EQueryAll 6 ++ [EDeleteGroup lbl] |}).
Proof.
  intros Hf Hs. unfold classify_by_state.
  rewrite (bind_run _ _ _ _ _ (group_for_classification_run st lbl rest Hf Hs)).
  rewrite (bind_run _ _ _ _ _ (set_classified_run _ _)).
  rewrite pop_finished.
  rewrite (bind_run _ _ _ _ _ (classify_loop_run
    (fun state => query_processes None None (Some [state]) None false
                    (Some {| group_label := lbl |})) _ _)).
  rewrite bind_get_self, (bind_run _ _ _ _ _ (set_classified_run _ _)).
  rewrite (bind_run _ _ _ _ _ (query_all_run _ _)).
  rewrite bind_get_self, (bind_run _ _ _ _ _ (set_classified_run _ _)).
  erewrite delete_group_run by (simpl; apply lookup_insert_eq).
  simpl. rewrite insert_insert_eq.
  rewrite !(query_temporary_group (_unclassified_processes (self st)) (store (world st)))
    by (try reflexivity; apply lookup_insert_eq).
  rewrite delete_insert_id by (by eapply first_fresh_None).
  unfold logged, in_world, regrouped, classification, by_exit_status. simpl.
  by rewrite <- !app_assoc.
Qed.

(** ** The buckets as a partition of the batch *)

Lemma sum_len_length m : sum_len m = length (exit_status_processes m).
Proof.
  unfold sum_len, exit_status_processes.
  induction (map_to_list m) as [|[k l] kvs IH]; simpl; [done|].
  rewrite length_app. by f_equal.
Qed.

(** One turn of the loop over the finished processes appends the process
    to the list of its exit status, which starts empty. *)
Lemma add_by_exit_status_insert m p :
  add_by_exit_status m p
  = <[exit_status p := default [] (m !! exit_status p) ++ [p]]> m.
Proof.
  unfold add_by_exit_status.
  destruct (m !! exit_status p) as [[|x xs]|] eqn:E; simpl.
  - by rewrite alter_insert_eq.
  - apply map_eq. intros i. destruct (decide (exit_status p = i)) as [<-|Hne].
    + by rewrite lookup_alter_eq, lookup_insert_eq, E.
    + by rewrite lookup_alter_ne, lookup_insert_ne.
  - by rewrite alter_insert_eq.
Qed.

Lemma exit_status_processes_add m p :
  exit_status_processes (add_by_exit_status m p) ≡ₚ exit_status_processes m ++ [p].
Proof.
  rewrite add_by_exit_status_insert. unfold exit_status_processes.
  destruct (m !! exit_status p) as [l0|] eqn:E; simpl.
  - rewrite <- (insert_delete_eq m).
    rewrite map_to_list_insert by apply lookup_delete_eq.
    rewrite <- (map_to_list_delete m _ _ E). simpl.
    rewrite <- !app_assoc. apply Permutation_app_head, Permutation_app_comm.
  - rewrite map_to_list_insert by done. simpl. apply Permutation_cons_append.
Qed.

Lemma by_exit_status_all l : exit_status_processes (by_exit_status l) ≡ₚ l.
Proof.
  unfold by_exit_status.
  assert (H : forall m, exit_status_processes (fold_left add_by_exit_status l m)
                        ≡ₚ exit_status_processes m ++ l).
  { induction l as [|p l IH]; intros m; simpl; [by rewrite app_nil_r|].
    rewrite IH, exit_status_processes_add. by rewrite <- app_assoc. }
  rewrite H. unfold exit_status_processes. by rewrite map_to_list_empty.
Qed.

Lemma count_loop_plain d state states total :
  state <> "finished" ->
  count_loop d (state :: states) total
  = count_loop d states (total + from_option len 0 (d !! state))%nat.
Proof. intros H. cbn [count_loop]. by rewrite bool_decide_eq_false_2. Qed.

Lemma count_loop_finished d states total m :
  d !! "finished" = Some (ByExitStatus m) ->
  count_loop d ("finished" :: states) total
  = count_loop d states (total + sum_len m)%nat.
Proof.
  intros H. cbn [count_loop]. rewrite bool_decide_eq_true_2 by done.
  cbn [negb]. by rewrite H.
Qed.

Lemma classification_unfold B sto :
  classification B sto
  = <["finished" := ByExitStatus (by_exit_status (of_state B sto "finished"))]>
      (<["killed" := Processes (of_state B sto "killed")]>
         (<["excepted" := Processes (of_state B sto "excepted")]>
            (<["waiting" := Processes (of_state B sto "waiting")]>
               (<["running" := Processes (of_state B sto "running")]>
                  (<["created" := Processes (of_state B sto "created")]> ∅))))).
Proof. reflexivity. Qed.

Lemma all_classified_parts B sto :
  all_classified (classification B sto) ≡ₚ classified_parts B sto.
Proof.
  rewrite classification_unfold. unfold all_classified, classified_parts.
  repeat (rewrite map_to_list_insert by (by simplify_map_eq); simpl).
  rewrite map_to_list_empty. simpl. rewrite app_nil_r.
  apply Permutation_app_tail, by_exit_status_all.
Qed.

Lemma count_classification B B' sto :
  count {| _unclassified_processes := B'; classified_by_state := classification B sto |} None
  = inr (length (classified_parts B sto)).
Proof.
  rewrite classification_unfold. unfold count.
  cbn [get_process_states states_subset list_PS fmap list_fmap value classified_by_state].
  rewrite !count_loop_plain by done.
  rewrite (count_loop_finished _ _ _ (by_exit_status (of_state B sto "finished")))
    by (by simplify_map_eq).
  rewrite !count_loop_plain by done. simplify_map_eq.
  cbn [count_loop from_option len]. f_equal.
  rewrite sum_len_length, by_exit_status_all. unfold classified_parts.
  rewrite !length_app. lia.
Qed.

(** Equalities of state names are decided by computation. *)
Ltac decide_states :=
  repeat match goal with
         | |- context [bool_decide (?a = ?b)] =>
             let v := eval vm_compute in (bool_decide (a = b)) in
             change (bool_decide (a = b)) with v
         end;
  cbv iota.

Lemma classified_parts_batch B sto :
  classified_parts B sto ≡ₚ List.filter (in_batch B) (nodes sto).
Proof.
  unfold classified_parts, of_state.
  induction (nodes sto) as [|n l IH]; [done|].
  cbn [List.filter]. cbv beta. destruct (in_batch B n) eqn:Hn.
  - rewrite !andb_true_r, <- IH.
    destruct (process_state n); cbn [value]; decide_states;
      rewrite <- ?app_comm_cons, <- ?Permutation_middle; reflexivity.
  - rewrite !andb_false_r. exact IH.
Qed.

Lemma batch_pks B sto :
  forallb (is_stored sto) B = true ->
  forall k, k ∈ pk <$> List.filter (in_batch B) (nodes sto) <-> k ∈ pk <$> B.
Proof.
  intros Hs k. rewrite !list_elem_of_fmap. split.
  - intros (n & -> & Hn). apply list_elem_of_In, filter_In in Hn as [_ Hn].
    apply bool_decide_eq_true in Hn. by apply list_elem_of_fmap in Hn.
  - intros (b & -> & Hb). rewrite forallb_forall in Hs.
    specialize (Hs b). rewrite <- list_elem_of_In in Hs. specialize (Hs Hb).
    apply bool_decide_eq_true, list_elem_of_fmap in Hs as (n & Hpk & Hn).
    exists n. split; [done|]. apply list_elem_of_In, filter_In.
    split; [by apply list_elem_of_In|]. apply bool_decide_eq_true.
    rewrite <- Hpk. by apply list_elem_of_fmap_2.
Qed.

Lemma NoDup_pk_filter f (l : list ProcessNode) :
  NoDup (pk <$> l) -> NoDup (pk <$> List.filter f l).
Proof.
  induction l as [|n l IH]; simpl; [done|]. rewrite NoDup_cons. intros [Hn Hl].
  destruct (f n); simpl; [|by apply IH]. apply NoDup_cons. split; [|by apply IH].
  intros Hin. apply Hn. apply list_elem_of_fmap in Hin as (m & -> & Hm).
  apply list_elem_of_fmap_2. apply list_elem_of_In, filter_In in Hm as [Hm _].
  by apply list_elem_of_In.
Qed.

Lemma batch_size B sto :
  NoDup (pk <$> nodes sto) ->
  forallb (is_stored sto) B = true ->
  length (List.filter (in_batch B) (nodes sto))
  = size (list_to_set (pk <$> B) : gset Z).
Proof.
  intros Hnd Hs.
  assert (Heq : (list_to_set (pk <$> B) : gset Z)
                = list_to_set (pk <$> List.filter (in_batch B) (nodes sto))).
  { apply set_eq. intros k. rewrite !elem_of_list_to_set. symmetry. by apply batch_pks. }
  rewrite Heq, size_list_to_set by (by apply NoDup_pk_filter).
  by rewrite length_fmap.
Qed.

(** C4 (as amended). After a classification that succeeds (the records of
    the batch are stored), the buckets, with the finished bucket taken
    across its exit statuses, hold each distinct record of the batch exactly
    once, and [count()] over all states is their number: the number of
    distinct records of the batch, which is [len(B)] when no record occurs
    twice in the batch. *)
Theorem classify_by_state_partition (st : Sys ProcessClassifier) lbl rest :
  let B := _unclassified_processes (self st) in
  NoDup (pk <$> nodes (store (world st))) ->
  first_fresh (groups (store (world st))) (entropy (world st)) = Some (lbl, rest) ->
  forallb (is_stored (store (world st))) B = true ->
  exists st',
    classify_by_state st = (Ret tt, st') /\
    let all := all_classified (classified_by_state (self st')) in
    NoDup (pk <$> all) /\
    (forall k, k ∈ pk <$> all <-> k ∈ pk <$> B) /\
    count (self st') None = inr (length all) /\
    length all = size (list_to_set (pk <$> B) : gset Z) /\
    (NoDup (pk <$> B) -> count (self st') None = inr (length B)).
Proof.
  intros B Hnd Hf Hs. eexists. split; [by apply classify_by_state_run|].
  cbn [self classified_by_state]. fold B.
  assert (Hperm : all_classified (classification B (store (world st)))
                  ≡ₚ List.filter (in_batch B) (nodes (store (world st)))).
  { by rewrite all_classified_parts, classified_parts_batch. }
  assert (Hcount : count {| _unclassified_processes := B;
                            classified_by_state := classification B (store (world st)) |} None
                   = inr (length (all_classified (classification B (store (world st)))))).
  { by rewrite count_classification, Hperm, classified_parts_batch. }
  assert (Hsize : length (all_classified (classification B (store (world st))))
                  = size (list_to_set (pk <$> B) : gset Z)).
  { rewrite Hperm. by apply batch_size. }
  split; [|split; [|split; [|split]]].
  - rewrite Hperm. by apply NoDup_pk_filter.
  - intros k. rewrite Hperm. by apply batch_pks.
  - exact Hcount.
  - exact Hsize.
  - intros HB. rewrite Hcount, Hsize, size_list_to_set by done.
    by rewrite length_fmap.
Qed.

(** C9. Two classifications of the same batch in a row, each finding a
    fresh label for its temporary group: the first leaves the store as it
    found it, and the second yields the same dictionary as the first. *)
Theorem classify_by_state_twice (st : Sys ProcessClassifier) lbl rest lbl2 rest2 :
  first_fresh (groups (store (world st))) (entropy (world st)) = Some (lbl, rest) ->
  first_fresh (groups (store (world st))) rest = Some (lbl2, rest2) ->
  forallb (is_stored (store (world st))) (_unclassified_processes (self st)) = true ->
  exists st1 st2,
    classify_by_state st = (Ret tt, st1) /\
    classify_by_state st1 = (Ret tt, st2) /\
    store (world st1) = store (world st) /\
    _unclassified_processes (self st1) = _unclassified_processes (self st) /\
    classified_by_state (self st2) = classified_by_state (self st1).
Proof.
  intros Hf Hf2 Hs. eexists. eexists.
  split; [by apply classify_by_state_run|].
  assert (Hstore : forall w : World, set_groups (groups (store w)) (store w) = store w)
    by (by intros [[ns gs k] c e]).
  split.
  - apply classify_by_state_run; cbn [world self regrouped store entropy];
      rewrite ?Hstore; cbn [set_groups groups nodes]; done.
  - cbn [world self regrouped store entropy classified_by_state _unclassified_processes].
    rewrite !Hstore. done.
Qed.

(** ** Leftover temporary groups *)

Lemma like_any s : existsb (sql_like "") (suffixes s) = true.
Proof. induction s as [|c s IH]; [reflexivity|]. simpl. exact IH. Qed.

(** The constructor's query finds every label [_group_for_classification]
    makes. *)
Lemma sql_like_tmp_group_label stamp :
  sql_like (_TMP_GROUP_LABEL_PREFIX ++ "%") (tmp_group_label stamp) = true.
Proof.
  unfold tmp_group_label, _TMP_GROUP_LABEL_PREFIX.
  cbn [String.append sql_like Ascii.eqb Bool.eqb orb andb].
  apply like_any.
Qed.

Lemma first_fresh_label gs draws lbl rest :
  first_fresh gs draws = Some (lbl, rest) -> exists stamp, lbl = tmp_group_label stamp.
Proof.
  induction draws as [|stamp draws IH]; simpl; [done|].
  destruct (gs !! tmp_group_label stamp); [done|].
  intros H. inversion H; subst. eauto.
Qed.

Lemma without_lookup labels gs l :
  without labels gs !! l = if decide (l ∈ labels) then None else gs !! l.
Proof.
  unfold without. revert gs.
  induction labels as [|l0 labels IH]; intros gs; cbn [fold_left].
  - by rewrite decide_False by apply not_elem_of_nil.
  - rewrite IH. destruct (decide (l ∈ labels)) as [Hin|Hnin].
    + rewrite decide_True; [done|]. apply elem_of_cons. by right.
    + destruct (decide (l = l0)) as [->|Hne].
      * rewrite decide_True by (apply elem_of_cons; by left). apply lookup_delete_eq.
      * rewrite decide_False by (rewrite elem_of_cons; intros [?|?]; done).
        by apply lookup_delete_ne.
Qed.

Lemma bind_then_ret {X B} (m : M X unit) (k : M X B) st :
  bind m (fun _ => k) st = bind (bind m (fun _ => ret tt)) (fun _ => k) st.
Proof. unfold bind. by destruct (m st) as [[[]| |] s']. Qed.

Lemma delete_groups_cons {X} l labels skip (st : Sys X) :
  delete_groups (l :: labels) skip st
  = bind (delete_groups [l] skip) (fun _ => delete_groups labels skip) st.
Proof.
  unfold delete_groups. cbn [for_each]. apply bind_then_ret.
Qed.

Lemma in_world_same {X} (st : Sys X) :
  in_world (regrouped (groups (store (world st))) (entropy (world st)) (world st)) st = st.
Proof. unfold in_world. rewrite regrouped_same. by destruct st. Qed.

(** [delete_groups] without [skip_nonempty_groups] succeeds, and deletes
    the groups of the given labels and nothing else. *)
Lemma delete_groups_run {X} labels (st : Sys X) :
  exists evs,
    delete_groups labels false st
    = (Ret tt,
       logged evs
         (in_world (regrouped (without labels (groups (store (world st))))
                      (entropy (world st)) (world st)) st)).
Proof.
  revert st. induction labels as [|l labels IH]; intros st.
  - exists []. unfold delete_groups, without. simpl. unfold ret.
    by rewrite logged_nil, in_world_same.
  - rewrite delete_groups_cons.
    destruct (groups (store (world st)) !! l) as [members|] eqn:E.
    + rewrite (bind_run _ _ _ _ _ (delete_group_run l members st E)).
      destruct (IH (logged [EDeleteGroup l]
                      (in_world (regrouped (delete l (groups (store (world st))))
                                   (entropy (world st)) (world st)) st)))
        as (evs & ->).
      exists ([EDeleteGroup l] ++ evs). unfold logged, in_world, regrouped. simpl.
      by rewrite <- app_assoc.
    + assert (Hskip : delete_groups [l] false st = (Ret tt, st)).
      { unfold delete_groups. simpl. by rewrite bind_assoc, bind_get_world, E. }
      rewrite (bind_run _ _ _ _ _ Hskip). destruct (IH st) as (evs & ->).
      exists evs. unfold without. simpl. by rewrite (delete_id _ _ E).
Qed.

Lemma elem_of_temporary_groups sto stamp members :
  groups sto !! tmp_group_label stamp = Some members ->
  tmp_group_label stamp ∈ temporary_groups sto.
Proof.
  intros H. unfold temporary_groups. apply list_elem_of_In, filter_In.
  split; [|apply sql_like_tmp_group_label].
  apply list_elem_of_In, list_elem_of_fmap. exists (tmp_group_label stamp, members).
  split; [done|]. by apply elem_of_map_to_list.
Qed.

(** The next construction of a classifier purges a leftover temporary
    group. *)
Lemma ProcessClassifier_init_purges processes (st : Sys unit) stamp members :
  groups (store (world st)) !! tmp_group_label stamp = Some members ->
  exists c st',
    ProcessClassifier_init processes st = (Ret c, st') /\
    EPrint InfoFoundTemporaryGroups ∈ trace st' /\
    groups (store (world st')) !! tmp_group_label stamp = None.
Proof.
  intros H. pose proof (elem_of_temporary_groups _ _ _ H) as Hin.
  unfold ProcessClassifier_init. rewrite bind_get_world.
  destruct (temporary_groups (store (world st))) as [|l ls] eqn:E.
  { by apply elem_of_nil in Hin. }
  rewrite bind_assoc, (bind_run _ _ _ _ _ (print_run _ _)).
  destruct (delete_groups_run (l :: ls) (logged [EPrint InfoFoundTemporaryGroups] st))
    as (evs & Hrun).
  rewrite (bind_run _ _ _ _ _ Hrun). eexists _, _. split; [reflexivity|]. split.
  - simpl. rewrite !elem_of_app, list_elem_of_singleton. auto.
  - cbn [logged in_world regrouped world store groups set_groups].
    rewrite without_lookup. by rewrite decide_True by exact Hin.
Qed.

(** C8 (as amended). A classification that finds a fresh label creates the
    temporary group, fills it with the batch, queries it once for each
    state and deletes it, leaving the groups of the store as they were.
    When filling the group fails (a record of the batch is not stored) the
    [ValueError] leaves the call at once: nothing is deleted and the empty
    temporary group stays in the store, until the next construction of a
    classifier finds it, reports it and deletes it. *)
Theorem classify_by_state_temporary_group (st : Sys ProcessClassifier)
    (lbl : string) (rest : list (string * string)) :
  first_fresh (groups (store (world st))) (entropy (world st)) = Some (lbl, rest) ->
  let B := _unclassified_processes (self st) in
  let st' := snd (classify_by_state st) in
  if forallb (is_stored (store (world st))) B then
    fst (classify_by_state st) = Ret tt /\
    groups (store (world st')) = groups (store (world st)) /\
    trace st' = trace st ++ [ECreateGroup lbl; EAddNodes lbl (pk <$> B)]
                ++ repeat EQueryAll 6 ++ [EDeleteGroup lbl]
  else
    fst (classify_by_state st) = Raise ValueError /\
    groups (store (world st')) = <[lbl := ∅]> (groups (store (world st))) /\
    trace st' = trace st ++ [ECreateGroup lbl] /\
    forall processes (caller : Sys unit),
      world caller = world st' ->
      exists c after,
        ProcessClassifier_init processes caller = (Ret c, after) /\
        EPrint InfoFoundTemporaryGroups ∈ trace after /\
        groups (store (world after)) !! lbl = None.
Proof.
  intros Hf B st'. subst st'.
  destruct (forallb (is_stored (store (world st))) B) eqn:Hs.
  - rewrite (classify_by_state_run st lbl rest Hf Hs). by repeat split.
  - unfold classify_by_state.
    rewrite (bind_raise _ _ _ _ _ (group_for_classification_unstored st lbl rest Hf Hs)).
    split; [done|]. split; [done|]. split; [done|].
    intros processes caller Hw.
    destruct (first_fresh_label _ _ _ _ Hf) as (stamp & ->).
    apply (ProcessClassifier_init_purges processes caller stamp ∅).
    rewrite Hw. simpl. apply lookup_insert_eq.
Qed.

(** ** The waiting line when the queue is free *)

Lemma num_running_all {X} l (st : Sys X) :
  num_running l 1 st = (Ret (num_all (store (world st))), logged [EQueryCount] st).
Proof. reflexivity. Qed.

Lemma queue_not_too_full s l st :
  num_top l (store (world st)) <= max_top_processes_running s ->
  num_all (store (world st)) <= max_all_processes_running s ->
  queue_too_full s l st = (Ret false, logged [EQueryCount; EQueryCount] st).
Proof.
  intros Htop Hall. apply Z.ltb_ge in Htop, Hall. unfold queue_too_full.
  rewrite (bind_run _ _ _ _ _ (num_running_top l st)), Htop.
  rewrite (bind_run _ _ _ _ _ (num_running_all l _)). unfold ret. simpl.
  by rewrite Hall, logged_logged.
Qed.

(** Attaching a stored record to groups that are all stored. *)
Lemma attach_run {X} gs p (st : Sys X) :
  (forall g, g ∈ gs -> is_Some (groups (store (world st)) !! group_label g)) ->
  is_stored (store (world st)) p = true ->
  exists st',
    for_each gs (fun group => add_nodes group [p]) st = (Ret tt, st') /\
    self st' = self st /\
    clock (world st') = clock (world st) /\
    trace st' = trace st ++ ((fun g => EAddNodes (group_label g) [pk p]) <$> gs).
Proof.
  revert st. induction gs as [|g gs IH]; intros st Hgs Hp.
  - exists st. simpl. by rewrite app_nil_r.
  - destruct (Hgs g ltac:(apply elem_of_cons; by left)) as [members Hg].
    cbn [for_each].
    rewrite (bind_run _ _ _ _ _ (add_nodes_run g [p] members st Hg
               ltac:(simpl; by rewrite Hp))).
    edestruct IH as (st' & Hrun & Hself & Hclock & Htr).
    3:{ exists st'. split; [exact Hrun|]. rewrite Hself, Hclock, Htr. simpl.
        by rewrite <- app_assoc. }
    + intros g' Hg'. simpl.
      destruct (decide (group_label g = group_label g')) as [->|Hne].
      * rewrite lookup_insert_eq. eauto.
      * rewrite lookup_insert_ne by done. apply Hgs, elem_of_cons. by right.
    + exact Hp.
Qed.

Lemma aiida_submit_run {X} b (st : Sys X) :
  aiida_submit b st = (Ret (new_node b (world st)), submitted b st).
Proof. reflexivity. Qed.

(** X14. With no match, a free queue and not both retry flags set, the call
    submits the caller's builder at the first poll, tracks the new record,
    attaches it to every group and returns it with [from_db=False]. *)
Lemma blocking_submit_no_match_submits daemon fuel
    (builder : ProcessBuilder) (groups_arg : GroupsArg) (gs : list Group)
    (st : Sys SubmissionSupervisor) :
  let s := settings (self st) in
  let p := new_node builder (world st) in
  metadata_label builder <> "" ->
  groups_list groups_arg = Some gs ->
  matches builder gs (store (world st)) = [] ->
  resubmit_failed s && resubmit_failed_as_restart s = false ->
  (forall q, quotaq (self st) = Some q -> is_min_free_space_left q (world st) = true) ->
  dry_run s = false ->
  0 <= max_wait_for_submit s ->
  0 <= wait_after_submit s ->
  num_top (_process_class builder) (store (world st)) <= max_top_processes_running s ->
  num_all (store (world st)) <= max_all_processes_running s ->
  (forall g, g ∈ gs -> is_Some (groups (store (world st)) !! group_label g)) ->
  (0 < fuel)%nat ->
  exists st',
    blocking_submit daemon fuel builder groups_arg st = (Ret (Some p, Some false), st') /\
    ESubmit builder (pk p) ∈ trace st' /\
    p ∈ _submitted_top_processes (self st') /\
    forall g, g ∈ gs -> EAddNodes (group_label g) [pk p] ∈ trace st'.
Proof.
  intros s p Hl Hg Hm Hflags Hquota Hdry Hmax Hafter Htop Hall Hgs Hfuel.
  rewrite blocking_submit_unfold.
  rewrite (bind_run _ _ _ _ _ (find_workchains_run builder groups_arg gs _ Hl Hg)).
  rewrite guarded_world, bind_get_self.
  unfold found_events, found. rewrite Hm.
  cbn [remove_duplicates length Nat.ltb Nat.leb fst snd]. rewrite app_nil_r.
  rewrite load_or_submit_submits; [|done|done|by left].
  cbn [List.filter].
  set (s' := settings (self (logged (repeat EQueryAll (length gs)) (guarded st)))).
  assert (Hs' : s' = s \/ s' = downgraded s) by apply guarded_settings.
  assert (Hdel' : delete_if_stalling s' = false) by apply guarded_delete_if_stalling.
  assert (Hfields :
    max_top_processes_running s' = max_top_processes_running s
    /\ max_all_processes_running s' = max_all_processes_running s
    /\ wait_after_submit s' = wait_after_submit s
    /\ max_wait_for_submit s' = max_wait_for_submit s /\ dry_run s' = false
    /\ resubmit_failed s' = resubmit_failed s
    /\ resubmit_failed_as_restart s' = resubmit_failed_as_restart s).
  { destruct Hs' as [->| ->]; by repeat split. }
  destruct Hfields as (Htop' & Hall' & Hafter' & Hmax' & Hdry' & Hre' & Hrs').
  set (st1 := logged (repeat EQueryAll (length gs)) (guarded st)).
  assert (Hstaged : exists m,
    stage_builder s' builder [] st1 = (Ret builder, logged [EPrint m] st1)).
  { unfold stage_builder. rewrite Hre', Hrs'.
    destruct (resubmit_failed s); [destruct (resubmit_failed_as_restart s)|];
      [done| |]; rewrite (bind_run _ _ _ _ _ (print_run _ _)); eauto. }
  destruct Hstaged as (m & Hstaged).
  unfold submit_branch. rewrite (bind_run _ _ _ _ _ Hstaged).
  set (st2 := logged [EPrint m] st1).
  assert (Hq : exists qev, check_quota st2 = (Ret tt, logged qev st2)).
  { unfold check_quota. rewrite bind_get_self. unfold st2, st1. simpl.
    rewrite guarded_quotaq. destruct (quotaq (self st)) as [q|] eqn:Eq.
    - rewrite (bind_run _ _ _ _ _ (emit_run _ _)), bind_get_world. simpl.
      rewrite guarded_world, (Hquota q eq_refl). simpl.
      by exists [EQuotaCheck].
    - exists []. unfold ret. by rewrite logged_nil. }
  destruct Hq as (qev & Hq).
  rewrite (bind_run _ _ _ _ _ Hq).
  set (st3 := logged qev st2).
  assert (Hw3 : world st3 = world st) by (unfold st3, st2, st1; simpl; apply guarded_world).
  destruct fuel as [|fuel]; [lia|].
  assert (Hline : exists st',
    waiting_line daemon (S fuel) s' (metadata_label builder) (_process_class builder)
      builder gs (if dry_run s' then 1 else 60) 0 st3
    = (Ret (true, Some p, 0), st') /\
    ESubmit builder (pk p) ∈ trace st' /\
    p ∈ _submitted_top_processes (self st') /\
    forall g, g ∈ gs -> EAddNodes (group_label g) [pk p] ∈ trace st').
  { cbn [waiting_line].
    rewrite Hmax'. apply Z.leb_le in Hmax. rewrite Hmax.
    rewrite (bind_run _ _ _ _ _ (sweep_run s' st3 Hdel')).
    rewrite (bind_run _ _ _ _ _ (queue_not_too_full s' (_process_class builder) (swept s' st3)
               ltac:(by rewrite swept_world, Hw3, Htop')
               ltac:(by rewrite swept_world, Hw3, Hall'))).
    set (st4 := logged [EQueryCount; EQueryCount] (swept s' st3)).
    assert (Hw4 : world st4 = world st) by (unfold st4; simpl; by rewrite swept_world).
    unfold try_submit.
    rewrite !bind_assoc, (bind_run _ _ _ _ _ (num_running_top _ _)).
    rewrite !bind_assoc, (bind_run _ _ _ _ _ (num_running_all _ _)).
    rewrite !bind_assoc, (bind_run _ _ _ _ _ (print_run _ _)).
    rewrite Hdry'. cbn [negb].
    rewrite !bind_assoc, (bind_run _ _ _ _ _ (aiida_submit_run _ _)).
    rewrite !bind_assoc, (bind_run _ _ _ _ _ (append_submitted_run _ _)).
    match goal with |- context [appended ?n (submitted builder ?stx)] =>
      set (st5 := appended n (submitted builder stx));
      assert (Hn : n = p) by (unfold p; f_equal; exact Hw4);
      assert (Hw5 : world st5 = world (submitted builder st))
        by (unfold st5, appended, submitted; cbn [world];
            change (world stx) with (world st4); by rewrite Hw4);
      assert (Htr5 : trace st5 = trace stx ++ [ESubmit builder (pk p)])
        by (unfold st5, appended, submitted; cbn [trace];
            change (world stx) with (world st4); by rewrite Hw4);
      assert (Hsub5 : _submitted_top_processes (self st5)
                      = _submitted_top_processes (self stx) ++ [n])
        by reflexivity
    end.
    rewrite Hn in *.
    destruct (attach_run gs p st5) as (st6 & Hattach & Hself6 & Hclock6 & Htr6).
    { intros g Hgin. rewrite Hw5. simpl. by apply Hgs. }
    { rewrite Hw5. unfold is_stored. apply bool_decide_eq_true. simpl.
      rewrite fmap_app, elem_of_app. right. apply list_elem_of_singleton. reflexivity. }
    rewrite !bind_assoc, (bind_run _ _ _ _ _ Hattach).
    rewrite !bind_assoc, (bind_run _ _ _ _ _ (print_run _ _)).
    rewrite !bind_assoc, (bind_run _ _ _ _ _
      (sleep_run daemon (wait_after_submit s' * 60) _ ltac:(rewrite Hafter'; lia))).
    rewrite !bind_ret_l. unfold ret. eexists. split; [reflexivity|].
    cbn [asleep logged self trace]. rewrite Hself6, Htr6.
    split; [|split].
    - rewrite Htr5, !elem_of_app, list_elem_of_singleton. auto.
    - rewrite Hsub5, elem_of_app, list_elem_of_singleton. by right.
    - intros g Hgin. rewrite !elem_of_app. left. left. right.
      apply list_elem_of_fmap. by exists g. }
  destruct Hline as (st' & Hline & Hfacts).
  rewrite (bind_run _ _ _ _ _ Hline). exists st'. by split.
Qed.

(** * The further functions *)

(** ** Validation of process states and exit statuses *)

Lemma elem_of_list_PS ps : ps ∈ list_PS.
Proof. unfold list_PS. destruct ps; set_solver. Qed.

(** X1. [validate_process_states] accepts a list exactly when each of its
    items is a defined process state in the representation [as_string]
    selects: the value string of a state when [as_string] is true, a
    member of the enumeration otherwise. So members of the enumeration are
    rejected under the default [as_string=True], and the empty list is
    accepted. *)
Theorem validate_process_states_iff (process_states : list StateItem) (as_string : bool) :
  validate_process_states process_states as_string = true <->
  forall x, x ∈ process_states ->
    exists ps, x = if as_string then StateStr (value ps) else StateEnum ps.
Proof.
  unfold validate_process_states. rewrite forallb_forall.
  split; intros H x Hx.
  - apply list_elem_of_In, H, bool_decide_eq_true in Hx.
    unfold get_process_states_as in Hx. destruct as_string.
    + apply list_elem_of_fmap in Hx as (s & -> & Hs).
      apply list_elem_of_fmap in Hs as (ps & -> & _). by exists ps.
    + apply list_elem_of_fmap in Hx as (ps & -> & _). by exists ps.
  - apply list_elem_of_In, H in Hx as (ps & ->). apply bool_decide_eq_true.
    unfold get_process_states_as. destruct as_string.
    + apply list_elem_of_fmap. exists (value ps). split; [done|].
      apply list_elem_of_fmap. exists ps. split; [done|apply elem_of_list_PS].
    + apply list_elem_of_fmap. exists ps. split; [done|apply elem_of_list_PS].
Qed.

Lemma exit_code_dict_lookup (exit_codes : list ExitCode) (d0 : gmap Z string) es :
  is_Some (fold_left (fun d ec => <[status ec := message ec]> d) exit_codes d0 !! es)
  <-> is_Some (d0 !! es) \/ es ∈ status <$> exit_codes.
Proof.
  revert d0. induction exit_codes as [|ec l IH]; intros d0; simpl.
  - rewrite elem_of_nil. tauto.
  - rewrite IH, elem_of_cons.
    destruct (decide (status ec = es)) as [->|Hne].
    + rewrite lookup_insert_eq. split; [intros _; right; by left|].
      intros _. left. eauto.
    + rewrite lookup_insert_ne by done. split; [tauto|].
      intros [?|[?|?]]; [tauto|congruence|tauto].
Qed.

(** X2. For a process class, [validate_exit_statuses] answers, and it
    answers true exactly when each given exit status is 0 or a key of the
    dictionary [get_exit_codes(process_cls, as_dict=True)]: the status 0 is
    accepted whether or not the class declares an exit code for it, and
    the empty list is accepted. *)
Theorem validate_exit_statuses_iff (spec_exit_codes : list (string * ExitCode))
    (exit_statuses : list Z) :
  exists d b,
    get_exit_codes (ProcessClass spec_exit_codes) true = inr (ExitCodeDict d) /\
    validate_exit_statuses (ProcessClass spec_exit_codes) exit_statuses = inr b /\
    (b = true <-> forall es, es ∈ exit_statuses -> es = 0 \/ is_Some (d !! es)).
Proof.
  eexists _, _. split; [reflexivity|]. split; [reflexivity|].
  rewrite forallb_forall. split.
  - intros H es Hes. destruct (decide (es = 0)) as [->|Hne]; [by left|right].
    apply exit_code_dict_lookup. right.
    apply (bool_decide_eq_true_1 _), H, filter_In. split; [by apply list_elem_of_In|].
    by rewrite bool_decide_eq_false_2.
  - intros H es [Hes Hne]%filter_In. apply bool_decide_eq_true.
    apply negb_true_iff, bool_decide_eq_false in Hne.
    apply list_elem_of_In, H in Hes as [?|Hes]; [done|].
    apply exit_code_dict_lookup in Hes as [[? Hes]|?]; [|done].
    by rewrite lookup_empty in Hes.
Qed.

(** ** Classification by type *)

Lemma listed_lookup attribute m p k :
  listed attribute m p !! k
  = if bool_decide (attribute p = k) then Some (default [] (m !! k) ++ [p]) else m !! k.
Proof.
  unfold listed. case_bool_decide as Hk.
  - subst k. rewrite lookup_alter_eq.
    destruct (m !! attribute p) as [l|] eqn:E; simpl.
    + by rewrite E.
    + by rewrite lookup_insert_eq.
  - rewrite lookup_alter_ne by done.
    destruct (m !! attribute p); [done|]. by rewrite lookup_insert_ne.
Qed.

Lemma fold_listed_lookup attribute l m k :
  fold_left (listed attribute) l m !! k
  = match List.filter (fun p => bool_decide (attribute p = k)) l with
    | [] => m !! k
    | f => Some (default [] (m !! k) ++ f)
    end.
Proof.
  revert m. induction l as [|p l IH]; intros m; simpl; [done|].
  rewrite IH, listed_lookup.
  destruct (bool_decide (attribute p = k)); [|done]. simpl.
  destruct (List.filter _ l); simpl; [done|]. by rewrite <- app_assoc.
Qed.

Lemma classify_by_type_turn_lookup type_of process_class process_type d p name attribute :
  (name, attribute) ∈ type_indicators type_of process_class process_type ->
  classify_by_type_turn type_of process_class process_type d p !! name
  = (fun m => listed attribute m p) <$> (d !! name).
Proof.
  unfold type_indicators. rewrite !elem_of_cons, elem_of_nil.
  unfold classify_by_type_turn, ensure_list, append_process, listed.
  intros [H|[H|[H|[H|[]]]]]; injection H as -> ->;
    repeat first [rewrite lookup_alter_eq | rewrite lookup_alter_ne by discriminate];
    destruct (d !! _) as [m|]; simpl; try done.
Qed.

Lemma classify_by_type_fold type_of process_class process_type l d name attribute :
  (name, attribute) ∈ type_indicators type_of process_class process_type ->
  fold_left (classify_by_type_turn type_of process_class process_type) l d !! name
  = (fun m => fold_left (listed attribute) l m) <$> (d !! name).
Proof.
  intros Hin. revert d. induction l as [|p l IH]; intros d; simpl.
  - by destruct (d !! name).
  - rewrite IH, (classify_by_type_turn_lookup _ _ _ _ _ _ _ Hin).
    by destruct (d !! name).
Qed.

(** X3. [classify_by_type] files every process of the batch under each of
    the four type indicators: the dictionary of an indicator has, under a
    value of the attribute, the processes of the batch with that value, in
    the order of the batch and as often as the batch lists them, and has
    no key for a value no process bears. *)
Theorem classify_by_type_lists type_of process_class process_type
    (c : ProcessClassifier) (name : string) (attribute : ProcessNode -> string) :
  (name, attribute) ∈ type_indicators type_of process_class process_type ->
  exists m,
    classify_by_type type_of process_class process_type c !! name = Some m /\
    forall k, m !! k = with_attribute attribute k (_unclassified_processes c).
Proof.
  intros Hin. unfold classify_by_type.
  rewrite (classify_by_type_fold _ _ _ _ _ _ _ Hin).
  assert (Hempty : classified_by_type_empty !! name = Some ∅).
  { revert Hin. unfold type_indicators. rewrite !elem_of_cons, elem_of_nil.
    intros [H|[H|[H|[H|[]]]]]; injection H as -> _; vm_compute; reflexivity. }
  rewrite Hempty. simpl. eexists. split; [reflexivity|].
  intros k. rewrite fold_listed_lookup, lookup_empty. unfold with_attribute.
  by destruct (List.filter _ _).
Qed.

(** ** Processes with excepted children *)

Lemma dict_get_app_None {V} (k : ProcessNode) (d : list (ProcessNode * V)) v :
  dict_get k d = None -> dict_get k (d ++ [(k, v)]) = Some v.
Proof.
  induction d as [|[k' v'] d IH]; simpl.
  - by rewrite bool_decide_eq_true_2.
  - destruct (bool_decide (k' = k)); [done|exact IH].
Qed.

Lemma dict_set_None {V} (k : ProcessNode) (d : list (ProcessNode * V)) v :
  dict_get k d = None -> dict_set k v d = d ++ [(k, v)].
Proof.
  induction d as [|[k' v'] d IH]; simpl; [done|].
  destruct (bool_decide (k' = k)); [done|]. intros H. by rewrite IH.
Qed.

Lemma dict_set_app {V} (k : ProcessNode) (d : list (ProcessNode * V)) v v' :
  dict_get k d = None -> dict_set k v' (d ++ [(k, v)]) = d ++ [(k, v')].
Proof.
  induction d as [|[k0 v0] d IH]; simpl.
  - by rewrite bool_decide_eq_true_2.
  - destruct (bool_decide (k0 = k)); [done|]. intros H. by rewrite IH.
Qed.

Lemma dict_get_app_ne {V} (k k' : ProcessNode) (d : list (ProcessNode * V)) v :
  k' <> k -> dict_get k (d ++ [(k', v)]) = dict_get k d.
Proof.
  intros Hne. induction d as [|[k0 v0] d IH]; simpl.
  - by rewrite bool_decide_eq_false_2.
  - by destruct (bool_decide (k0 = k)).
Qed.

(** The inner loop, once the process has its entry. *)
Lemma note_excepted_listed process d l children :
  dict_get process d = None -> l <> [] ->
  fold_left (note_excepted process) children (d ++ [(process, l)])
  = d ++ [(process,
           l ++ List.filter (fun child => bool_decide (process_state child = EXCEPTED))
                  children)].
Proof.
  intros Hd. revert l. induction children as [|child children IH]; intros l Hl; simpl.
  - by rewrite app_nil_r.
  - unfold note_excepted at 2. destruct (bool_decide (process_state child = EXCEPTED)).
    + rewrite (dict_get_app_None _ _ _ Hd). destruct l as [|x l]; [done|].
      rewrite (dict_get_app_None _ _ _ Hd), (dict_set_app _ _ _ _ Hd).
      rewrite IH by (by destruct l). by rewrite <- app_assoc.
    + by apply IH.
Qed.

(** The inner loop for a process that has no entry yet. *)
Lemma note_excepted_new get_outgoing process d :
  dict_get process d = None ->
  fold_left (note_excepted process) (get_outgoing process) d
  = match excepted_children get_outgoing process with
    | [] => d
    | l => d ++ [(process, l)]
    end.
Proof.
  intros Hd. unfold excepted_children.
  induction (get_outgoing process) as [|child children IH]; simpl; [done|].
  unfold note_excepted at 2. destruct (bool_decide (process_state child = EXCEPTED)).
  - rewrite Hd, (dict_set_None _ _ _ Hd), (dict_get_app_None _ _ _ Hd).
    rewrite (dict_set_app _ _ _ _ Hd). simpl.
    by rewrite note_excepted_listed.
  - exact IH.
Qed.

(** X4. For every [to_depth] up to 1 (0 and negative depths included, the
    argument being tested for [> 1] only) and processes that are pairwise
    distinct, [find_partially_excepted_processes] returns, in the order of
    the list, the processes that have a child in state excepted, each with
    all its excepted children in the order of its outgoing links. The state
    of the process itself is not looked at: a process that has excepted is
    listed as well when a child of it has. *)
Theorem find_partially_excepted_processes_lists
    (get_outgoing : ProcessNode -> list ProcessNode)
    (processes : list ProcessNode) (to_depth : Z) :
  to_depth <= 1 ->
  NoDup processes ->
  find_partially_excepted_processes get_outgoing processes to_depth
  = inr ((fun process => (process, excepted_children get_outgoing process))
           <$> List.filter
                 (fun process =>
                    negb (bool_decide (excepted_children get_outgoing process = [])))
                 processes).
Proof.
  intros Hdepth Hnd. unfold find_partially_excepted_processes.
  apply Z.ltb_ge in Hdepth. rewrite Hdepth. f_equal.
  set (entry := fun process => (process, excepted_children get_outgoing process)).
  set (partial := fun process =>
         negb (bool_decide (excepted_children get_outgoing process = []))).
  assert (Hgen : forall d,
    (forall p, p ∈ processes -> dict_get p d = None) ->
    fold_left
      (fun processes_excepted process =>
         fold_left (note_excepted process) (get_outgoing process) processes_excepted)
      processes d
    = d ++ (entry <$> List.filter partial processes)).
  { induction processes as [|p l IH]; intros d Hd; simpl.
    - by rewrite app_nil_r.
    - apply NoDup_cons in Hnd as [Hp Hnd].
      rewrite note_excepted_new by (apply Hd, elem_of_cons; by left).
      unfold partial at 1.
      destruct (excepted_children get_outgoing p) as [|c cs] eqn:Hc.
      + rewrite bool_decide_eq_true_2 by done. simpl. apply IH; [done|].
        intros q Hq. apply Hd, elem_of_cons. by right.
      + rewrite bool_decide_eq_false_2 by done. simpl.
        rewrite IH; [|done|].
        * unfold entry at 2. rewrite Hc. by rewrite <- app_assoc.
        * intros q Hq. rewrite dict_get_app_ne by (intros ->; done).
          apply Hd, elem_of_cons. by right. }
  by rewrite Hgen.
Qed.

(** ** Convergence of a kkr calculation *)

Ltac decide_outcome :=
  solve
    [ repeat match goal with
             | |- _ /\ _ => split
             | |- _ <-> _ => split
             end;
      first
        [ done
        | intros;
          repeat match goal with
                 | H : exists _, _ |- _ => destruct H
                 | H : _ /\ _ |- _ => destruct H
                 | H : _ \/ _ |- _ => destruct H
                 end;
          simplify_eq; first [congruence | eauto 10] ] ].

(** X5. [check_if_kkr_calc_converged] returns without an exception, and
    then without printing, exactly when the output parameters hold a
    dictionary under ["convergence_group"] whose entry
    ["calculation_converged"] is equal to [True] (the numbers 1 and 1.0 are).
    It prints its message exactly when it raises [KeyError], which is
    exactly when one of the two keys is missing from its dictionary; an
    entry that is not equal to [True] is an [AssertionError] without a
    message. *)
Theorem check_if_kkr_calc_converged_outcome (kkr_calc : CalcJobNode) :
  (check_if_kkr_calc_converged kkr_calc = ([], inr tt) <->
   exists d g v,
     output_parameters kkr_calc = Some d /\
     d !! "convergence_group" = Some (PyDict g) /\
     g !! "calculation_converged" = Some v /\ eq_True v = true) /\
  (snd (check_if_kkr_calc_converged kkr_calc) = inl KeyError <->
   exists d,
     output_parameters kkr_calc = Some d /\
     (d !! "convergence_group" = None \/
      exists g, d !! "convergence_group" = Some (PyDict g)
                /\ g !! "calculation_converged" = None)) /\
  (fst (check_if_kkr_calc_converged kkr_calc) = [not_a_kkr_calculation] <->
   snd (check_if_kkr_calc_converged kkr_calc) = inl KeyError) /\
  (snd (check_if_kkr_calc_converged kkr_calc) = inl AssertionError <->
   exists d g v,
     output_parameters kkr_calc = Some d /\
     d !! "convergence_group" = Some (PyDict g) /\
     g !! "calculation_converged" = Some v /\ eq_True v = false).
Proof.
  unfold check_if_kkr_calc_converged, getitem.
  destruct (output_parameters kkr_calc) as [d|]; simpl; [|decide_outcome].
  destruct (d !! "convergence_group") as [cg|] eqn:Hcg; simpl; [|decide_outcome].
  destruct cg as [| | | | | |g]; simpl; try decide_outcome.
  destruct (g !! "calculation_converged") as [v|] eqn:Hv; simpl; [|decide_outcome].
  destruct (eq_True v) eqn:Hc; simpl; decide_outcome.
Qed.

(** ** The keys of [itemize_list] *)

Lemma pretty_N_go_head (x : N) (s : string) :
  (0 < x)%N -> exists c r, pretty_N_go x s = String c r /\ c <> "0"%char.
Proof.
  revert s. induction (N.lt_wf_0 x) as [x _ IH]; intros s Hx.
  rewrite pretty_N_go_step by done.
  destruct (decide (x `div` 10 = 0)%N) as [Hd|Hd].
  - rewrite Hd, pretty_N_go_0. eexists _, _. split; [reflexivity|].
    assert (Hlt : (x < 10)%N) by (apply N.div_small_iff in Hd; lia).
    rewrite N.mod_small by done.
    assert (x = 1 \/ x = 2 \/ x = 3 \/ x = 4 \/ x = 5 \/ x = 6
            \/ x = 7 \/ x = 8 \/ x = 9)%N as Hcases by lia.
    destruct Hcases as [->|[->|[->|[->|[->|[->|[->|[->| ->]]]]]]]]; by compute.
  - apply IH; [apply N.div_lt; lia | by apply N.neq_0_lt_0].
Qed.

(** The decimal digits of a number: ["0"], or a string that does not begin
    with the digit 0. *)
Lemma pretty_nat_digits (n : nat) :
  pretty n = "0"%string \/ exists c r, pretty n = String c r /\ c <> "0"%char.
Proof.
  unfold pretty, pretty_nat, pretty, pretty_N.
  destruct (decide (N.of_nat n = 0%N)); [by left|right].
  apply pretty_N_go_head. lia.
Qed.

Lemma zeros_digits_inj (a b : nat) (p q : string) :
  (p = "0"%string \/ exists c r, p = String c r /\ c <> "0"%char) ->
  (q = "0"%string \/ exists c r, q = String c r /\ c <> "0"%char) ->
  (zeros a ++ p = zeros b ++ q)%string -> p = q.
Proof.
  intros Hp Hq. revert b. induction a as [|a IH]; intros [|b]; simpl.
  - done.
  - destruct Hp as [->|(c & r & -> & Hc)]; intros H.
    + injection H as H. destruct b; simpl in H; [|discriminate].
      destruct Hq as [->|(? & ? & -> & _)]; discriminate.
    + injection H as H1 H2. congruence.
  - destruct Hq as [->|(c & r & -> & Hc)]; intros H.
    + injection H as H. destruct a; simpl in H; [|discriminate].
      destruct Hp as [->|(? & ? & -> & _)]; discriminate.
    + injection H as H1 H2. congruence.
  - intros H. injection H as H. by apply IH in H.
Qed.

Lemma item_key_inj (len_a_list i j : nat) :
  item_key len_a_list i = item_key len_a_list j -> i = j.
Proof.
  unfold item_key, format_zeropad. intros H. simpl in H. injection H as H.
  apply zeros_digits_inj in H; [|apply pretty_nat_digits..].
  by apply (inj pretty) in H.
Qed.

Lemma fold_insert_lookup_ne {V} (E : list (string * V)) (m : gmap string V) k :
  k ∉ E.*1 -> fold_left (fun m kv => <[kv.1 := kv.2]> m) E m !! k = m !! k.
Proof.
  revert m. induction E as [|[k0 v0] E IH]; intros m Hk; simpl; [done|].
  simpl in Hk. apply not_elem_of_cons in Hk as [Hne Hk].
  rewrite IH by done. by rewrite lookup_insert_ne.
Qed.

Lemma fold_insert_lookup {V} (E : list (string * V)) (m : gmap string V) k v :
  NoDup E.*1 -> (k, v) ∈ E ->
  fold_left (fun m kv => <[kv.1 := kv.2]> m) E m !! k = Some v.
Proof.
  revert m. induction E as [|[k0 v0] E IH]; intros m Hnd Hin; simpl.
  - by apply elem_of_nil in Hin.
  - simpl in Hnd. apply NoDup_cons in Hnd as [Hk0 Hnd].
    apply elem_of_cons in Hin as [Heq|Hin].
    + injection Heq as -> ->. rewrite fold_insert_lookup_ne by done.
      apply lookup_insert_eq.
    + by apply IH.
Qed.

Lemma fold_insert_size {V} (E : list (string * V)) (m : gmap string V) :
  NoDup E.*1 -> (forall k, k ∈ E.*1 -> m !! k = None) ->
  size (fold_left (fun m kv => <[kv.1 := kv.2]> m) E m) = (size m + length E)%nat.
Proof.
  revert m. induction E as [|[k0 v0] E IH]; intros m Hnd Hm; simpl; [lia|].
  simpl in Hnd, Hm. apply NoDup_cons in Hnd as [Hk0 Hnd].
  rewrite IH; [|done|].
  - rewrite map_size_insert_None; [lia|]. apply Hm, elem_of_cons. by left.
  - intros k Hk. rewrite lookup_insert_ne by (intros ->; done).
    apply Hm, elem_of_cons. by right.
Qed.

Section ItemizeListRuns.
Context (Data : Type) (new : orm.Data_class -> Argument -> PyValue -> PyError + Data).

Lemma itemize_loop_run (a_list items : list PyValue) (index : nat)
    (a_dict : gmap string Data) :
  drop index a_list = items ->
  (forall item orm_cls, item ∈ items -> type_correspondence item = Some orm_cls ->
     is_Some (made Data new orm_cls item)) ->
  itemize_loop Data new (type_correspondence <$> a_list)
    (imap (fun index _ => item_key (length a_list) index) a_list) index items a_dict
  = inr (fold_left (fun m kv => <[kv.1 := kv.2]> m)
           (entries Data new (length a_list) index items) a_dict).
Proof.
  revert index a_dict. induction items as [|item items IH]; intros index a_dict Hdrop Hnew;
    [done|].
  assert (Hlook : a_list !! index = Some item).
  { pose proof (lookup_drop a_list index 0) as H.
    rewrite Hdrop, Nat.add_0_r in H. by rewrite <- H. }
  assert (Hrest : drop (S index) a_list = items).
  { rewrite (drop_S _ _ _ Hlook) in Hdrop. by injection Hdrop. }
  assert (Hnew' : forall item' orm_cls, item' ∈ items ->
            type_correspondence item' = Some orm_cls ->
            is_Some (made Data new orm_cls item')).
  { intros item' c Hin. apply Hnew, elem_of_cons. by right. }
  cbn [itemize_loop entries].
  rewrite list_lookup_fmap, Hlook. cbn [fmap option_fmap option_map].
  destruct (type_correspondence item) as [orm_cls|] eqn:Hcls; cbn [mbind option_bind].
  - rewrite list_lookup_imap, Hlook. cbn [fmap option_fmap option_map].
    destruct (Hnew item orm_cls) as [value Hvalue];
      [apply elem_of_cons; by left | done |].
    rewrite Hvalue. unfold made in Hvalue.
    destruct (make_value Data new orm_cls item) as [e|value']; [done|].
    injection Hvalue as ->. cbn [fold_left]. by apply IH.
  - by apply IH.
Qed.

Lemma elem_of_entries (n index : nat) (items : list PyValue) key value :
  (key, value) ∈ entries Data new n index items <->
  exists j item,
    items !! j = Some item /\ key = item_key n (index + j)
    /\ type_correspondence item ≫= (fun orm_cls => made Data new orm_cls item)
       = Some value.
Proof.
  revert index. induction items as [|item items IH]; intros index; cbn [entries].
  - rewrite elem_of_nil. split; [done|]. by intros (j & item & H & _).
  - assert (Hshift :
      (key, value) ∈ entries Data new n (S index) items <->
      exists j item', (item :: items) !! S j = Some item' /\ key = item_key n (index + S j)
        /\ type_correspondence item' ≫= (fun orm_cls => made Data new orm_cls item')
           = Some value).
    { rewrite IH. by setoid_rewrite Nat.add_succ_r. }
    destruct (type_correspondence item ≫= _) as [v|] eqn:Hv.
    + rewrite elem_of_cons, Hshift. split.
      * intros [Heq|(j & item' & H)].
        -- injection Heq as -> ->. exists 0%nat, item. by rewrite Nat.add_0_r.
        -- by exists (S j), item'.
      * intros ([|j] & item' & Hl & Hk & Hm).
        -- left. injection Hl as <-. rewrite Nat.add_0_r in Hk. congruence.
        -- right. by exists j, item'.
    + rewrite Hshift. split.
      * intros (j & item' & H). by exists (S j), item'.
      * intros ([|j] & item' & Hl & Hk & Hm).
        -- injection Hl as <-. congruence.
        -- by exists j, item'.
Qed.

Lemma entries_keys_NoDup (n index : nat) (items : list PyValue) :
  NoDup (entries Data new n index items).*1.
Proof.
  revert index. induction items as [|item items IH]; intros index; cbn [entries].
  - constructor.
  - destruct (type_correspondence item ≫= _) as [v|]; [|apply IH].
    cbn [fmap list_fmap fst]. apply NoDup_cons. split; [|apply IH].
    intros Hin. apply list_elem_of_fmap in Hin as ([key value] & Hkey & Hin).
    simpl in Hkey. subst key.
    apply elem_of_entries in Hin as (j & item' & _ & Hk & _).
    apply item_key_inj in Hk. lia.
Qed.

Lemma entries_length (n index : nat) (items : list PyValue) :
  (forall item orm_cls, item ∈ items -> type_correspondence item = Some orm_cls ->
     is_Some (made Data new orm_cls item)) ->
  length (entries Data new n index items)
  = length (List.filter (fun item => bool_decide (is_Some (type_correspondence item)))
              items).
Proof.
  revert index. induction items as [|item items IH]; intros index Hnew; cbn [entries];
    [done|].
  assert (Hrec : length (entries Data new n (S index) items)
                 = length (List.filter
                             (fun item => bool_decide (is_Some (type_correspondence item)))
                             items)).
  { apply IH. intros item' c Hin. apply Hnew, elem_of_cons. by right. }
  cbn [List.filter].
  destruct (type_correspondence item) as [orm_cls|] eqn:Hcls; cbn [mbind option_bind].
  - destruct (Hnew item orm_cls) as [value ->]; [apply elem_of_cons; by left | done |].
    rewrite bool_decide_eq_true_2 by eauto. simpl. by rewrite Hrec.
  - rewrite bool_decide_eq_false_2 by (by intros [? ?]). exact Hrec.
Qed.

End ItemizeListRuns.

Lemma no_data_class_iff (a_list : list PyValue) :
  forallb (fun orm_type : option orm.Data_class => bool_decide (is_Some orm_type))
    (type_correspondence <$> a_list) = false
  <-> exists item, item ∈ a_list /\ type_correspondence item = None.
Proof.
  induction a_list as [|item l IH]; simpl.
  - split; [done|]. intros (item & Hin & _). by apply elem_of_nil in Hin.
  - rewrite andb_false_iff, IH, bool_decide_eq_false. split.
    + intros [Hno|(item' & Hin & Hnone)].
      * exists item. split; [apply elem_of_cons; by left|].
        destruct (type_correspondence item); [|done]. exfalso. apply Hno. eauto.
      * exists item'. split; [apply elem_of_cons; by right | done].
    + intros (item' & Hin & Hnone). apply elem_of_cons in Hin as [->|Hin].
      * left. rewrite Hnone. by intros [? ?].
      * right. eauto.
Qed.

(** X6. When the constructors of the data classes accept the items,
    [itemize_list] returns a dictionary with one entry for each item that
    has a data class and none for the others: the item at an index is
    under the key ["item_"] followed by the index padded with zeros to the
    width [len(a_list) % 10], keys of different indices are different
    whatever that width, every key is one of these, and the dictionary has
    as many entries as there are items with a data class. The warning is
    printed exactly when an item has none. *)
Theorem itemize_list_entries (Data : Type)
    (new : orm.Data_class -> Argument -> PyValue -> PyError + Data)
    (a_list : list PyValue) :
  (forall item orm_cls, item ∈ a_list -> type_correspondence item = Some orm_cls ->
     is_Some (made Data new orm_cls item)) ->
  exists a_dict,
    snd (itemize_list Data new a_list) = inr a_dict /\
    (forall i j, item_key (length a_list) i = item_key (length a_list) j -> i = j) /\
    (forall index item, a_list !! index = Some item ->
       a_dict !! item_key (length a_list) index
       = type_correspondence item ≫= (fun orm_cls => made Data new orm_cls item)) /\
    (forall key, is_Some (a_dict !! key) ->
       exists index, (index < length a_list)%nat /\ key = item_key (length a_list) index) /\
    size a_dict
    = length (List.filter (fun item => bool_decide (is_Some (type_correspondence item)))
                a_list) /\
    (fst (itemize_list Data new a_list) = true <->
     exists item, item ∈ a_list /\ type_correspondence item = None).
Proof.
  intros Hnew. unfold itemize_list. cbn [fst snd].
  rewrite (itemize_loop_run Data new a_list a_list 0 ∅ eq_refl Hnew).
  set (E := entries Data new (length a_list) 0 a_list).
  assert (Hnd : NoDup E.*1) by apply entries_keys_NoDup.
  eexists. split; [reflexivity|]. split; [intros i j; apply item_key_inj|].
  split; [|split; [|split]].
  - intros index item Hlook.
    destruct (type_correspondence item ≫= _) as [value|] eqn:Hv.
    + apply fold_insert_lookup; [done|]. apply elem_of_entries. by exists index, item.
    + rewrite fold_insert_lookup_ne; [apply lookup_empty|].
      intros Hin. apply list_elem_of_fmap in Hin as ([key value] & Hkey & Hin).
      simpl in Hkey. subst key.
      apply elem_of_entries in Hin as (j & item' & Hl & Hk & Hm).
      apply item_key_inj in Hk. simpl in Hk. subst j.
      rewrite Hlook in Hl. injection Hl as <-. rewrite Hv in Hm. discriminate.
  - intros key [value Hkey].
    destruct (decide (key ∈ E.*1)) as [Hin|Hin].
    + apply list_elem_of_fmap in Hin as ([key' value'] & Hk & Hin). simpl in Hk. subst key'.
      apply elem_of_entries in Hin as (j & item' & Hl & Hk & _).
      exists j. split; [by apply lookup_lt_Some in Hl | done].
    + rewrite fold_insert_lookup_ne in Hkey by done. by rewrite lookup_empty in Hkey.
  - rewrite fold_insert_size; [|done|intros; apply lookup_empty].
    rewrite map_size_empty. simpl. by apply entries_length.
  - rewrite negb_true_iff. apply no_data_class_iff.
Qed.

(** X7. A dictionary among the items is constructed twice: with the
    keyword [dict], and then, the test for [List] being an [if] of its own,
    positionally, which is the value the key receives. So when the
    constructors accept the items before it and [Dict(dict=item)], and the
    positional [Dict(item)] raises, [itemize_list] raises that exception. *)
Theorem itemize_list_dict_positional (Data : Type)
    (new : orm.Data_class -> Argument -> PyValue -> PyError + Data)
    (a_list : list PyValue) (index : nat) (d : gmap string PyValue)
    (first : Data) (e : PyError) :
  a_list !! index = Some (PyDict d) ->
  (forall j item orm_cls, (j < index)%nat -> a_list !! j = Some item ->
     type_correspondence item = Some orm_cls -> is_Some (made Data new orm_cls item)) ->
  new orm.Dict (Keyword "dict") (PyDict d) = inr first ->
  new orm.Dict Positional (PyDict d) = inl e ->
  snd (itemize_list Data new a_list) = inl e.
Proof.
  intros Hlook Hbefore Hkw Hpos. unfold itemize_list. cbn [snd].
  generalize (∅ : gmap string Data).
  assert (Hgen : forall items i a_dict,
    (i <= index)%nat -> drop i a_list = items ->
    itemize_loop Data new (type_correspondence <$> a_list)
      (imap (fun index _ => item_key (length a_list) index) a_list) i items a_dict
    = inl e).
  { induction items as [|item items IH]; intros i a_dict Hi Hdrop.
    - apply lookup_lt_Some in Hlook.
      assert (Hlen : length (drop i a_list) = 0%nat) by (by rewrite Hdrop).
      rewrite length_drop in Hlen. lia.
    - assert (Hitem : a_list !! i = Some item).
      { pose proof (lookup_drop a_list i 0) as H.
        rewrite Hdrop, Nat.add_0_r in H. by rewrite <- H. }
      assert (Hrest : drop (S i) a_list = items).
      { rewrite (drop_S _ _ _ Hitem) in Hdrop. by injection Hdrop. }
      cbn [itemize_loop].
      rewrite list_lookup_fmap, Hitem. cbn [fmap option_fmap option_map].
      destruct (decide (i = index)) as [->|Hne].
      + assert (item = PyDict d) as -> by congruence. cbn [type_correspondence].
        rewrite list_lookup_imap, Hitem. cbn [fmap option_fmap option_map].
        unfold make_value. rewrite bool_decide_eq_true_2 by done.
        rewrite Hkw. rewrite bool_decide_eq_false_2 by done. by rewrite Hpos.
      + destruct (type_correspondence item) as [orm_cls|] eqn:Hcls.
        * rewrite list_lookup_imap, Hitem. cbn [fmap option_fmap option_map].
          destruct (Hbefore i item orm_cls) as [value Hvalue]; [lia|done|done|].
          unfold made in Hvalue.
          destruct (make_value Data new orm_cls item); [done|].
          apply IH; [lia|done].
        * apply IH; [lia|done]. }
  intros a_dict. apply Hgen; [lia|done].
Qed.

(** * Further properties of queries, the supervisor and the classifier *)

(** ** Queries and the properties of the records *)

Lemma filter_andb {A} (f g : A -> bool) (l : list A) :
  List.filter (fun x => f x && g x) l = List.filter f (List.filter g l).
Proof.
  induction l as [|x l IH]; simpl; [done|].
  destruct (g x); simpl; rewrite ?andb_true_r, ?andb_false_r.
  - destruct (f x); by rewrite IH.
  - exact IH.
Qed.

Lemma filter_ext_in {A} (f g : A -> bool) (l : list A) :
  (forall x, f x = g x) -> List.filter f l = List.filter g l.
Proof. intros H. induction l as [|x l IH]; simpl; [done|]. by rewrite H, IH. Qed.

(** X8. The filters of [query_processes] take precedence over one another:
    with [failed] set, [process_states] and [exit_statuses] are ignored and
    the records returned are finished with a positive exit status; without
    it a non-empty [exit_statuses] replaces [process_states] by finished
    and the records returned are finished with one of the given exit
    statuses; an empty [exit_statuses] and an empty [label] filter nothing. *)
Theorem query_processes_precedence (lbl plabel : option string)
    (process_states : option (list string)) (exit_statuses : option (list Z))
    (e : Z) (es : list Z) (group : option Group) (st : Store) :
  query_processes lbl plabel process_states exit_statuses true group st
    = query_processes lbl plabel None None true group st /\
  (forall n, n ∈ query_processes lbl plabel process_states exit_statuses true group st ->
     process_state n = FINISHED /\ exists x, exit_status n = Some x /\ 0 < x) /\
  query_processes lbl plabel process_states (Some (e :: es)) false group st
    = query_processes lbl plabel None (Some (e :: es)) false group st /\
  (forall n, n ∈ query_processes lbl plabel process_states (Some (e :: es)) false group st ->
     process_state n = FINISHED /\ exists x, exit_status n = Some x /\ x ∈ e :: es) /\
  query_processes lbl plabel process_states (Some []) false group st
    = query_processes lbl plabel process_states None false group st /\
  query_processes (Some "") plabel process_states exit_statuses false group st
    = query_processes None plabel process_states exit_statuses false group st.
Proof.
  split; [reflexivity|]. split; [|split; [reflexivity|split; [|split; reflexivity]]].
  - intros n Hn. apply list_elem_of_In, filter_In in Hn as [_ Hn].
    rewrite !andb_true_iff in Hn. destruct Hn as [[[Hn _] _] _].
    unfold state_filter in Hn. apply andb_true_iff in Hn as [Hs He].
    apply bool_decide_eq_true in Hs. split; [done|].
    destruct (exit_status n) as [x|]; [|discriminate He].
    exists x. split; [done|]. by apply bool_decide_eq_true in He.
  - intros n Hn. apply list_elem_of_In, filter_In in Hn as [_ Hn].
    rewrite !andb_true_iff in Hn. destruct Hn as [[[Hn _] _] _].
    unfold state_filter in Hn. cbn [truthy] in Hn.
    apply andb_true_iff in Hn as [Hs He].
    apply bool_decide_eq_true, list_elem_of_singleton in Hs. split.
    + by destruct (process_state n).
    + destruct (exit_status n) as [x|]; [|discriminate He].
      exists x. split; [done|]. by apply bool_decide_eq_true in He.
Qed.

Lemma state_filter_terminated b n :
  state_filter (Some (get_process_states (Some b))) None false n
  = if b then is_terminated n else negb (is_terminated n).
Proof.
  unfold state_filter, is_terminated. cbn [truthy].
  destruct b, (process_state n); vm_compute; reflexivity.
Qed.

Lemma state_filter_finished_ok n :
  state_filter None (Some [0]) false n = is_finished_ok n.
Proof.
  unfold state_filter, is_finished_ok. cbn [truthy].
  destruct (process_state n), (exit_status n) as [x|];
    try (vm_compute; reflexivity).
  cbn [value].
  rewrite (bool_decide_eq_true_2 ("finished"%string ∈ ["finished"%string]))
    by (by apply list_elem_of_singleton).
  rewrite (bool_decide_eq_true_2 (FINISHED = FINISHED)) by done. cbn [andb].
  apply bool_decide_ext. rewrite list_elem_of_singleton. split; congruence.
Qed.

(** X9. The lists [blocking_submit] takes from the matches by the
    properties of the records are what the query with the corresponding
    filter returns: [exit_statuses=[0]] selects the records that are
    [is_finished_ok], the terminated states those that are
    [is_terminated], and the not terminated states, which the counts
    of the running processes use, those that are not. *)
Theorem query_processes_by_state (lbl plabel : option string)
    (group : option Group) (st : Store) :
  query_processes lbl plabel None (Some [0]) false group st
    = List.filter is_finished_ok (query_processes lbl plabel None None false group st) /\
  query_processes lbl plabel (Some (get_process_states (Some true))) None false group st
    = List.filter is_terminated (query_processes lbl plabel None None false group st) /\
  query_processes lbl plabel (Some (get_process_states (Some false))) None false group st
    = List.filter (fun n => negb (is_terminated n))
        (query_processes lbl plabel None None false group st).
Proof.
  unfold query_processes. rewrite <- !filter_andb.
  split; [|split]; apply filter_ext_in; intros n;
    change (state_filter None None false n) with true; cbn [andb];
    rewrite <- !andb_assoc; f_equal.
  - apply state_filter_finished_ok.
  - apply (state_filter_terminated true).
  - apply (state_filter_terminated false).
Qed.

(** ** Duplicates among the matches *)

Lemma remove_duplicates_fresh seen l n :
  n ∈ remove_duplicates seen l -> uuid n ∉ seen.
Proof.
  revert seen. induction l as [|x l IH]; intros seen; simpl.
  - by intros ?%elem_of_nil.
  - case_bool_decide as Hx.
    + apply IH.
    + rewrite elem_of_cons. intros [->|Hn]; [done|].
      apply IH in Hn. intros Hs. apply Hn, elem_of_app. by left.
Qed.

Lemma remove_duplicates_NoDup seen l : NoDup (uuid <$> remove_duplicates seen l).
Proof.
  revert seen. induction l as [|x l IH]; intros seen; simpl.
  - constructor.
  - case_bool_decide as Hx; [apply IH|].
    cbn [fmap list_fmap]. apply NoDup_cons. split; [|apply IH].
    intros Hin. apply list_elem_of_fmap in Hin as (n & Hu & Hn).
    apply remove_duplicates_fresh in Hn. apply Hn.
    rewrite elem_of_app, list_elem_of_singleton. by right.
Qed.

Lemma remove_duplicates_covers seen l n :
  n ∈ l -> uuid n ∈ seen \/ uuid n ∈ uuid <$> remove_duplicates seen l.
Proof.
  revert seen. induction l as [|x l IH]; intros seen; simpl.
  - by intros ?%elem_of_nil.
  - rewrite elem_of_cons. intros [->|Hn].
    + case_bool_decide as Hx; [by left|right].
      cbn [fmap list_fmap]. apply elem_of_cons. by left.
    + case_bool_decide as Hx; [by apply IH|].
      destruct (IH (seen ++ [uuid x]) Hn) as [Hs|Hr].
      * apply elem_of_app in Hs as [Hs|Hs]; [by left|].
        apply list_elem_of_singleton in Hs. right.
        cbn [fmap list_fmap]. apply elem_of_cons. by left.
      * right. cbn [fmap list_fmap]. apply elem_of_cons. by right.
Qed.

Lemma remove_duplicates_sublist seen l : remove_duplicates seen l `sublist_of` l.
Proof.
  revert seen. induction l as [|x l IH]; intros seen; simpl.
  - constructor.
  - case_bool_decide; [apply sublist_cons | apply sublist_skip]; apply IH.
Qed.

(** X10. The matches that [blocking_submit] keeps once the duplicates are
    removed are a sublist of the matches collected from the groups, in
    their order, with no uuid twice and with every uuid of the matches
    collected; the first record of the matches, if any, is kept first. *)
Theorem remove_duplicates_unique (workchains : list ProcessNode) :
  remove_duplicates [] workchains `sublist_of` workchains /\
  NoDup (uuid <$> remove_duplicates [] workchains) /\
  (forall wc, wc ∈ workchains ->
     uuid wc ∈ uuid <$> remove_duplicates [] workchains) /\
  head (remove_duplicates [] workchains) = head workchains.
Proof.
  split; [apply remove_duplicates_sublist|]. split; [apply remove_duplicates_NoDup|].
  split.
  - intros wc Hwc. destruct (remove_duplicates_covers [] _ _ Hwc) as [H|H]; [|done].
    by apply elem_of_nil in H.
  - destruct workchains as [|wc l]; [done|]. cbn [remove_duplicates].
    by rewrite bool_decide_eq_false_2 by apply not_elem_of_nil.
Qed.

(** ** Loading instead of submitting *)

(** X11. A builder whose label is not set is refused before anything
    else is looked at: the call raises [ValueError] whatever [groups] is,
    [None] included; only the guard has run, the world and the tracked list
    are as they were, and the trace holds at most the guard's warning
    more. *)
Theorem blocking_submit_label_unset daemon fuel (builder : ProcessBuilder)
    (groups : GroupsArg) (st : Sys SubmissionSupervisor) :
  metadata_label builder = "" ->
  blocking_submit daemon fuel builder groups st = (Raise ValueError, guarded st) /\
  world (guarded st) = world st /\
  _submitted_top_processes (self (guarded st)) = _submitted_top_processes (self st) /\
  forall e, e ∈ trace (guarded st) ->
    e ∈ trace st \/ e = EPrint WarnDeleteIfStallingUnsupported.
Proof.
  intros Hl. split.
  - rewrite blocking_submit_unfold.
    assert (Hfind : find_workchains (X := SubmissionSupervisor) builder groups (guarded st)
                    = (Raise ValueError, guarded st)).
    { unfold find_workchains. by rewrite bool_decide_eq_true_2. }
    by rewrite (bind_raise _ _ _ _ _ Hfind).
  - split; [apply guarded_world|]. split; [apply guarded_submitted|].
    intros e. rewrite guarded_trace, elem_of_app.
    destruct (delete_if_stalling _); intros [H|H]; auto.
    + apply list_elem_of_singleton in H. auto.
    + by apply elem_of_nil in H.
Qed.

Lemma found_stored builder gs st n :
  metadata_label builder <> "" -> n ∈ found builder gs st -> n ∈ nodes st.
Proof.
  intros Hl Hn. apply remove_duplicates_subset in Hn.
  by apply elem_of_matches in Hn as [Hn _].
Qed.

Lemma guard_events_quiet st :
  Forall reads_or_prints
    (if delete_if_stalling (settings (self st))
     then [EPrint WarnDeleteIfStallingUnsupported] else []).
Proof.
  destruct (delete_if_stalling _); [|constructor].
  constructor; [|constructor]. right. eauto.
Qed.

(** X12. When no match is finished_ok, a match is terminated, and failed
    processes are not resubmitted ([resubmit_failed=False]), the call
    returns the first terminated match with [from_db=True], whether or not
    other matches are still in the queue: the world and the tracked list
    are as they were, and the call has only queried the groups and
    printed. *)
Theorem blocking_submit_terminated_no_retry daemon fuel (builder : ProcessBuilder)
    (groups : GroupsArg) (gs : list Group) (st : Sys SubmissionSupervisor)
    (wc : ProcessNode) (others : list ProcessNode) :
  store_wf (store (world st)) ->
  metadata_label builder <> "" ->
  groups_list groups = Some gs ->
  List.filter is_finished_ok (found builder gs (store (world st))) = [] ->
  List.filter is_terminated (found builder gs (store (world st))) = wc :: others ->
  resubmit_failed (settings (self st)) = false ->
  exists st',
    blocking_submit daemon fuel builder groups st = (Ret (Some wc, Some true), st') /\
    world st' = world st /\
    _submitted_top_processes (self st') = _submitted_top_processes (self st) /\
    exists new, trace st' = trace st ++ new /\ Forall reads_or_prints new.
Proof.
  intros Hwf Hl Hg Hok Hterm Hre.
  rewrite blocking_submit_unfold.
  rewrite (bind_run _ _ _ _ _ (find_workchains_run builder groups gs _ Hl Hg)).
  rewrite guarded_world, bind_get_self. cbn [fst snd].
  unfold load_or_submit. rewrite Hok, Hterm.
  cbn [logged self]. rewrite guarded_resubmit_failed, Hre.
  set (st1 := logged (found_events builder gs (store (world st))) (guarded st)).
  assert (Hin : wc ∈ nodes (store (world st))).
  { apply (found_stored builder gs); [done|].
    assert (H : wc ∈ List.filter is_terminated (found builder gs (store (world st))))
      by (rewrite Hterm; apply elem_of_cons; by left).
    by apply list_elem_of_In, filter_In in H as [H%list_elem_of_In _]. }
  assert (Hload : load_node (pk wc) st1 = (Ret wc, st1)).
  { apply load_node_run; unfold st1; simpl; by rewrite guarded_world. }
  rewrite (bind_run _ _ _ _ _ Hload), (bind_run _ _ _ _ _ (print_run _ _)).
  eexists. split; [reflexivity|].
  split; [simpl; apply guarded_world|]. split; [simpl; apply guarded_submitted|].
  simpl. rewrite guarded_trace, <- !app_assoc. eexists. split; [reflexivity|].
  apply Forall_app. split; [apply guard_events_quiet|].
  apply Forall_app. split; [apply found_events_quiet|].
  constructor; [|constructor]. right. eauto.
Qed.

(** X13. When no match is finished_ok, a match is not terminated, and the
    terminated matches, if any, are to be resubmitted, the call takes the
    first match that is not terminated as being in the queue already: it
    returns it with [from_db=False] and appends it to the tracked list, at
    every such call anew; nothing is submitted, the world is as it was, and
    the call has only queried the groups and printed. *)
Theorem blocking_submit_not_terminated daemon fuel (builder : ProcessBuilder)
    (groups : GroupsArg) (gs : list Group) (st : Sys SubmissionSupervisor)
    (wc : ProcessNode) (others : list ProcessNode) :
  store_wf (store (world st)) ->
  metadata_label builder <> "" ->
  groups_list groups = Some gs ->
  List.filter is_finished_ok (found builder gs (store (world st))) = [] ->
  (List.filter is_terminated (found builder gs (store (world st))) = []
   \/ resubmit_failed (settings (self st)) = true) ->
  List.filter (fun proc => negb (is_terminated proc))
    (found builder gs (store (world st))) = wc :: others ->
  exists st',
    blocking_submit daemon fuel builder groups st = (Ret (Some wc, Some false), st') /\
    world st' = world st /\
    _submitted_top_processes (self st') = _submitted_top_processes (self st) ++ [wc] /\
    exists new, trace st' = trace st ++ new /\ Forall reads_or_prints new.
Proof.
  intros Hwf Hl Hg Hok Hres Hnt.
  rewrite blocking_submit_unfold.
  rewrite (bind_run _ _ _ _ _ (find_workchains_run builder groups gs _ Hl Hg)).
  rewrite guarded_world, bind_get_self. cbn [fst snd].
  set (st1 := logged (found_events builder gs (store (world st))) (guarded st)).
  assert (Hin : wc ∈ nodes (store (world st))).
  { apply (found_stored builder gs); [done|].
    assert (H : wc ∈ List.filter (fun proc => negb (is_terminated proc))
                       (found builder gs (store (world st))))
      by (rewrite Hnt; apply elem_of_cons; by left).
    by apply list_elem_of_In, filter_In in H as [H%list_elem_of_In _]. }
  assert (Hload : load_node (pk wc) st1 = (Ret wc, st1)).
  { apply load_node_run; unfold st1; simpl; by rewrite guarded_world. }
  assert (Hbranch :
    load_or_submit daemon fuel (settings (self st1)) builder gs
      (found builder gs (store (world st))) st1
    = bind (load_node (pk wc)) (fun next_process =>
        bind (append_submitted next_process) (fun _ =>
          bind (print (IsNotTerminated (metadata_label builder))) (fun _ =>
            ret (Some next_process, Some false)))) st1).
  { unfold load_or_submit. rewrite Hok, Hnt.
    destruct Hres as [->|Hre]; [by destruct (resubmit_failed (settings (self st1)))|].
    unfold st1. cbn [logged self]. rewrite guarded_resubmit_failed, Hre.
    by destruct (List.filter is_terminated _). }
  rewrite Hbranch, (bind_run _ _ _ _ _ Hload).
  rewrite (bind_run _ _ _ _ _ (append_submitted_run _ _)).
  rewrite (bind_run _ _ _ _ _ (print_run _ _)).
  eexists. split; [reflexivity|].
  split; [simpl; apply guarded_world|].
  split; [simpl; by rewrite guarded_submitted|].
  simpl. rewrite guarded_trace, <- !app_assoc. eexists. split; [reflexivity|].
  apply Forall_app. split; [apply guard_events_quiet|].
  apply Forall_app. split; [apply found_events_quiet|].
  constructor; [|constructor]. right. eauto.
Qed.

(** ** Restarting a failed process *)

(** The submit branch with a staged request, a free queue and enough
    quota: the request is submitted at the first poll. *)
Lemma submit_branch_submits daemon fuel s (builder : ProcessBuilder) (gs : list Group)
    (wts : list ProcessNode) (_builder : ProcessBuilder) (m : Msg)
    (st1 : Sys SubmissionSupervisor) :
  let p := new_node _builder (world st1) in
  stage_builder s builder wts st1 = (Ret _builder, logged [EPrint m] st1) ->
  (forall q, quotaq (self st1) = Some q -> is_min_free_space_left q (world st1) = true) ->
  delete_if_stalling s = false ->
  dry_run s = false ->
  0 <= max_wait_for_submit s ->
  0 <= wait_after_submit s ->
  num_top (_process_class builder) (store (world st1)) <= max_top_processes_running s ->
  num_all (store (world st1)) <= max_all_processes_running s ->
  (forall g, g ∈ gs -> is_Some (groups (store (world st1)) !! group_label g)) ->
  (0 < fuel)%nat ->
  exists st',
    submit_branch daemon fuel s builder gs wts st1 = (Ret (Some p, Some false), st') /\
    ESubmit _builder (pk p) ∈ trace st' /\
    p ∈ _submitted_top_processes (self st') /\
    forall g, g ∈ gs -> EAddNodes (group_label g) [pk p] ∈ trace st'.
Proof.
  intros p Hstaged Hquota Hdel Hdry Hmax Hafter Htop Hall Hgs Hfuel.
  unfold submit_branch. rewrite (bind_run _ _ _ _ _ Hstaged).
  set (st2 := logged [EPrint m] st1).
  assert (Hq : exists qev, check_quota st2 = (Ret tt, logged qev st2)).
  { unfold check_quota. rewrite bind_get_self. unfold st2. cbn [logged self].
    destruct (quotaq (self st1)) as [q|] eqn:Eq.
    - rewrite (bind_run _ _ _ _ _ (emit_run _ _)), bind_get_world. cbn [logged world].
      rewrite (Hquota q eq_refl). cbn [negb]. by exists [EQuotaCheck].
    - exists []. unfold ret. by rewrite logged_nil. }
  destruct Hq as (qev & Hq). rewrite (bind_run _ _ _ _ _ Hq).
  set (st3 := logged qev st2).
  assert (Hw3 : world st3 = world st1) by reflexivity.
  destruct fuel as [|fuel]; [lia|].
  assert (Hline : exists st',
    waiting_line daemon (S fuel) s (metadata_label builder) (_process_class builder)
      _builder gs (if dry_run s then 1 else 60) 0 st3
    = (Ret (true, Some p, 0), st') /\
    ESubmit _builder (pk p) ∈ trace st' /\
    p ∈ _submitted_top_processes (self st') /\
    forall g, g ∈ gs -> EAddNodes (group_label g) [pk p] ∈ trace st').
  { cbn [waiting_line].
    apply Z.leb_le in Hmax. rewrite Hmax.
    rewrite (bind_run _ _ _ _ _ (sweep_run s st3 Hdel)).
    rewrite (bind_run _ _ _ _ _ (queue_not_too_full s (_process_class builder) (swept s st3)
               ltac:(by rewrite swept_world, Hw3)
               ltac:(by rewrite swept_world, Hw3))).
    set (st4 := logged [EQueryCount; EQueryCount] (swept s st3)).
    assert (Hw4 : world st4 = world st1) by (unfold st4; simpl; by rewrite swept_world).
    unfold try_submit.
    rewrite !bind_assoc, (bind_run _ _ _ _ _ (num_running_top _ _)).
    rewrite !bind_assoc, (bind_run _ _ _ _ _ (num_running_all _ _)).
    rewrite !bind_assoc, (bind_run _ _ _ _ _ (print_run _ _)).
    rewrite Hdry. cbn [negb].
    rewrite !bind_assoc, (bind_run _ _ _ _ _ (aiida_submit_run _ _)).
    rewrite !bind_assoc, (bind_run _ _ _ _ _ (append_submitted_run _ _)).
    match goal with |- context [appended ?n (submitted _builder ?stx)] =>
      set (st5 := appended n (submitted _builder stx));
      assert (Hn : n = p) by (unfold p; f_equal; exact Hw4);
      assert (Hw5 : world st5 = world (submitted _builder st1))
        by (unfold st5, appended, submitted; cbn [world];
            change (world stx) with (world st4); by rewrite Hw4);
      assert (Htr5 : trace st5 = trace stx ++ [ESubmit _builder (pk p)])
        by (unfold st5, appended, submitted; cbn [trace];
            change (world stx) with (world st4); by rewrite Hw4);
      assert (Hsub5 : _submitted_top_processes (self st5)
                      = _submitted_top_processes (self stx) ++ [n])
        by reflexivity
    end.
    rewrite Hn in *.
    destruct (attach_run gs p st5) as (st6 & Hattach & Hself6 & Hclock6 & Htr6).
    { intros g Hgin. rewrite Hw5. simpl. by apply Hgs. }
    { rewrite Hw5. unfold is_stored. apply bool_decide_eq_true. simpl.
      rewrite fmap_app, elem_of_app. right. apply list_elem_of_singleton. reflexivity. }
    rewrite !bind_assoc, (bind_run _ _ _ _ _ Hattach).
    rewrite !bind_assoc, (bind_run _ _ _ _ _ (print_run _ _)).
    rewrite !bind_assoc, (bind_run _ _ _ _ _
      (sleep_run daemon (wait_after_submit s * 60) _ ltac:(lia))).
    rewrite !bind_ret_l. unfold ret. eexists. split; [reflexivity|].
    cbn [asleep logged self trace]. rewrite Hself6, Htr6.
    split; [|split].
    - rewrite Htr5, !elem_of_app, list_elem_of_singleton. auto.
    - rewrite Hsub5, elem_of_app, list_elem_of_singleton. by right.
    - intros g Hgin. rewrite !elem_of_app. left. left. right.
      apply list_elem_of_fmap. by exists g. }
  destruct Hline as (st' & Hline & Hfacts).
  rewrite (bind_run _ _ _ _ _ Hline). exists st'. by split.
Qed.

(** X15. When the matches are all terminated and none is finished_ok, and
    both [resubmit_failed] and [resubmit_failed_as_restart] are set, a call
    that finds the queue free (and the quota sufficient, outside a dry run)
    submits at its first poll not the caller's builder but the restart
    builder of the first terminated match, under the caller's label and
    description; the new record is tracked, attached to every group and
    returned with [from_db=False]. *)
Theorem blocking_submit_restart_failed daemon fuel
    (builder : ProcessBuilder) (groups_arg : GroupsArg) (gs : list Group)
    (st : Sys SubmissionSupervisor) (wc : ProcessNode) (others : list ProcessNode) :
  let s := settings (self st) in
  let _builder := restart_builder builder wc in
  let p := new_node _builder (world st) in
  metadata_label builder <> "" ->
  groups_list groups_arg = Some gs ->
  List.filter is_finished_ok (found builder gs (store (world st))) = [] ->
  List.filter (fun proc => negb (is_terminated proc))
    (found builder gs (store (world st))) = [] ->
  List.filter is_terminated (found builder gs (store (world st))) = wc :: others ->
  resubmit_failed s = true ->
  resubmit_failed_as_restart s = true ->
  (forall q, quotaq (self st) = Some q -> is_min_free_space_left q (world st) = true) ->
  dry_run s = false ->
  0 <= max_wait_for_submit s ->
  0 <= wait_after_submit s ->
  num_top (_process_class builder) (store (world st)) <= max_top_processes_running s ->
  num_all (store (world st)) <= max_all_processes_running s ->
  (forall g, g ∈ gs -> is_Some (groups (store (world st)) !! group_label g)) ->
  (0 < fuel)%nat ->
  exists st',
    blocking_submit daemon fuel builder groups_arg st = (Ret (Some p, Some false), st') /\
    restart_of _builder = Some (pk wc) /\
    label p = metadata_label builder /\
    description p = metadata_description builder /\
    ESubmit _builder (pk p) ∈ trace st' /\
    p ∈ _submitted_top_processes (self st') /\
    forall g, g ∈ gs -> EAddNodes (group_label g) [pk p] ∈ trace st'.
Proof.
  intros s _builder p Hl Hg Hok Hnt Hterm Hre Hrs Hquota Hdry Hmax Hafter Htop Hall Hgs Hfuel.
  rewrite blocking_submit_unfold.
  rewrite (bind_run _ _ _ _ _ (find_workchains_run builder groups_arg gs _ Hl Hg)).
  rewrite guarded_world, bind_get_self. cbn [fst snd].
  rewrite load_or_submit_submits; [|done|done|].
  2:{ right. cbn [logged self]. by rewrite guarded_resubmit_failed. }
  rewrite Hterm.
  set (st1 := logged (found_events builder gs (store (world st))) (guarded st)).
  set (s' := settings (self st1)).
  assert (Hs' : s' = s \/ s' = downgraded s) by apply guarded_settings.
  assert (Hdel' : delete_if_stalling s' = false) by apply guarded_delete_if_stalling.
  assert (Hfields :
    max_top_processes_running s' = max_top_processes_running s
    /\ max_all_processes_running s' = max_all_processes_running s
    /\ wait_after_submit s' = wait_after_submit s
    /\ max_wait_for_submit s' = max_wait_for_submit s /\ dry_run s' = false
    /\ resubmit_failed s' = true /\ resubmit_failed_as_restart s' = true).
  { destruct Hs' as [->| ->]; by repeat split. }
  destruct Hfields as (Htop' & Hall' & Hafter' & Hmax' & Hdry' & Hre' & Hrs').
  assert (Hw1 : world st1 = world st) by (unfold st1; simpl; apply guarded_world).
  assert (Hstaged : exists m,
    stage_builder s' builder (wc :: others) st1 = (Ret _builder, logged [EPrint m] st1)).
  { unfold stage_builder. rewrite Hre', Hrs'.
    rewrite (bind_run _ _ _ _ _ (print_run _ _)). eauto. }
  destruct Hstaged as (m & Hstaged).
  destruct (submit_branch_submits daemon fuel s' builder gs (wc :: others) _builder m st1)
    as (st' & Hrun & Hfacts); try done.
  - intros q Hq. rewrite Hw1. apply Hquota. unfold st1 in Hq. cbn [logged self] in Hq.
    by rewrite guarded_quotaq in Hq.
  - by rewrite Hmax'.
  - by rewrite Hafter'.
  - by rewrite Hw1, Htop'.
  - by rewrite Hw1, Hall'.
  - intros g Hgin. rewrite Hw1. by apply Hgs.
  - rewrite Hw1 in Hrun, Hfacts. exists st'. split; [exact Hrun|].
    split; [done|]. split; [done|]. split; [done|]. exact Hfacts.
Qed.

(** ** A dry run leaves the database alone *)

(** Invariants that hold on in any world and with any tracked list, and
    are closed under the events that leave the database alone, are kept by
    a [blocking_submit] that runs dry. *)
Section KeepsRehearsal.
Variable daemon : Z -> Z -> Store -> Store.
Variable I : Sys SubmissionSupervisor -> Prop.
Hypothesis I_world :
  forall s w, I s -> I {| self := self s; world := w; trace := trace s |}.
Hypothesis I_emit :
  forall s e, is_modification e = false -> I s -> I (logged [e] s).
Hypothesis I_tracking : forall st l, I st -> I (tracking l st).

Lemma rehearsal_emit e : is_modification e = false -> keeps I (emit e).
Proof. intros He s Hs. by apply I_emit. Qed.

Lemma rehearsal_print m : keeps I (print m).
Proof. by apply rehearsal_emit. Qed.

Lemma rehearsal_query_all q : keeps I (query_all q).
Proof.
  apply keeps_bind; [by apply rehearsal_emit|]. intros _.
  apply keeps_get_world. intros w. apply keeps_ret.
Qed.

Lemma rehearsal_num_running l g : keeps I (num_running l g).
Proof.
  unfold num_running, query_count.
  destruct (g =? 0);
    (apply keeps_bind; [by apply rehearsal_emit|]; intros _;
     apply keeps_get_world; intros w; apply keeps_ret).
Qed.

Lemma rehearsal_load_node k : keeps I (load_node k).
Proof.
  apply keeps_get_world. intros w.
  destruct (List.find _ _); [apply keeps_ret | apply keeps_raise].
Qed.

Lemma rehearsal_sleep d : keeps I (sleep daemon d).
Proof.
  intros s Hs. unfold sleep. destruct (d <? 0) eqn:Hd; [done|].
  rewrite (bind_run _ _ _ _ _ (emit_run _ _)), bind_get_world. simpl.
  apply (I_world (logged _ s)). by apply I_emit.
Qed.

Lemma rehearsal_append_submitted n : keeps I (append_submitted n).
Proof. intros st Hst. rewrite append_submitted_run. by apply (I_tracking st). Qed.

Lemma rehearsal_find_workchains b g : keeps I (find_workchains b g).
Proof.
  unfold find_workchains. destruct (bool_decide _); [apply keeps_raise|].
  apply keeps_bind.
  { destruct g; [apply keeps_raise | apply keeps_ret | apply keeps_ret]. }
  intros gs. apply keeps_bind.
  { generalize (@nil ProcessNode). induction gs as [|g0 gs IH]; intros acc; simpl.
    - apply keeps_ret.
    - apply keeps_bind; [apply rehearsal_query_all|]. intros found. apply IH. }
  intros wcs. apply keeps_bind; [|intros _; apply keeps_ret].
  destruct (_ <? _)%nat; [apply rehearsal_print | apply keeps_ret].
Qed.

Lemma rehearsal_stage_builder s b wts : keeps I (stage_builder s b wts).
Proof.
  unfold stage_builder.
  destruct (resubmit_failed s); [destruct (resubmit_failed_as_restart s)|].
  - destruct wts; [apply keeps_raise|].
    apply keeps_bind; [apply rehearsal_print|]. intros _. apply keeps_ret.
  - apply keeps_bind; [apply rehearsal_print|]. intros _. apply keeps_ret.
  - apply keeps_bind; [apply rehearsal_print|]. intros _. apply keeps_ret.
Qed.

Lemma rehearsal_check_quota : keeps I check_quota.
Proof.
  apply keeps_get_self. intros st Hst.
  destruct (quotaq (self st)) as [q|]; [|done].
  revert st Hst. apply keeps_bind; [by apply rehearsal_emit|]. intros _.
  apply keeps_get_world. intros w.
  destruct (negb _); [apply keeps_raise | apply keeps_ret].
Qed.

Lemma rehearsal_queue_too_full s l : keeps I (queue_too_full s l).
Proof.
  apply keeps_bind; [apply rehearsal_num_running|]. intros n.
  destruct (_ <? _); [apply keeps_ret|].
  apply keeps_bind; [apply rehearsal_num_running|]. intros m. apply keeps_ret.
Qed.

Section Settings.
Variable s : SubmissionSupervisorSettings.
Hypothesis s_dry_run : dry_run s = true.
Hypothesis s_guarded : delete_if_stalling s = false.

Lemma rehearsal_try_submit l pl b gs w spm :
  keeps I (try_submit daemon s l pl b gs w spm).
Proof.
  unfold try_submit.
  apply keeps_bind; [apply rehearsal_num_running|]. intros n.
  apply keeps_bind; [apply rehearsal_num_running|]. intros m.
  apply keeps_bind; [apply rehearsal_print|]. intros _.
  rewrite s_dry_run. cbn [negb].
  apply keeps_bind; [apply rehearsal_print|]. intros _. apply keeps_ret.
Qed.

Lemma rehearsal_waiting_line fuel l pl b gs spm w :
  keeps I (waiting_line daemon fuel s l pl b gs spm w).
Proof.
  revert w. induction fuel as [|fuel IH]; intros w; simpl.
  - apply keeps_out_of_fuel.
  - destruct (_ <=? _); [|apply keeps_ret].
    apply keeps_bind.
    { apply keeps_sweep_simulated; [|exact I_tracking|exact s_guarded].
      intros st m. by apply I_emit. }
    intros _. apply keeps_bind; [apply rehearsal_queue_too_full|]. intros [|].
    + apply keeps_bind; [apply rehearsal_sleep|]. intros _. apply IH.
    + apply keeps_bind; [apply rehearsal_try_submit|]. intros p. apply keeps_ret.
Qed.

Lemma rehearsal_load_or_submit fuel b gs wcs :
  keeps I (load_or_submit daemon fuel s b gs wcs).
Proof.
  unfold load_or_submit.
  assert (Hsubmit : forall wts, keeps I (submit_branch daemon fuel s b gs wts)).
  { intros wts. unfold submit_branch.
    apply keeps_bind; [apply rehearsal_stage_builder|]. intros b'.
    apply keeps_bind; [apply rehearsal_check_quota|]. intros _.
    apply keeps_bind; [apply rehearsal_waiting_line|]. intros [[[|] p] w].
    - apply keeps_ret.
    - apply keeps_bind; [apply rehearsal_print|]. intros _. apply keeps_ret. }
  destruct (List.filter is_finished_ok wcs) as [|wc ?].
  2:{ apply keeps_bind; [apply rehearsal_load_node|]. intros p.
      apply keeps_bind; [apply rehearsal_print|]. intros _. apply keeps_ret. }
  assert (Hload : forall wc : ProcessNode,
    keeps I (bind (load_node (pk wc)) (fun next_process =>
      bind (append_submitted next_process) (fun _ =>
        bind (print (IsNotTerminated (metadata_label b))) (fun _ =>
          ret (Some next_process, Some false)))))).
  { intros wc. apply keeps_bind; [apply rehearsal_load_node|]. intros p.
    apply keeps_bind; [apply rehearsal_append_submitted|]. intros _.
    apply keeps_bind; [apply rehearsal_print|]. intros _. apply keeps_ret. }
  assert (Hterm : forall wc : ProcessNode,
    keeps I (bind (load_node (pk wc)) (fun next_process =>
      bind (print (LoadedTerminated (metadata_label b) (process_state next_process)
                     (exit_status next_process) (resubmit_failed s))) (fun _ =>
        ret (Some next_process, Some true))))).
  { intros wc. apply keeps_bind; [apply rehearsal_load_node|]. intros p.
    apply keeps_bind; [apply rehearsal_print|]. intros _. apply keeps_ret. }
  destruct (List.filter is_terminated wcs) as [|wt ?];
    destruct (resubmit_failed s);
    destruct (List.filter (fun proc => negb (is_terminated proc)) wcs) as [|wn ?];
    first [apply Hload | apply Hterm | apply Hsubmit].
Qed.
End Settings.

End KeepsRehearsal.

Lemma rehearsing_emit x tr0 st e :
  is_modification e = false -> rehearsing x tr0 st -> rehearsing x tr0 (logged [e] st).
Proof.
  intros He [Hx (new & Htr & Hnew)]. split; [done|].
  exists (new ++ [e]). simpl. rewrite Htr, app_assoc. split; [done|].
  apply Forall_app. split; [done|]. by constructor.
Qed.

(** X16. In a dry run ([dry_run=True]) [blocking_submit] leaves the database
    alone, whatever the matches, the groups, the queue and the outcome: the
    settings stay a dry run, and the events the call adds to the trace are
    messages, queries, the quota check and sleeps; no process is submitted,
    no group gains a member and no node is deleted. *)
Theorem blocking_submit_dry_run daemon fuel (builder : ProcessBuilder)
    (groups : GroupsArg) (st : Sys SubmissionSupervisor) :
  dry_run (settings (self st)) = true ->
  let st' := snd (blocking_submit daemon fuel builder groups st) in
  dry_run (settings (self st')) = true /\
  exists new, trace st' = trace st ++ new
              /\ Forall (fun e => is_modification e = false) new.
Proof.
  intros Hdry st'. subst st'.
  set (x := settings (self (guarded st))).
  assert (Hx : dry_run x = true).
  { unfold x. destruct (guarded_settings st) as [->| ->]; exact Hdry. }
  assert (Hkeeps : rehearsing x (trace (guarded st))
                     (snd (blocking_submit daemon fuel builder groups st))).
  { rewrite blocking_submit_unfold.
    assert (H0 : rehearsing x (trace (guarded st)) (guarded st)).
    { split; [done|]. exists []. by rewrite app_nil_r. }
    revert H0. generalize (guarded st) at 2 4. intros st0. revert st0.
    change (keeps (rehearsing x (trace (guarded st)))
              (bind (find_workchains builder groups)
                 (fun found => bind get_self (fun me =>
                    load_or_submit daemon fuel (settings me) builder
                      (fst found) (snd found))))).
    apply keeps_bind.
    { apply rehearsal_find_workchains. intros s e. apply rehearsing_emit. }
    intros found. apply keeps_get_self. intros st0 Hst0.
    destruct Hst0 as [Hs0 Hst0]. rewrite Hs0.
    apply rehearsal_load_or_submit; try done.
    - intros s e. apply rehearsing_emit.
    - apply guarded_delete_if_stalling. }
  destruct Hkeeps as [Hs (new & Htr & Hnew)]. split; [by rewrite Hs|].
  rewrite Htr, guarded_trace, <- app_assoc. eexists. split; [reflexivity|].
  apply Forall_app. split; [|done].
  destruct (delete_if_stalling _); [|constructor]. by constructor.
Qed.

(** ** Counting by state *)

Lemma count_loop_counted d states total :
  d !! "finished" = None \/ d !! "finished" = Some (Processes [])
  \/ (exists m, d !! "finished" = Some (ByExitStatus m)) ->
  count_loop d states total = inr (total + sum_list (counted d <$> states))%nat.
Proof.
  intros Hf. revert total. induction states as [|state states IH]; intros total.
  - simpl. f_equal. lia.
  - rewrite fmap_cons. cbn [count_loop sum_list_with]. unfold counted at 1.
    change (value FINISHED) with "finished"%string.
    case_bool_decide as Hs; cbn [negb].
    + subst state.
      destruct Hf as [->|[->|(m & ->)]]; rewrite IH; f_equal; unfold id; lia.
    + rewrite IH. f_equal. unfold id. lia.
Qed.

(** X17. Whenever [count()] over all states returns, the counts over the
    terminated and over the not terminated states, the two totals
    [print_statistitics] reports, return as well and add up to it. *)
Theorem count_terminated_and_not (c : ProcessClassifier) (n : nat) :
  count c None = inr n ->
  exists a b,
    count c (Some (get_process_states (Some true))) = inr a /\
    count c (Some (get_process_states (Some false))) = inr b /\
    n = (a + b)%nat.
Proof.
  unfold count. set (d := classified_by_state c).
  cbn [get_process_states states_subset list_PS fmap list_fmap value].
  intros Hn.
  assert (Hf : d !! "finished" = None \/ d !! "finished" = Some (Processes [])
               \/ (exists m, d !! "finished" = Some (ByExitStatus m))).
  { rewrite !count_loop_plain in Hn by done. cbn [count_loop] in Hn.
    rewrite bool_decide_eq_true_2 in Hn by done. cbn [negb] in Hn.
    destruct (d !! "finished") as [[[|p l]|m]|]; eauto. discriminate. }
  rewrite (count_loop_counted _ _ _ Hf) in Hn. injection Hn as <-.
  rewrite !(count_loop_counted _ _ _ Hf). eexists _, _.
  split; [reflexivity|]. split; [reflexivity|].
  rewrite !fmap_cons, !fmap_nil. cbn [sum_list_with]. unfold id. lia.
Qed.

(** ** What the constructor of a classifier deletes *)

(** X18. The construction of a [ProcessClassifier] succeeds and leaves the
    nodes of the store alone; it deletes every group whose label matches
    the pattern [process_classification%] of its query and no other group.
    In the pattern the underscore stands for any character: a group
    labelled [process], one character, [classification] and anything more
    is deleted as a leftover temporary group. *)
Theorem ProcessClassifier_init_deletes (processes : list ProcessNode) (st : Sys unit) :
  exists c st',
    ProcessClassifier_init processes st = (Ret c, st') /\
    _unclassified_processes c = processes /\
    nodes (store (world st')) = nodes (store (world st)) /\
    (forall l, groups (store (world st')) !! l
               = if sql_like (_TMP_GROUP_LABEL_PREFIX ++ "%") l then None
                 else groups (store (world st)) !! l) /\
    (forall (a : ascii) (more : string),
       groups (store (world st'))
         !! ("process" ++ String a ("classification" ++ more))%string
       = None).
Proof.
  assert (Hlike : forall sto l,
    l ∈ temporary_groups sto
    <-> sql_like (_TMP_GROUP_LABEL_PREFIX ++ "%") l = true /\ is_Some (groups sto !! l)).
  { intros sto l. unfold temporary_groups. rewrite list_elem_of_In, filter_In.
    rewrite <- list_elem_of_In, list_elem_of_fmap. split.
    - intros [([l' members] & -> & Hin) Hl]. split; [done|].
      apply elem_of_map_to_list in Hin. simpl. eauto.
    - intros [Hl [members Hin]]. split; [|done].
      exists (l, members). split; [done|]. by apply elem_of_map_to_list. }
  assert (Hrun : exists c st',
    ProcessClassifier_init processes st = (Ret c, st') /\
    _unclassified_processes c = processes /\
    nodes (store (world st')) = nodes (store (world st)) /\
    groups (store (world st'))
    = without (temporary_groups (store (world st))) (groups (store (world st)))).
  { unfold ProcessClassifier_init. rewrite bind_get_world.
    destruct (temporary_groups (store (world st))) as [|l ls] eqn:E.
    - rewrite bind_ret_l. eexists _, _. split; [reflexivity|]. by repeat split.
    - rewrite bind_assoc, (bind_run _ _ _ _ _ (print_run _ _)).
      destruct (delete_groups_run (l :: ls) (logged [EPrint InfoFoundTemporaryGroups] st))
        as (evs & Hrun).
      rewrite (bind_run _ _ _ _ _ Hrun). eexists _, _. split; [reflexivity|].
      by repeat split. }
  destruct Hrun as (c & st' & Hrun & Hc & Hnodes & Hgroups).
  assert (Hlookup : forall l, groups (store (world st')) !! l
               = if sql_like (_TMP_GROUP_LABEL_PREFIX ++ "%") l then None
                 else groups (store (world st)) !! l).
  { intros l. rewrite Hgroups, without_lookup.
    destruct (decide (l ∈ temporary_groups (store (world st)))) as [Hin|Hnin].
    - apply Hlike in Hin as [-> _]. done.
    - destruct (sql_like (_TMP_GROUP_LABEL_PREFIX ++ "%") l) eqn:El; [|done].
      destruct (groups (store (world st)) !! l) as [members|] eqn:Eg; [|done].
      exfalso. apply Hnin, Hlike. eauto. }
  exists c, st'. split; [exact Hrun|]. split; [done|]. split; [done|].
  split; [exact Hlookup|].
  intros a more. rewrite Hlookup.
  assert (Hmatch : sql_like (_TMP_GROUP_LABEL_PREFIX ++ "%")
                     ("process" ++ String a ("classification" ++ more)) = true).
  { unfold _TMP_GROUP_LABEL_PREFIX.
    cbn [String.append sql_like Ascii.eqb Bool.eqb orb andb].
    apply like_any. }
  by rewrite Hmatch.
Qed.

(** ** The buckets of a classification by state *)

Lemma value_inj ps ps' : value ps = value ps' -> ps = ps'.
Proof. destruct ps, ps'; simpl; intros H; by (reflexivity || discriminate H). Qed.

Lemma fold_add_by_exit_status_lookup l m es :
  fold_left add_by_exit_status l m !! es
  = match List.filter (fun p => bool_decide (exit_status p = es)) l with
    | [] => m !! es
    | f => Some (default [] (m !! es) ++ f)
    end.
Proof.
  revert m. induction l as [|p l IH]; intros m; simpl; [done|].
  rewrite IH, add_by_exit_status_insert.
  case_bool_decide as Hes.
  - subst es. rewrite lookup_insert_eq. simpl.
    destruct (List.filter _ l); simpl; [done|]. by rewrite <- app_assoc.
  - by rewrite lookup_insert_ne.
Qed.

Lemma of_state_value B sto ps :
  of_state B sto (value ps)
  = List.filter (fun n => bool_decide (process_state n = ps) && in_batch B n) (nodes sto).
Proof.
  unfold of_state. apply filter_ext_in. intros n. f_equal.
  apply bool_decide_ext. split; [apply value_inj | by intros ->].
Qed.

(** X19. After a classification that succeeds, the dictionary has the six
    process states for keys and nothing else; under a state other than
    finished it lists the records of the batch that the store holds in
    that state, in the order of the store, and under finished a dictionary
    that lists, under each exit status borne by a finished record of the
    batch, the finished records of the batch with that exit status. *)
Theorem classify_by_state_buckets (st : Sys ProcessClassifier)
    (lbl : string) (rest : list (string * string)) :
  let B := _unclassified_processes (self st) in
  let sto := store (world st) in
  first_fresh (groups sto) (entropy (world st)) = Some (lbl, rest) ->
  forallb (is_stored sto) B = true ->
  exists st' m,
    classify_by_state st = (Ret tt, st') /\
    (forall ps, ps <> FINISHED ->
       classified_by_state (self st') !! value ps
       = Some (Processes
                 (List.filter
                    (fun n => bool_decide (process_state n = ps) && in_batch B n)
                    (nodes sto)))) /\
    classified_by_state (self st') !! value FINISHED = Some (ByExitStatus m) /\
    (forall es,
       m !! es
       = nonempty
           (List.filter
              (fun n => bool_decide (exit_status n = es)
                        && (bool_decide (process_state n = FINISHED) && in_batch B n))
              (nodes sto))) /\
    (forall state,
       is_Some (classified_by_state (self st') !! state) <-> exists ps, state = value ps).
Proof.
  intros B sto Hf Hs.
  eexists _, _. split; [by apply classify_by_state_run|].
  cbn [self classified_by_state]. fold B sto. rewrite classification_unfold.
  split; [|split; [|split]].
  - intros ps Hps. rewrite <- of_state_value.
    destruct ps; try done; cbn [value]; by simplify_map_eq.
  - cbn [value]. by simplify_map_eq.
  - intros es. unfold by_exit_status. rewrite fold_add_by_exit_status_lookup.
    rewrite lookup_empty. change "finished"%string with (value FINISHED).
    rewrite of_state_value, <- filter_andb. cbn [default app].
    by destruct (List.filter _ _).
  - intros state. split.
    + intros Hsome.
      destruct (decide (state = "finished"%string)) as [->|?]; [by exists FINISHED|].
      destruct (decide (state = "killed"%string)) as [->|?]; [by exists KILLED|].
      destruct (decide (state = "excepted"%string)) as [->|?]; [by exists EXCEPTED|].
      destruct (decide (state = "waiting"%string)) as [->|?]; [by exists WAITING|].
      destruct (decide (state = "running"%string)) as [->|?]; [by exists RUNNING|].
      destruct (decide (state = "created"%string)) as [->|?]; [by exists CREATED|].
      rewrite !lookup_insert_ne, lookup_empty in Hsome by done. by destruct Hsome.
    + intros (ps & ->). destruct ps; cbn [value]; simplify_map_eq; eauto.
Qed.

(** ** The waiting line comes to an end, or does not *)

Lemma finishes_ret {X A} (a : A) : finishes (@ret X A a).
Proof. by intros s. Qed.

Lemma finishes_raise {X A} e : finishes (@raise X A e).
Proof. by intros s. Qed.

Lemma finishes_bind {X A B} (m : M X A) (k : A -> M X B) :
  finishes m -> (forall a, finishes (k a)) -> finishes (bind m k).
Proof.
  intros Hm Hk s. unfold bind. specialize (Hm s).
  destruct (m s) as [[a| |] s']; simpl in *; [apply Hk|done|done].
Qed.

Lemma finishes_emit {X} e : finishes (@emit X e).
Proof. by intros s. Qed.

Lemma finishes_get_world {X B} (k : World -> M X B) :
  (forall w, finishes (k w)) -> finishes (bind get_world k).
Proof. intros H s. apply H. Qed.

Lemma finishes_get_self {X B} (k : X -> M X B) :
  (forall x, finishes (k x)) -> finishes (bind get_self k).
Proof. intros H s. apply H. Qed.

Lemma finishes_for_each {X A} (l : list A) (body : A -> M X unit) :
  (forall a, finishes (body a)) -> finishes (for_each l body).
Proof.
  intros H. induction l as [|a l IH]; simpl; [apply finishes_ret|].
  apply finishes_bind; auto.
Qed.

Lemma finishes_filter_m {X A} (keep : A -> M X bool) (l : list A) :
  (forall a, finishes (keep a)) -> finishes (filter_m keep l).
Proof.
  intros H. induction l as [|a l IH]; simpl; [apply finishes_ret|].
  apply finishes_bind; auto. intros b. apply finishes_bind; auto.
  intros r. apply finishes_ret.
Qed.

Lemma finishes_query_all {X} q : finishes (@query_all X q).
Proof. by intros s. Qed.

Lemma finishes_num_running {X} l g : finishes (@num_running X l g).
Proof. unfold num_running. by destruct (g =? 0); intros s. Qed.

Lemma finishes_load_node {X} k : finishes (@load_node X k).
Proof.
  apply finishes_get_world. intros w.
  destruct (List.find _ _); [apply finishes_ret | apply finishes_raise].
Qed.

Lemma finishes_sleep {X} daemon d : finishes (@sleep daemon X d).
Proof. intros s. unfold sleep. by destruct (d <? 0). Qed.

Lemma finishes_add_nodes {X} g ns : finishes (@add_nodes X g ns).
Proof.
  apply finishes_get_world. intros w.
  destruct (groups (store w) !! group_label g); [|apply finishes_raise].
  destruct (forallb _ _); [|apply finishes_raise]. by intros s.
Qed.

Lemma finishes_find_workchains {X} b g : finishes (@find_workchains X b g).
Proof.
  unfold find_workchains. destruct (bool_decide _); [apply finishes_raise|].
  apply finishes_bind.
  { destruct g; [apply finishes_raise | apply finishes_ret | apply finishes_ret]. }
  intros gs. apply finishes_bind.
  { generalize (@nil ProcessNode). induction gs as [|g0 gs IH]; intros acc; simpl.
    - apply finishes_ret.
    - apply finishes_bind; [apply finishes_query_all|]. intros found. apply IH. }
  intros wcs. apply finishes_bind; [|intros _; apply finishes_ret].
  destruct (_ <? _)%nat; [apply finishes_emit | apply finishes_ret].
Qed.

Lemma finishes_stage_builder {X} s b wts : finishes (@stage_builder X s b wts).
Proof.
  unfold stage_builder.
  destruct (resubmit_failed s); [destruct (resubmit_failed_as_restart s)|].
  - destruct wts; [apply finishes_raise|].
    apply finishes_bind; [apply finishes_emit|]. intros _. apply finishes_ret.
  - apply finishes_bind; [apply finishes_emit|]. intros _. apply finishes_ret.
  - apply finishes_bind; [apply finishes_emit|]. intros _. apply finishes_ret.
Qed.

Lemma finishes_check_quota : finishes check_quota.
Proof.
  apply finishes_get_self. intros me. destruct (quotaq me) as [q|]; [|apply finishes_ret].
  apply finishes_bind; [apply finishes_emit|]. intros _.
  apply finishes_get_world. intros w.
  destruct (negb _); [apply finishes_raise | apply finishes_ret].
Qed.

Lemma finishes_queue_too_full s l : finishes (queue_too_full s l).
Proof.
  apply finishes_bind; [apply finishes_num_running|]. intros n.
  destruct (_ <? _); [apply finishes_ret|].
  apply finishes_bind; [apply finishes_num_running|]. intros m. apply finishes_ret.
Qed.

Lemma finishes_sweep_stalling s : finishes (sweep_stalling s).
Proof.
  unfold sweep_stalling. destruct (_ || _); [|apply finishes_ret].
  apply finishes_get_self. intros me. apply finishes_bind; [|by intros kept s0].
  apply finishes_filter_m. intros wc.
  apply finishes_bind; [|intros b; apply finishes_ret].
  unfold stalling. apply finishes_get_world. intros w.
  apply finishes_bind; [|intros _; apply finishes_ret].
  destruct (exceeds_stalling_time _ _ _); [|apply finishes_ret].
  apply finishes_bind; [apply finishes_emit|]. intros _.
  destruct (negb _); [by intros s0 | apply finishes_ret].
Qed.

Lemma finishes_try_submit daemon s l pl b gs w spm :
  finishes (try_submit daemon s l pl b gs w spm).
Proof.
  unfold try_submit.
  apply finishes_bind; [apply finishes_num_running|]. intros n.
  apply finishes_bind; [apply finishes_num_running|]. intros m.
  apply finishes_bind; [apply finishes_emit|]. intros _.
  destruct (negb _).
  - apply finishes_bind; [by intros s0|]. intros p.
    apply finishes_bind; [by intros s0|]. intros _.
    apply finishes_bind.
    { apply finishes_for_each. intros g. apply finishes_add_nodes. }
    intros _. apply finishes_bind; [apply finishes_emit|]. intros _.
    apply finishes_bind; [apply finishes_sleep|]. intros _. apply finishes_ret.
  - apply finishes_bind; [apply finishes_emit|]. intros _. apply finishes_ret.
Qed.

(** The loop takes at most one turn for each multiple of [wait_for_submit]
    up to [max_wait_for_submit], counted from the time waited. *)
Lemma finishes_waiting_line daemon s l pl b gs spm :
  0 < wait_for_submit s ->
  forall (fuel : nat) waited,
    (Z.to_nat ((max_wait_for_submit s - waited) / wait_for_submit s + 1) < fuel)%nat ->
    finishes (waiting_line daemon fuel s l pl b gs spm waited).
Proof.
  intros Hwait fuel. induction fuel as [|fuel IH]; intros waited Hfuel; [lia|].
  cbn [waiting_line]. destruct (waited <=? max_wait_for_submit s) eqn:E;
    [|apply finishes_ret].
  apply Z.leb_le in E.
  apply finishes_bind; [apply finishes_sweep_stalling|]. intros _.
  apply finishes_bind; [apply finishes_queue_too_full|]. intros [|].
  - apply finishes_bind; [apply finishes_sleep|]. intros _. apply IH.
    replace (max_wait_for_submit s - (waited + wait_for_submit s))
      with (max_wait_for_submit s - waited + (-1) * wait_for_submit s) by lia.
    rewrite Z.div_add by lia.
    assert (0 <= (max_wait_for_submit s - waited) / wait_for_submit s)
      by (apply Z.div_pos; lia).
    lia.
  - apply finishes_bind; [apply finishes_try_submit|]. intros p. apply finishes_ret.
Qed.

(** X20. With a positive [wait_for_submit], [blocking_submit] comes to an
    end, by a result or an exception, whatever the store and the engine
    do: its waiting line polls at most
    [max_wait_for_submit // wait_for_submit + 1] times. *)
Theorem blocking_submit_returns daemon (fuel : nat) (builder : ProcessBuilder)
    (groups : GroupsArg) (st : Sys SubmissionSupervisor) :
  let s := settings (self st) in
  0 < wait_for_submit s ->
  (Z.to_nat (max_wait_for_submit s / wait_for_submit s + 1) < fuel)%nat ->
  fst (blocking_submit daemon fuel builder groups st) <> OutOfFuel.
Proof.
  intros s Hwait Hfuel. rewrite blocking_submit_unfold.
  assert (Hs' : wait_for_submit (settings (self (guarded st))) = wait_for_submit s
                /\ max_wait_for_submit (settings (self (guarded st)))
                   = max_wait_for_submit s).
  { destruct (guarded_settings st) as [->| ->]; by split. }
  destruct Hs' as [Hw' Hm'].
  assert (Hgen : forall st0, settings (self st0) = settings (self (guarded st)) ->
    fst (bind (find_workchains builder groups)
           (fun found => bind get_self (fun me =>
              load_or_submit daemon fuel (settings me) builder (fst found) (snd found)))
           st0) <> OutOfFuel).
  { intros st0 Hst0. unfold bind at 1.
    pose proof (finishes_find_workchains (X := SubmissionSupervisor) builder groups st0)
      as Hfind.
    assert (Hkept : settings (self (snd (find_workchains builder groups st0)))
                    = settings (self st0)).
    { apply (keeps_find_workchains
               (fun st' => settings (self st') = settings (self st0))
               (fun s0 e _ H => H) builder groups st0 eq_refl). }
    destruct (find_workchains builder groups st0) as [[found| |] st1];
      cbn [fst snd] in *; [|done|done].
    rewrite bind_get_self, Hkept, Hst0.
    set (s' := settings (self (guarded st))).
    unfold load_or_submit.
    assert (Hsubmit : forall wts, finishes (submit_branch daemon fuel s' builder
                                            (fst found) wts)).
    { intros wts. unfold submit_branch.
      apply finishes_bind; [apply finishes_stage_builder|]. intros b'.
      apply finishes_bind; [apply finishes_check_quota|]. intros _.
      apply finishes_bind.
      { apply finishes_waiting_line; unfold s'; rewrite ?Hw', ?Hm'; [done|].
        by rewrite Z.sub_0_r. }
      intros [[[|] p] w]; [apply finishes_ret|].
      apply finishes_bind; [apply finishes_emit|]. intros _. apply finishes_ret. }
    assert (Hload : forall (wc : ProcessNode) A (k : ProcessNode -> M SubmissionSupervisor A),
      (forall p, finishes (k p)) -> finishes (bind (load_node (pk wc)) k)).
    { intros wc A k Hk. apply finishes_bind; [apply finishes_load_node|exact Hk]. }
    destruct (List.filter is_finished_ok (snd found)) as [|wc ?].
    2:{ apply Hload. intros p. apply finishes_bind; [apply finishes_emit|].
        intros _. apply finishes_ret. }
    destruct (List.filter is_terminated (snd found)) as [|wt ?];
      destruct (resubmit_failed s');
      destruct (List.filter (fun proc => negb (is_terminated proc)) (snd found))
        as [|wn ?];
      first [ apply Hsubmit
            | apply Hload; intros p;
              first [ apply finishes_bind; [apply finishes_emit|];
                      intros _; apply finishes_ret
                    | apply finishes_bind; [by intros s0|]; intros _;
                      apply finishes_bind; [apply finishes_emit|];
                      intros _; apply finishes_ret ] ]. }
  by apply Hgen.
Qed.

Lemma waiting_line_zero_wait daemon s l pl b gs spm :
  delete_if_stalling s = false ->
  wait_for_submit s = 0 ->
  0 <= max_wait_for_submit s ->
  (forall c d sto, max_top_processes_running s < num_top pl sto ->
                   max_top_processes_running s < num_top pl (daemon c d sto)) ->
  forall (fuel : nat) st,
    max_top_processes_running s < num_top pl (store (world st)) ->
    fst (waiting_line daemon fuel s l pl b gs spm 0 st) = OutOfFuel.
Proof.
  intros Hdel Hwait Hmax Hdaemon fuel.
  induction fuel as [|fuel IH]; intros st Hbusy; [done|].
  cbn [waiting_line]. apply Z.leb_le in Hmax. rewrite Hmax.
  rewrite (bind_run _ _ _ _ _ (sweep_run s st Hdel)).
  rewrite (bind_run _ _ _ _ _ (queue_too_full_top s pl (swept s st)
             ltac:(by rewrite swept_world))).
  rewrite (bind_run _ _ _ _ _
             (sleep_run daemon (wait_for_submit s * spm) _ ltac:(rewrite Hwait; lia))).
  rewrite Hwait. cbn [Z.add]. apply IH.
  simpl. apply Hdaemon. by rewrite swept_world.
Qed.

(** X21. With [wait_for_submit=0] the waiting line makes no progress: when
    the call comes to it (no match, the request staged and the quota
    sufficient) and finds more top processes running than the ceiling
    allows, and the engine keeps that many running, the call polls without
    pause or end; it outlasts every number of turns and never returns. *)
Theorem blocking_submit_zero_wait_never_returns daemon (fuel : nat)
    (builder : ProcessBuilder) (groups : GroupsArg) (gs : list Group)
    (st : Sys SubmissionSupervisor) :
  let s := settings (self st) in
  metadata_label builder <> "" ->
  groups_list groups = Some gs ->
  matches builder gs (store (world st)) = [] ->
  resubmit_failed s && resubmit_failed_as_restart s = false ->
  (forall q, quotaq (self st) = Some q -> is_min_free_space_left q (world st) = true) ->
  wait_for_submit s = 0 ->
  0 <= max_wait_for_submit s ->
  max_top_processes_running s < num_top (_process_class builder) (store (world st)) ->
  (forall c d sto,
     max_top_processes_running s < num_top (_process_class builder) sto ->
     max_top_processes_running s < num_top (_process_class builder) (daemon c d sto)) ->
  fst (blocking_submit daemon fuel builder groups st) = OutOfFuel.
Proof.
  intros s Hl Hg Hm Hflags Hquota Hwait Hmax Hbusy Hdaemon.
  rewrite blocking_submit_unfold.
  rewrite (bind_run _ _ _ _ _ (find_workchains_run builder groups gs _ Hl Hg)).
  rewrite guarded_world, bind_get_self.
  unfold found_events, found. rewrite Hm.
  cbn [remove_duplicates length Nat.ltb Nat.leb fst snd]. rewrite app_nil_r.
  rewrite load_or_submit_submits; [|done|done|by left].
  cbn [List.filter].
  set (s' := settings (self (logged (repeat EQueryAll (length gs)) (guarded st)))).
  assert (Hs' : s' = s \/ s' = downgraded s) by apply guarded_settings.
  assert (Hdel' : delete_if_stalling s' = false) by apply guarded_delete_if_stalling.
  assert (Hfields :
    max_top_processes_running s' = max_top_processes_running s
    /\ wait_for_submit s' = 0 /\ max_wait_for_submit s' = max_wait_for_submit s
    /\ resubmit_failed s' = resubmit_failed s
    /\ resubmit_failed_as_restart s' = resubmit_failed_as_restart s).
  { destruct Hs' as [->| ->]; by repeat split. }
  destruct Hfields as (Htop' & Hwait' & Hmax' & Hre' & Hrs').
  set (st1 := logged (repeat EQueryAll (length gs)) (guarded st)).
  assert (Hstaged : exists m,
    stage_builder s' builder [] st1 = (Ret builder, logged [EPrint m] st1)).
  { unfold stage_builder. rewrite Hre', Hrs'.
    destruct (resubmit_failed s); [destruct (resubmit_failed_as_restart s)|];
      [done| |]; rewrite (bind_run _ _ _ _ _ (print_run _ _)); eauto. }
  destruct Hstaged as (m & Hstaged).
  unfold submit_branch. rewrite (bind_run _ _ _ _ _ Hstaged).
  set (st2 := logged [EPrint m] st1).
  assert (Hq : exists qev, check_quota st2 = (Ret tt, logged qev st2)).
  { unfold check_quota. rewrite bind_get_self. unfold st2, st1. simpl.
    rewrite guarded_quotaq. destruct (quotaq (self st)) as [q|] eqn:Eq.
    - rewrite (bind_run _ _ _ _ _ (emit_run _ _)), bind_get_world. simpl.
      rewrite guarded_world, (Hquota q eq_refl). simpl. by exists [EQuotaCheck].
    - exists []. unfold ret. by rewrite logged_nil. }
  destruct Hq as (qev & Hq). rewrite (bind_run _ _ _ _ _ Hq).
  set (st3 := logged qev st2).
  assert (Hbusy3 : max_top_processes_running s'
                   < num_top (_process_class builder) (store (world st3))).
  { rewrite Htop'. unfold st3, st2, st1. simpl. by rewrite guarded_world. }
  pose proof (waiting_line_zero_wait daemon s' (metadata_label builder)
                (_process_class builder) builder gs (if dry_run s' then 1 else 60)
                Hdel' Hwait' ltac:(by rewrite Hmax')
                ltac:(rewrite Htop'; exact Hdaemon) fuel st3 Hbusy3) as Hline.
  unfold bind at 1.
  destruct (waiting_line _ _ _ _ _ _ _ _ _ st3) as [[outcome| |] st4];
    cbn [fst] in Hline; [discriminate Hline | discriminate Hline | reflexivity].
Qed.

(** * The scenarios, run *)

(** C1: the default settings, a group without a match. *)
Lemma blocking_submit_no_match_restart_IndexError_witness :
  blocking_submit idle_daemon 200 builder_A (GroupsList [imps])
    (supervisor default_settings None [] (store_of [] []))
  = (Raise IndexError,
     logged [EQueryAll] (guarded (supervisor default_settings None [] (store_of [] [])))).
Proof.
  apply (blocking_submit_no_match_restart_IndexError idle_daemon 200 builder_A
           (GroupsList [imps]) [imps]); try reflexivity.
  discriminate.
Defined.

(** C2: record 1 is labelled ["A"], finished with exit status 0, and in the
    group. *)
Lemma blocking_submit_finished_ok_witness :
  exists r st',
    blocking_submit idle_daemon 200 builder_A (GroupsOne imps)
      (supervisor default_settings None []
         (store_of [kkr_imp_wc 1 "A" FINISHED (Some 0)] [1]))
    = (Ret (Some r, Some true), st') /\
    r = kkr_imp_wc 1 "A" FINISHED (Some 0).
Proof.
  destruct (blocking_submit_finished_ok idle_daemon 200 builder_A (GroupsOne imps) [imps]
              (supervisor default_settings None []
                 (store_of [kkr_imp_wc 1 "A" FINISHED (Some 0)] [1]))
              (kkr_imp_wc 1 "A" FINISHED (Some 0)) imps)
    as (r & st' & Hrun & (Hr & _) & _).
  - split; simpl; apply NoDup_singleton.
  - discriminate.
  - reflexivity.
  - simpl. apply list_elem_of_singleton. reflexivity.
  - apply list_elem_of_singleton. reflexivity.
  - vm_compute. reflexivity.
  - reflexivity.
  - reflexivity.
  - reflexivity.
  - exists r, st'. split; [exact Hrun|].
    simpl in Hr. by apply list_elem_of_singleton in Hr.
Defined.

(** C3: settings that ask for the deletion. *)
Lemma delete_if_stalling_guard_witness :
  delete_if_stalling deleting = true /\
  exists sup,
    SubmissionSupervisor_init deleting None
      {| self := tt; world := world_of (store_of [] []); trace := [] |}
    = (Ret sup, {| self := tt; world := world_of (store_of [] []);
                   trace := [EPrint WarnDeleteIfStallingUnsupported] |}) /\
    delete_if_stalling (settings sup) = false /\
    delete_if_stalling_dry_run (settings sup) = true.
Proof.
  split; [reflexivity|].
  destruct (delete_if_stalling_guard idle_daemon deleting None
              {| self := tt; world := world_of (store_of [] []); trace := [] |} eq_refl)
    as (sup & Hinit & _ & Hdel & Hdry & _).
  exists sup. by repeat split.
Defined.

(** C10: the call of the docstring's signature, [groups] left out. *)
Lemma blocking_submit_groups_None_witness :
  blocking_submit idle_daemon 200 builder_A GroupsNone
    (supervisor default_settings None [] (store_of [] []))
  = (Raise TypeError, supervisor default_settings None [] (store_of [] [])).
Proof.
  apply (blocking_submit_groups_None idle_daemon 200 builder_A
           (supervisor default_settings None [] (store_of [] []))).
  discriminate.
Defined.

(** C7: no match, failed processes not resubmitted, and a quota querier
    that reports too little space. *)
Lemma blocking_submit_quota_abort_witness :
  exists st',
    blocking_submit idle_daemon 200 builder_A (GroupsList [imps])
      (supervisor ceiling_zero (Some no_space_left) [] (store_of [] []))
    = (Raise IOError, st') /\
    world st' = world_of (store_of [] []).
Proof.
  destruct (blocking_submit_quota_abort idle_daemon 200 builder_A (GroupsList [imps])
              [imps] (supervisor ceiling_zero (Some no_space_left) [] (store_of [] []))
              no_space_left)
    as (st' & Hrun & Hw & _); try (vm_compute; reflexivity).
  - discriminate.
  - left. vm_compute. reflexivity.
  - exists st'. split; [exact Hrun | exact Hw].
Defined.

(** C5: a workchain of the builder's class, under another label, is
    running; with the waits of the specification's scenario the call sleeps
    twice one second and gives up. *)
Lemma blocking_submit_ceiling_zero_times_out_witness :
  exists st',
    blocking_submit idle_daemon 200 builder_A (GroupsList [imps])
      (supervisor ceiling_zero None [] (store_of [kkr_imp_wc 7 "B" RUNNING None] [7]))
    = (Ret (None, None), st') /\
    EPrint (WarnTimedOut "A" 2) ∈ trace st' /\
    exists new, trace st' = [] ++ new
      /\ slept_seconds new = 2
      /\ Forall (fun e => is_submission e = false) new.
Proof.
  apply (blocking_submit_ceiling_zero_times_out idle_daemon 200 builder_A
           (GroupsList [imps]) [imps]
           (supervisor ceiling_zero None [] (store_of [kkr_imp_wc 7 "B" RUNNING None] [7])));
    try (vm_compute; reflexivity).
  - discriminate.
  - discriminate.
  - discriminate.
  - intros c d sto H. exact H.
  - vm_compute. lia.
Defined.

(** C5 fails as stated: with the same settings and nothing running, the
    test [0 > 0] is false, the call takes the submit branch at once (here
    in its dry run) and returns [from_db=False]; and when it does time out,
    it has slept two scaled seconds, not one. *)
Lemma blocking_submit_ceiling_zero_submits :
  fst (blocking_submit idle_daemon 200 builder_A (GroupsList [imps])
         (supervisor ceiling_zero None [] (store_of [] [])))
  = Ret (None, Some false)
  /\ trace (snd (blocking_submit idle_daemon 200 builder_A (GroupsList [imps])
                   (supervisor ceiling_zero None [] (store_of [] []))))
     = [EQueryAll; EPrint (StagingSubmit "A" false None false);
        EQueryCount; EQueryCount; EQueryCount; EQueryCount;
        EPrint (TrySubmit 0 0 0 2); EPrint (DryRunWouldSubmit "A")]
  /\ slept_seconds
       (trace (snd (blocking_submit idle_daemon 200 builder_A (GroupsList [imps])
                      (supervisor ceiling_zero None []
                         (store_of [kkr_imp_wc 7 "B" RUNNING None] [7])))))
     = 2.
Proof. vm_compute. by repeat split. Qed.


Lemma classify_by_state_partition_witness :
  exists st',
    classify_by_state (classifier three (store_of three [])) = (Ret tt, st') /\
    count (self st') None = inr 3%nat.
Proof.
  destruct (classify_by_state_partition (classifier three (store_of three []))
              "process_classification_2021-03-01_12-00-00_abcdefghijklmnop"
              [("2021-03-01_12-00-01", "ponmlkjihgfedcba")%string])
    as (st' & Hrun & _ & _ & _ & _ & Hcount).
  - apply (bool_decide_unpack _). vm_compute. exact I.
  - vm_compute. reflexivity.
  - vm_compute. reflexivity.
  - exists st'. split; [exact Hrun|]. apply Hcount.
    apply (bool_decide_unpack _). vm_compute. exact I.
Defined.

(** C4 fails as stated: the same record twice in the batch is once in the
    temporary group, so [count()] is 1 and [len(B)] is 2. *)
Lemma count_of_repeated_record :
  fst (classify_by_state
         (classifier [kkr_imp_wc 1 "A" RUNNING None; kkr_imp_wc 1 "A" RUNNING None]
            (store_of [kkr_imp_wc 1 "A" RUNNING None] [])))
  = Ret tt
  /\ count (self (snd (classify_by_state
         (classifier [kkr_imp_wc 1 "A" RUNNING None; kkr_imp_wc 1 "A" RUNNING None]
            (store_of [kkr_imp_wc 1 "A" RUNNING None] [])))))
       None
     = inr 1%nat
  /\ length [kkr_imp_wc 1 "A" RUNNING None; kkr_imp_wc 1 "A" RUNNING None] = 2%nat.
Proof. vm_compute. by repeat split. Qed.

Lemma classify_by_state_twice_witness :
  exists st1 st2,
    classify_by_state (classifier three (store_of three [])) = (Ret tt, st1) /\
    classify_by_state st1 = (Ret tt, st2) /\
    classified_by_state (self st2) = classified_by_state (self st1).
Proof.
  destruct (classify_by_state_twice (classifier three (store_of three []))
              "process_classification_2021-03-01_12-00-00_abcdefghijklmnop"
              [("2021-03-01_12-00-01", "ponmlkjihgfedcba")%string]
              "process_classification_2021-03-01_12-00-01_ponmlkjihgfedcba" [])
    as (st1 & st2 & H1 & H2 & _ & _ & Heq).
  - vm_compute. reflexivity.
  - vm_compute. reflexivity.
  - vm_compute. reflexivity.
  - exists st1, st2. by repeat split.
Defined.

(** C8: a batch with a record the store does not hold. *)
Lemma classify_by_state_temporary_group_witness :
  fst (classify_by_state (classifier [kkr_imp_wc 5 "E" CREATED None] (store_of three [])))
  = Raise ValueError /\
  groups (store (world (snd (classify_by_state
            (classifier [kkr_imp_wc 5 "E" CREATED None] (store_of three []))))))
  = <["process_classification_2021-03-01_12-00-00_abcdefghijklmnop"%string := ∅]>
      (groups (store_of three [])).
Proof.
  pose proof (classify_by_state_temporary_group
                (classifier [kkr_imp_wc 5 "E" CREATED None] (store_of three []))
                "process_classification_2021-03-01_12-00-00_abcdefghijklmnop"
                [("2021-03-01_12-00-01", "ponmlkjihgfedcba")%string]
                ltac:(vm_compute; reflexivity)) as H.
  cbv zeta in H.
  change (forallb _ _) with false in H. cbv iota in H.
  destruct H as (Hraise & Hgroups & _). by split.
Defined.

(** C8 fails as stated: after the failed run the temporary group is still
    in the store. *)
Lemma failed_classification_leaves_group :
  fst (classify_by_state (classifier [kkr_imp_wc 5 "E" CREATED None] (store_of three [])))
  = Raise ValueError
  /\ groups (store (world (snd (classify_by_state
               (classifier [kkr_imp_wc 5 "E" CREATED None] (store_of three []))))))
       !! "process_classification_2021-03-01_12-00-00_abcdefghijklmnop"%string
     = Some ∅
  /\ trace (snd (classify_by_state
                   (classifier [kkr_imp_wc 5 "E" CREATED None] (store_of three []))))
     = [ECreateGroup "process_classification_2021-03-01_12-00-00_abcdefghijklmnop"].
Proof. vm_compute. by repeat split. Qed.

(** ** The further functions *)

(** X3: the batch of three impurity workchains, by process label. *)
Lemma classify_by_type_lists_witness :
  exists m,
    classify_by_type WorkChainNode process_label kkr_process_type
      {| _unclassified_processes := three; classified_by_state := ∅ |}
      !! "process_label" = Some m /\
    m !! "kkr_imp_wc" = Some three.
Proof.
  destruct (classify_by_type_lists WorkChainNode process_label kkr_process_type
              {| _unclassified_processes := three; classified_by_state := ∅ |}
              "process_label" process_label) as (m & Hm & Hk).
  - apply elem_of_cons. right. apply elem_of_cons. right.
    apply elem_of_cons. left. reflexivity.
  - exists m. split; [exact Hm|]. rewrite Hk. vm_compute. reflexivity.
Defined.

(** X4: of the batch of three, record 1 has excepted children. *)
Lemma find_partially_excepted_processes_lists_witness :
  find_partially_excepted_processes called_by_1 three 1
  = inr [(kkr_imp_wc 1 "A" FINISHED (Some 0),
          [kkr_imp_wc 11 "a" EXCEPTED None; kkr_imp_wc 13 "c" EXCEPTED None])].
Proof.
  rewrite (find_partially_excepted_processes_lists called_by_1 three 1).
  - vm_compute. reflexivity.
  - lia.
  - apply (bool_decide_unpack _). vm_compute. exact I.
Defined.

(** X6: a list of three items, the second of which has no data class. *)
Lemma itemize_list_entries_witness :
  exists a_dict,
    snd (itemize_list _ accepting [PyInt 7; PyNone; PyStr "a"]) = inr a_dict /\
    a_dict !! "item_000" = Some (orm.Int, PyInt 7) /\
    a_dict !! "item_001" = None /\
    a_dict !! "item_002" = Some (orm.Str, PyStr "a") /\
    size a_dict = 2%nat.
Proof.
  destruct (itemize_list_entries _ accepting [PyInt 7; PyNone; PyStr "a"])
    as (a_dict & Hrun & _ & Hlook & _ & Hsize & _).
  - intros item orm_cls _ _. unfold made, make_value, accepting.
    destruct (bool_decide (orm_cls = orm.Dict)), (bool_decide (orm_cls = orm.List)); eauto.
  - exists a_dict. split; [exact Hrun|].
    split; [exact (Hlook 0%nat (PyInt 7) eq_refl)|].
    split; [exact (Hlook 1%nat PyNone eq_refl)|].
    split; [exact (Hlook 2%nat (PyStr "a") eq_refl)|].
    exact Hsize.
Defined.

(** X7: a dictionary after a number, with constructors that take a
    dictionary by keyword only. *)
Lemma itemize_list_dict_positional_witness :
  snd (itemize_list _ by_keyword_only [PyInt 1; PyDict ∅]) = inl (Builtin TypeError).
Proof.
  apply (itemize_list_dict_positional _ by_keyword_only [PyInt 1; PyDict ∅] 1 ∅
           (orm.Dict, PyDict ∅) (Builtin TypeError)).
  - reflexivity.
  - intros [|j] item orm_cls Hj Hitem Hcls; [|lia].
    injection Hitem as <-. injection Hcls as <-. vm_compute. eauto.
  - reflexivity.
  - reflexivity.
Defined.

(** X11: a builder without a label, and no groups. *)
Lemma blocking_submit_label_unset_witness :
  blocking_submit idle_daemon 200
    {| metadata_label := ""; metadata_description := "";
       _process_class := "kkr_imp_wc"; restart_of := None |}
    GroupsNone (supervisor default_settings None [] (store_of [] []))
  = (Raise ValueError, supervisor default_settings None [] (store_of [] [])).
Proof.
  apply (blocking_submit_label_unset idle_daemon 200
           {| metadata_label := ""; metadata_description := "";
              _process_class := "kkr_imp_wc"; restart_of := None |}
           GroupsNone (supervisor default_settings None [] (store_of [] []))).
  reflexivity.
Defined.

(** X12: record 1 is labelled ["A"] and has failed; failed processes are
    not resubmitted. *)
Lemma blocking_submit_terminated_no_retry_witness :
  exists st',
    blocking_submit idle_daemon 200 builder_A (GroupsOne imps)
      (supervisor ceiling_zero None []
         (store_of [kkr_imp_wc 1 "A" FINISHED (Some 3)] [1]))
    = (Ret (Some (kkr_imp_wc 1 "A" FINISHED (Some 3)), Some true), st') /\
    world st' = world_of (store_of [kkr_imp_wc 1 "A" FINISHED (Some 3)] [1]).
Proof.
  destruct (blocking_submit_terminated_no_retry idle_daemon 200 builder_A (GroupsOne imps)
              [imps]
              (supervisor ceiling_zero None []
                 (store_of [kkr_imp_wc 1 "A" FINISHED (Some 3)] [1]))
              (kkr_imp_wc 1 "A" FINISHED (Some 3)) [])
    as (st' & Hrun & Hw & _).
  - split; simpl; apply NoDup_singleton.
  - discriminate.
  - reflexivity.
  - vm_compute. reflexivity.
  - vm_compute. reflexivity.
  - reflexivity.
  - exists st'. split; [exact Hrun | exact Hw].
Defined.

(** X13: record 1 is labelled ["A"] and running. *)
Lemma blocking_submit_not_terminated_witness :
  exists st',
    blocking_submit idle_daemon 200 builder_A (GroupsOne imps)
      (supervisor default_settings None []
         (store_of [kkr_imp_wc 1 "A" RUNNING None] [1]))
    = (Ret (Some (kkr_imp_wc 1 "A" RUNNING None), Some false), st') /\
    _submitted_top_processes (self st') = [kkr_imp_wc 1 "A" RUNNING None].
Proof.
  destruct (blocking_submit_not_terminated idle_daemon 200 builder_A (GroupsOne imps)
              [imps]
              (supervisor default_settings None []
                 (store_of [kkr_imp_wc 1 "A" RUNNING None] [1]))
              (kkr_imp_wc 1 "A" RUNNING None) [])
    as (st' & Hrun & _ & Htracked & _).
  - split; simpl; apply NoDup_singleton.
  - discriminate.
  - reflexivity.
  - vm_compute. reflexivity.
  - left. vm_compute. reflexivity.
  - vm_compute. reflexivity.
  - exists st'. split; [exact Hrun | exact Htracked].
Defined.

(** X14: no match, failed processes resubmitted but not as restarts. *)
Lemma blocking_submit_no_match_submits_witness :
  exists st',
    blocking_submit idle_daemon 200 builder_A (GroupsList [imps])
      (supervisor no_restart None [] (store_of [] []))
    = (Ret (Some (new_node builder_A (world_of (store_of [] []))), Some false), st') /\
    ESubmit builder_A 100 ∈ trace st'.
Proof.
  destruct (blocking_submit_no_match_submits idle_daemon 200 builder_A (GroupsList [imps])
              [imps] (supervisor no_restart None [] (store_of [] [])))
    as (st' & Hrun & Hsubmit & _); try (vm_compute; reflexivity).
  - discriminate.
  - discriminate.
  - discriminate.
  - discriminate.
  - discriminate.
  - discriminate.
  - intros g Hg. apply list_elem_of_singleton in Hg. subst g. vm_compute. eauto.
  - lia.
  - exists st'. split; [exact Hrun | exact Hsubmit].
Defined.

(** X15: record 1 is labelled ["A"] and has failed; the defaults restart
    it. *)
Lemma blocking_submit_restart_failed_witness :
  exists st' p,
    blocking_submit idle_daemon 200 builder_A (GroupsList [imps])
      (supervisor default_settings None []
         (store_of [kkr_imp_wc 1 "A" FINISHED (Some 3)] [1]))
    = (Ret (Some p, Some false), st') /\
    label p = "A"%string /\
    ESubmit {| metadata_label := "A"; metadata_description := "impurity A";
               _process_class := "kkr_imp_wc"; restart_of := Some 1 |} 100
      ∈ trace st'.
Proof.
  destruct (blocking_submit_restart_failed idle_daemon 200 builder_A (GroupsList [imps])
              [imps]
              (supervisor default_settings None []
                 (store_of [kkr_imp_wc 1 "A" FINISHED (Some 3)] [1]))
              (kkr_imp_wc 1 "A" FINISHED (Some 3)) [])
    as (st' & Hrun & _ & Hlabel & _ & Hsubmit & _); try (vm_compute; reflexivity).
  - discriminate.
  - discriminate.
  - discriminate.
  - discriminate.
  - discriminate.
  - discriminate.
  - intros g Hg. apply list_elem_of_singleton in Hg. subst g. vm_compute. eauto.
  - lia.
  - eexists st', _. split; [exact Hrun|]. split; [exact Hlabel | exact Hsubmit].
Defined.

(** X16: the dry run of the specification's scenario, with a free queue. *)
Lemma blocking_submit_dry_run_witness :
  dry_run ceiling_zero = true /\
  exists new,
    trace (snd (blocking_submit idle_daemon 200 builder_A (GroupsList [imps])
                  (supervisor ceiling_zero None [] (store_of [] []))))
    = [] ++ new
    /\ Forall (fun e => is_modification e = false) new.
Proof.
  split; [reflexivity|].
  apply (blocking_submit_dry_run idle_daemon 200 builder_A (GroupsList [imps])
           (supervisor ceiling_zero None [] (store_of [] []))).
  reflexivity.
Defined.

(** X17: a dictionary with one killed and two running processes. *)
Lemma count_terminated_and_not_witness :
  exists a b,
    count {| _unclassified_processes := [];
             classified_by_state :=
               {[ "killed" := Processes [kkr_imp_wc 1 "A" KILLED None];
                  "running" := Processes [kkr_imp_wc 2 "B" RUNNING None;
                                          kkr_imp_wc 3 "C" RUNNING None] ]}%string |}
      (Some (get_process_states (Some true))) = inr a /\
    count {| _unclassified_processes := [];
             classified_by_state :=
               {[ "killed" := Processes [kkr_imp_wc 1 "A" KILLED None];
                  "running" := Processes [kkr_imp_wc 2 "B" RUNNING None;
                                          kkr_imp_wc 3 "C" RUNNING None] ]}%string |}
      (Some (get_process_states (Some false))) = inr b /\
    3%nat = (a + b)%nat.
Proof.
  apply (count_terminated_and_not
           {| _unclassified_processes := [];
              classified_by_state :=
                {[ "killed" := Processes [kkr_imp_wc 1 "A" KILLED None];
                   "running" := Processes [kkr_imp_wc 2 "B" RUNNING None;
                                           kkr_imp_wc 3 "C" RUNNING None] ]}%string |}
           3%nat).
  vm_compute. reflexivity.
Defined.

(** X19: the batch of three stored records. *)
Lemma classify_by_state_buckets_witness :
  exists st' m,
    classify_by_state (classifier three (store_of three [])) = (Ret tt, st') /\
    classified_by_state (self st') !! "running"
    = Some (Processes [kkr_imp_wc 3 "C" RUNNING None]) /\
    classified_by_state (self st') !! "finished" = Some (ByExitStatus m) /\
    m !! Some 3 = Some [kkr_imp_wc 2 "B" FINISHED (Some 3)].
Proof.
  destruct (classify_by_state_buckets (classifier three (store_of three []))
              "process_classification_2021-03-01_12-00-00_abcdefghijklmnop"
              [("2021-03-01_12-00-01", "ponmlkjihgfedcba")%string])
    as (st' & m & Hrun & Hstates & Hfinished & Hexit & _).
  - vm_compute. reflexivity.
  - vm_compute. reflexivity.
  - exists st', m. split; [exact Hrun|]. split; [|split; [exact Hfinished|]].
    + pose proof (Hstates RUNNING ltac:(discriminate)) as H. cbn [value] in H.
      rewrite H. vm_compute. reflexivity.
    + rewrite Hexit. vm_compute. reflexivity.
Defined.

(** X20: the default settings poll at most 25 times. *)
Lemma blocking_submit_returns_witness :
  0 < wait_for_submit default_settings /\
  fst (blocking_submit idle_daemon 200 builder_A (GroupsList [imps])
         (supervisor no_restart None [] (store_of [kkr_imp_wc 7 "B" RUNNING None] [7])))
  <> OutOfFuel.
Proof.
  split; [reflexivity|].
  apply (blocking_submit_returns idle_daemon 200 builder_A (GroupsList [imps])
           (supervisor no_restart None [] (store_of [kkr_imp_wc 7 "B" RUNNING None] [7]))).
  - reflexivity.
  - vm_compute. lia.
Defined.

(** X21: a workchain of the builder's class is running, the ceiling is 0
    and the wait between polls is 0. *)
Lemma blocking_submit_zero_wait_never_returns_witness :
  fst (blocking_submit idle_daemon 200 builder_A (GroupsList [imps])
         (supervisor zero_wait None [] (store_of [kkr_imp_wc 7 "B" RUNNING None] [7])))
  = OutOfFuel.
Proof.
  apply (blocking_submit_zero_wait_never_returns idle_daemon 200 builder_A
           (GroupsList [imps]) [imps]
           (supervisor zero_wait None [] (store_of [kkr_imp_wc 7 "B" RUNNING None] [7])));
    try (vm_compute; reflexivity).
  - discriminate.
  - discriminate.
  - discriminate.
  - intros c d sto H. exact H.
Defined.
